(** * libbtcnet: the connection handler and the DNS connection variant

    A shallow embedding of [CConnectionHandlerInt] (handler.cpp) and of
    [CDNSConnection] (dnsconn.cpp).  The handler's four maps are finite maps
    keyed by [ConnID]; the handler's member functions are written in a small
    state monad that can fail (a failed [assert]) and that records, in order,
    every call made to the embedder's callback interface [m_interface] and to
    the connection objects, each with the handler state at the moment of the
    call. *)

From Stdlib Require Import ZArith List Bool Lia.
From stdpp Require Import base option list sorting strings gmap fin_maps.

Local Open Scope Z_scope.

(** ** Machine integers *)

(** The width of [ConnID].  handler.cpp reads every id from
    [m_connection_index++] into a [ConnID], an unsigned integer type whose
    declaration for this version of the handler is not among the sources:
    the older public header has [typedef unsigned int ConnID;] next to
    member functions that take [uint64_t] ids.  The width is therefore a
    parameter of the development, and every theorem holds for each width. *)
Class ConnIDWidth := { ConnID_bits : Z; ConnID_bits_pos : 0 < ConnID_bits }.

Abbreviation ConnID := Z (only parsing).
Definition ConnID_modulus `{ConnIDWidth} : Z := 2 ^ ConnID_bits.

(** Arithmetic on [ConnID] is modulo [2 ^ ConnID_bits]. *)
Definition to_ConnID `{ConnIDWidth} (x : Z) : Z := x mod ConnID_modulus.

(** Modelled from the spec: the declaration of [ConnID] is missing (see
    above); "ConnID: a monotonically increasing 64-bit identifier".  The
    runs on concrete inputs at the end of the file use this width. *)
#[export] Instance ConnID_64 : ConnIDWidth :=
  {| ConnID_bits := 64; ConnID_bits_pos := eq_refl |}.

(** [int] and [unsigned int] have 32 bits. *)
Definition uint_bits : Z := 32.
Definition uint_modulus : Z := 2 ^ uint_bits.
Definition size_t_modulus : Z := 2 ^ 64.

(** The cast [(size_t) e] of an [int]. *)
Definition to_size_t (x : Z) : Z := x mod size_t_modulus.

(** The cast [(int) e] of a [size_t]. *)
Definition to_int (x : Z) : Z :=
  let r := x mod uint_modulus in
  if r <? uint_modulus / 2 then r else r - uint_modulus.

(** An [int] used where a [bool] is expected. *)
Definition int_to_bool (x : Z) : bool := negb (x =? 0).
Definition bool_to_int (b : bool) : Z := if b then 1 else 0.

(** ** Destinations: what the code reads of a [CConnection] *)

Inductive ResolveMode := RESOLVE | NO_RESOLVE | RESOLVE_ONLY.
Inductive Family := IPV4 | IPV6 | ANY.

Record CConnectionOptions := {
  doResolve : ResolveMode;
  resolveFamily : Family;
  nInitialTimeout : Z;
  nRetries : Z
}.

Record CProxy := { proxy_IsSet : bool }.

(** The class [CConnection] is declared in a header that the handler includes;
    the record holds the results of the accessors the code calls. *)
Record CConnection := {
  IsSet : bool;
  IsDNS : bool;
  GetHost : string;
  GetPort : Z;
  GetOptions : CConnectionOptions;
  GetProxy : CProxy;
  GetNetConfig : Z;
  GetSockAddr : option (Z * Z)
}.

Definition ResolveMode_eqb (a b : ResolveMode) : bool :=
  match a, b with
  | RESOLVE, RESOLVE | NO_RESOLVE, NO_RESOLVE | RESOLVE_ONLY, RESOLVE_ONLY => true
  | _, _ => false
  end.

(** Modelled from the spec: the constructor
    [CConnection(options, netconfig, addr, addrlen)] is not in the sources; a
    Resolved Destination is "a Destination augmented with a concrete socket
    address". *)
Definition resolved_connection (opts : CConnectionOptions) (cfg : Z)
    (addr : Z) (addrlen : Z) : CConnection :=
  {| IsSet := true; IsDNS := false; GetHost := ""; GetPort := 0;
     GetOptions := opts; GetProxy := {| proxy_IsSet := false |};
     GetNetConfig := cfg; GetSockAddr := Some (addr, addrlen) |}.

(** Modelled from the spec: the enumeration [ConnectionFailureType] is declared
    in a header that is not in the sources.  The handler tests its argument
    with [type & PROXY] and [type & RESOLVE], so the kinds are bit flags; they
    are taken as distinct bits.  [RESOLVE_FAILURE] and [PROXY_FAILURE] are
    [ConnectionFailureType::RESOLVE] and [ConnectionFailureType::PROXY]. *)
Abbreviation ConnectionFailureType := Z (only parsing).
Definition CONNECT : ConnectionFailureType := 1.
Definition RESOLVE_FAILURE : ConnectionFailureType := 2.
Definition PROXY_FAILURE : ConnectionFailureType := 4.
Definition has_flag (type flag : ConnectionFailureType) : bool :=
  negb (Z.land type flag =? 0).

(** ** The DNS connection variant (dnsconn.cpp) *)

Module CDNSConnection.

Record addrinfo := { ai_addr : Z; ai_addrlen : Z }.

Inductive ai_family_t := AF_INET | AF_INET6 | AF_UNSPEC.
Inductive ai_flag := EVUTIL_AI_NUMERICSERV | EVUTIL_AI_NUMERICHOST | EVUTIL_AI_ADDRCONFIG.

Record evutil_addrinfo := {
  hint_socktype_stream : bool;
  hint_protocol_tcp : bool;
  hint_flags : list ai_flag;
  hint_family : ai_family_t
}.

(** [m_iter] is a position in [m_resolved]; [m_resolved.end()] is the
    length of the list.  [m_request] and [m_bev] are handles, here whether
    they are set. *)
Record t := {
  m_connection : CConnection;
  m_retries : Z;
  m_resolved : list addrinfo;
  m_iter : nat;
  m_request : bool;
  m_bev : bool
}.

(** What a member function hands over to the base classes when it ends. *)
Inductive Out :=
| Resolve (host : string) (port : Z) (hint : evutil_addrinfo)
| BareConnect (addr : addrinfo) (timeout_sec : Z)
| OnConnectionFailure (type : ConnectionFailureType) (error : Z)
    (resolved : CConnection) (retry : bool)
| OnOutgoingConnected (resolved : CConnection).

Definition BEV_EVENT_ERROR : Z := 32.

Definition with_retries (c : t) (r : Z) : t :=
  {| m_connection := m_connection c; m_retries := r; m_resolved := m_resolved c;
     m_iter := m_iter c; m_request := m_request c; m_bev := m_bev c |}.
Definition with_resolved (c : t) (l : list addrinfo) (i : nat) : t :=
  {| m_connection := m_connection c; m_retries := m_retries c; m_resolved := l;
     m_iter := i; m_request := m_request c; m_bev := m_bev c |}.
Definition with_request (c : t) (b : bool) : t :=
  {| m_connection := m_connection c; m_retries := m_retries c; m_resolved := m_resolved c;
     m_iter := m_iter c; m_request := b; m_bev := m_bev c |}.
Definition with_bev (c : t) (b : bool) : t :=
  {| m_connection := m_connection c; m_retries := m_retries c; m_resolved := m_resolved c;
     m_iter := m_iter c; m_request := m_request c; m_bev := b |}.

Definition at_end (c : t) : bool := (m_iter c =? length (m_resolved c))%nat.
Definition empty (c : t) : bool := match m_resolved c with [] => true | _ => false end.

(** The constructor: [m_retries(m_connection.GetOptions().nRetries)]. *)
Definition new (conn : CConnection) : t :=
  {| m_connection := conn; m_retries := nRetries (GetOptions conn);
     m_resolved := []; m_iter := 0%nat; m_request := false; m_bev := false |}.

Definition IsOutgoing (c : t) : bool := true.

Definition DoResolve (c : t) : option (t * Out) :=
  if negb (m_bev c) && negb (m_request c) && empty c && at_end c then
    let opts := GetOptions (m_connection c) in
    let hint :=
      {| hint_socktype_stream := true; hint_protocol_tcp := true;
         hint_flags :=
           [EVUTIL_AI_NUMERICSERV;
            if ResolveMode_eqb (doResolve opts) NO_RESOLVE
            then EVUTIL_AI_NUMERICHOST else EVUTIL_AI_ADDRCONFIG];
         hint_family :=
           match resolveFamily opts with
           | IPV4 => AF_INET | IPV6 => AF_INET6 | ANY => AF_UNSPEC
           end |} in
    Some (with_request c true,
          Resolve (GetHost (m_connection c)) (GetPort (m_connection c)) hint)
  else None.

Definition Cancel (c : t) : t :=
  with_resolved (with_bev (with_request c false) false) [] 0%nat.

(** [++m_iter != m_resolved.end() || m_retries != 0]: the increment is
    evaluated first, the right operand only when the left one is false. *)
Definition ConnectionFailure (event : Z) (c : t) : option (t * Out) :=
  if negb (m_bev c) && negb (at_end c) && negb (empty c) then
    match m_resolved c !! m_iter c with
    | Some a =>
        let resolved :=
          resolved_connection (GetOptions (m_connection c))
            (GetNetConfig (m_connection c)) (ai_addr a) (ai_addrlen a) in
        let c' := with_resolved c (m_resolved c) (S (m_iter c)) in
        let retry := negb (at_end c') || negb (m_retries c' =? 0) in
        Some (c', OnConnectionFailure CONNECT event resolved retry)
    | None => None
    end
  else None.

(** [bev_created] is whether [BareCreate] returned a handle. *)
Definition ConnectResolved (bev_created : bool) (c : t) : option (t * Out) :=
  if negb (m_bev c) && negb (at_end c) && negb (empty c) then
    if negb bev_created then ConnectionFailure BEV_EVENT_ERROR c
    else
      match m_resolved c !! m_iter c with
      | Some a =>
          Some (with_bev c true,
                BareConnect a (nInitialTimeout (GetOptions (m_connection c))))
      | None => None
      end
  else None.

Definition Connect (bev_created : bool) (c : t) : option (t * Out) :=
  if negb (m_bev c) && negb (m_request c) then
    if at_end c then DoResolve c else ConnectResolved bev_created c
  else None.

(** [m_retries > 0 ? m_retries-- : m_retries != 0]: an [int] expression (the
    old value of the counter, or the comparison as 0 or 1) passed where a
    [bool] is expected. *)
Definition OnResolveFailure (error : Z) (c : t) : option (t * Out) :=
  if negb (m_bev c) && empty c && at_end c then
    let c1 := with_request c false in
    let '(c2, v) :=
      if m_retries c1 >? 0
      then (with_retries c1 (m_retries c1 - 1), m_retries c1)
      else (c1, bool_to_int (negb (m_retries c1 =? 0))) in
    Some (c2, OnConnectionFailure RESOLVE_FAILURE error (m_connection c) (int_to_bool v))
  else None.

Definition OnResolveSuccess (bev_created : bool) (response : list addrinfo) (c : t)
    : option (t * Out) :=
  if negb (m_bev c) && empty c && at_end c then
    ConnectResolved bev_created (with_resolved (with_request c false) response 0%nat)
  else None.

Definition OnConnectSuccess (c : t) : option (t * Out) :=
  if m_bev c && negb (empty c) && negb (at_end c) && negb (m_request c) then
    match m_resolved c !! m_iter c with
    | Some a =>
        let resolved :=
          resolved_connection (GetOptions (m_connection c))
            (GetNetConfig (m_connection c)) (ai_addr a) (ai_addrlen a) in
        let c1 := with_resolved c [] 0%nat in
        let c2 := with_retries c1 (nRetries (GetOptions (m_connection c))) in
        Some (with_bev c2 false, OnOutgoingConnected resolved)
    | None => None
    end
  else None.

Definition OnConnectFailure (event : Z) (c : t) : option (t * Out) :=
  if negb (m_request c) && negb (at_end c) && negb (empty c) then
    ConnectionFailure event (with_bev c false)
  else None.

End CDNSConnection.

(** ** Connection objects and listeners held by the handler *)

(** The objects behind [std::unique_ptr<ConnectionBase>]: one constructor for
    each class the handler instantiates. *)
Inductive ConnectionBase :=
| CDirectConnection (conn : CConnection)
| CDNSConn (d : CDNSConnection.t)
| CProxyConn (conn : CConnection)
| CIncomingConn (bind : CConnection) (sock : Z) (address : Z) (socklen : Z).

(** [IsOutgoing] of the DNS variant is in dnsconn.cpp.  Modelled from the
    spec: the bodies for the other three variants are not in the sources;
    Direct and Proxy connections are outbound, an Incoming one is not. *)
Definition IsOutgoing (c : ConnectionBase) : bool :=
  match c with
  | CDNSConn d => CDNSConnection.IsOutgoing d
  | CDirectConnection _ | CProxyConn _ => true
  | CIncomingConn _ _ _ _ => false
  end.

Definition GetBaseConnection (c : ConnectionBase) : CConnection :=
  match c with
  | CDirectConnection conn | CProxyConn conn => conn
  | CDNSConn d => CDNSConnection.m_connection d
  | CIncomingConn bind _ _ _ => bind
  end.

Record CResolveOnly := { resolve_conn : CConnection }.
Record CConnListener := { listen_conn : CConnection; listen_enabled : bool }.

Record CRateLimit := {
  nMaxReadRate : Z; nMaxBurstRead : Z; nMaxWriteRate : Z; nMaxBurstWrite : Z
}.
Definition EV_RATE_LIMIT_MAX : Z := 2 ^ 63 - 1.

Inductive RateGroup := incoming_rate_limit | outgoing_rate_limit.

(** ** What the handler calls *)

(** The embedder's callbacks, [m_interface.X(...)]. *)
Module m_interface.
Inductive callback :=
| OnStartup
| OnShutdown
| OnNeedOutgoingConnections (need : Z)
| OnBindFailure (bind : CConnection)
| OnDnsResponse (conn : CConnection) (resolved : list CConnection)
| OnDnsFailure (conn : CConnection) (retry : bool)
| OnOutgoingConnection (id : ConnID) (conn resolved : CConnection)
| OnIncomingConnection (id : ConnID) (bind resolved : CConnection)
| OnConnectionFailure (conn resolved : CConnection) (retry : bool)
| OnProxyFailure (conn : CConnection) (retry : bool)
| OnReadyForFirstSend (id : ConnID)
| OnReceiveMessages (id : ConnID) (msgs : list (list Z)) (totalsize : Z)
| OnWriteBufferFull (id : ConnID) (bufsize : Z)
| OnWriteBufferReady (id : ConnID) (bufsize : Z)
| OnDisconnected (id : ConnID) (reconnect : bool).
End m_interface.

(** Member functions of the objects in the maps, [it->second->X(...)]. *)
Module obj.
Inductive method :=
| Connect
| Retry (newId : ConnID)
| Resolve
| RetryResolve
| Enable
| Disconnect
| DisconnectWhenFinished
| PauseRecv
| UnpauseRecv
| Write (data : list Z)
| SetRateLimit (limit : CRateLimit)
| SetRateLimitGroup (group : RateGroup).
End obj.

Inductive Action :=
| Callback (c : m_interface.callback)
| ObjectCall (id : ConnID) (m : obj.method)
| NewConnID (id : ConnID)            (* an evaluation of [m_connection_index++] *)
| request_event_active
| shutdown_event_active
| event_base_loopbreak
| rate_limit_group_set_cfg (group : RateGroup) (handle : bool) (cfg : option CRateLimit).

(** ** The handler (handler.cpp) *)

Module CConnectionHandlerInt.

Record t := mk {
  m_connection_index : Z;
  m_outgoing_conn_count : Z;
  m_incoming_conn_count : Z;
  m_outgoing_conn_limit : Z;
  m_shutdown : bool;
  m_connected : gmap Z ConnectionBase;
  m_connecting : gmap Z ConnectionBase;
  m_dns_resolves : gmap Z CResolveOnly;
  m_binds : gmap Z CConnListener;
  m_event_base : bool;
  m_dns_base : bool;
  m_request_event : bool;
  m_shutdown_event : bool;
  m_outgoing_rate_cfg : option CRateLimit;
  m_incoming_rate_cfg : option CRateLimit;
  m_outgoing_rate_limit : bool;
  m_incoming_rate_limit : bool
}.

Definition g_max_simultaneous_connecting : Z := 8.

(** The constructor. *)
Definition new : t :=
  mk 0 0 0 0 false ∅ ∅ ∅ ∅ false false false false None None false false.

Definition set_connection_index v s :=
  mk v (m_outgoing_conn_count s) (m_incoming_conn_count s) (m_outgoing_conn_limit s)
    (m_shutdown s) (m_connected s) (m_connecting s) (m_dns_resolves s) (m_binds s)
    (m_event_base s) (m_dns_base s) (m_request_event s) (m_shutdown_event s)
    (m_outgoing_rate_cfg s) (m_incoming_rate_cfg s)
    (m_outgoing_rate_limit s) (m_incoming_rate_limit s).
Definition set_outgoing_conn_count v s :=
  mk (m_connection_index s) v (m_incoming_conn_count s) (m_outgoing_conn_limit s)
    (m_shutdown s) (m_connected s) (m_connecting s) (m_dns_resolves s) (m_binds s)
    (m_event_base s) (m_dns_base s) (m_request_event s) (m_shutdown_event s)
    (m_outgoing_rate_cfg s) (m_incoming_rate_cfg s)
    (m_outgoing_rate_limit s) (m_incoming_rate_limit s).
Definition set_incoming_conn_count v s :=
  mk (m_connection_index s) (m_outgoing_conn_count s) v (m_outgoing_conn_limit s)
    (m_shutdown s) (m_connected s) (m_connecting s) (m_dns_resolves s) (m_binds s)
    (m_event_base s) (m_dns_base s) (m_request_event s) (m_shutdown_event s)
    (m_outgoing_rate_cfg s) (m_incoming_rate_cfg s)
    (m_outgoing_rate_limit s) (m_incoming_rate_limit s).
Definition set_outgoing_conn_limit v s :=
  mk (m_connection_index s) (m_outgoing_conn_count s) (m_incoming_conn_count s) v
    (m_shutdown s) (m_connected s) (m_connecting s) (m_dns_resolves s) (m_binds s)
    (m_event_base s) (m_dns_base s) (m_request_event s) (m_shutdown_event s)
    (m_outgoing_rate_cfg s) (m_incoming_rate_cfg s)
    (m_outgoing_rate_limit s) (m_incoming_rate_limit s).
Definition set_shutdown v s :=
  mk (m_connection_index s) (m_outgoing_conn_count s) (m_incoming_conn_count s)
    (m_outgoing_conn_limit s) v (m_connected s) (m_connecting s) (m_dns_resolves s)
    (m_binds s) (m_event_base s) (m_dns_base s) (m_request_event s) (m_shutdown_event s)
    (m_outgoing_rate_cfg s) (m_incoming_rate_cfg s)
    (m_outgoing_rate_limit s) (m_incoming_rate_limit s).
Definition set_connected v s :=
  mk (m_connection_index s) (m_outgoing_conn_count s) (m_incoming_conn_count s)
    (m_outgoing_conn_limit s) (m_shutdown s) v (m_connecting s) (m_dns_resolves s)
    (m_binds s) (m_event_base s) (m_dns_base s) (m_request_event s) (m_shutdown_event s)
    (m_outgoing_rate_cfg s) (m_incoming_rate_cfg s)
    (m_outgoing_rate_limit s) (m_incoming_rate_limit s).
Definition set_connecting v s :=
  mk (m_connection_index s) (m_outgoing_conn_count s) (m_incoming_conn_count s)
    (m_outgoing_conn_limit s) (m_shutdown s) (m_connected s) v (m_dns_resolves s)
    (m_binds s) (m_event_base s) (m_dns_base s) (m_request_event s) (m_shutdown_event s)
    (m_outgoing_rate_cfg s) (m_incoming_rate_cfg s)
    (m_outgoing_rate_limit s) (m_incoming_rate_limit s).
Definition set_dns_resolves v s :=
  mk (m_connection_index s) (m_outgoing_conn_count s) (m_incoming_conn_count s)
    (m_outgoing_conn_limit s) (m_shutdown s) (m_connected s) (m_connecting s) v
    (m_binds s) (m_event_base s) (m_dns_base s) (m_request_event s) (m_shutdown_event s)
    (m_outgoing_rate_cfg s) (m_incoming_rate_cfg s)
    (m_outgoing_rate_limit s) (m_incoming_rate_limit s).
Definition set_binds v s :=
  mk (m_connection_index s) (m_outgoing_conn_count s) (m_incoming_conn_count s)
    (m_outgoing_conn_limit s) (m_shutdown s) (m_connected s) (m_connecting s)
    (m_dns_resolves s) v (m_event_base s) (m_dns_base s) (m_request_event s)
    (m_shutdown_event s) (m_outgoing_rate_cfg s) (m_incoming_rate_cfg s)
    (m_outgoing_rate_limit s) (m_incoming_rate_limit s).
Definition set_event_base v s :=
  mk (m_connection_index s) (m_outgoing_conn_count s) (m_incoming_conn_count s)
    (m_outgoing_conn_limit s) (m_shutdown s) (m_connected s) (m_connecting s)
    (m_dns_resolves s) (m_binds s) v (m_dns_base s) (m_request_event s)
    (m_shutdown_event s) (m_outgoing_rate_cfg s) (m_incoming_rate_cfg s)
    (m_outgoing_rate_limit s) (m_incoming_rate_limit s).
(** The handles that [Start] creates and [ShutdownInt] frees together:
    [m_dns_base], [m_request_event], [m_shutdown_event]. *)
Definition set_events (dns req shut : bool) s :=
  mk (m_connection_index s) (m_outgoing_conn_count s) (m_incoming_conn_count s)
    (m_outgoing_conn_limit s) (m_shutdown s) (m_connected s) (m_connecting s)
    (m_dns_resolves s) (m_binds s) (m_event_base s) dns req shut
    (m_outgoing_rate_cfg s) (m_incoming_rate_cfg s)
    (m_outgoing_rate_limit s) (m_incoming_rate_limit s).
Definition set_outgoing_rate (cfg : option CRateLimit) (group : bool) s :=
  mk (m_connection_index s) (m_outgoing_conn_count s) (m_incoming_conn_count s)
    (m_outgoing_conn_limit s) (m_shutdown s) (m_connected s) (m_connecting s)
    (m_dns_resolves s) (m_binds s) (m_event_base s) (m_dns_base s) (m_request_event s)
    (m_shutdown_event s) cfg (m_incoming_rate_cfg s) group (m_incoming_rate_limit s).
Definition set_incoming_rate (cfg : option CRateLimit) (group : bool) s :=
  mk (m_connection_index s) (m_outgoing_conn_count s) (m_incoming_conn_count s)
    (m_outgoing_conn_limit s) (m_shutdown s) (m_connected s) (m_connecting s)
    (m_dns_resolves s) (m_binds s) (m_event_base s) (m_dns_base s) (m_request_event s)
    (m_shutdown_event s) (m_outgoing_rate_cfg s) cfg (m_outgoing_rate_limit s) group.

(** *** The monad: state, failure of an [assert], and the calls made *)

Definition Trace : Type := list (Action * t).
Definition M (A : Type) : Type := t → option (A * t * Trace).

#[export] Instance M_ret : MRet M := λ A x s, Some (x, s, []).
#[export] Instance M_bind : MBind M := λ A B k m s,
  match m s with
  | Some (x, s1, t1) =>
      match k x s1 with
      | Some (y, s2, t2) => Some (y, s2, t1 ++ t2)
      | None => None
      end
  | None => None
  end.

Definition get : M t := λ s, Some (s, s, []).
Definition modify (f : t → t) : M unit := λ s, Some (tt, f s, []).
Definition assert (b : bool) : M unit := λ s, if b then Some (tt, s, []) else None.
Definition emit (a : Action) : M unit := λ s, Some (tt, s, [(a, s)]).
Definition callback (c : m_interface.callback) : M unit := emit (Callback c).
Definition skip : M unit := mret tt.

Fixpoint for_each {A} (body : A → M unit) (l : list A) : M unit :=
  match l with
  | [] => skip
  | x :: l' => body x ;; for_each body l'
  end.

(** *** [std::map] operations *)

(** [emplace_hint]: nothing is inserted when the key is already there. *)
Definition emplace_hint {V} (id : ConnID) (v : V) (m : gmap Z V) : gmap Z V :=
  match m !! id with
  | Some _ => m
  | None => <[id := v]> m
  end.

Definition key_le {V} (a b : Z * V) : Prop := a.1 ≤ b.1.
#[export] Instance key_le_dec {V} (a b : Z * V) : Decision (key_le a b) :=
  Z_le_dec a.1 b.1.

(** The entries in iteration order, from [begin()] to [end()]. *)
Definition entries {V} (m : gmap Z V) : list (Z * V) :=
  merge_sort key_le (map_to_list m).

Definition is_empty {V} (m : gmap Z V) : bool := bool_decide (size m = 0%nat).

(** *** Member functions

    [assert(IsEventThread())] holds throughout: the embedding is of the
    reactor thread alone. *)

Section Members.
Context {W : ConnIDWidth}.

(** [ConnID id = m_connection_index++;].  The counter is declared in the
    same missing header; it is given the width of the ids it yields. *)
Definition next_id : M ConnID := λ s,
  let id := m_connection_index s in
  Some (id, set_connection_index (to_ConnID (id + 1)) s, [(NewConnID id, s)]).

Definition request_active : M unit :=
  s ← get; if m_request_event s then emit request_event_active else skip.

Definition count_down (outgoing : bool) : M unit :=
  if outgoing
  then modify (λ s, set_outgoing_conn_count (m_outgoing_conn_count s - 1) s)
  else modify (λ s, set_incoming_conn_count (m_incoming_conn_count s - 1) s).

Definition Start (outgoing_limit : Z) : M unit :=
  modify (set_shutdown false) ;;
  s ← get;
  assert (m_outgoing_conn_count s =? 0) ;;
  assert (m_incoming_conn_count s =? 0) ;;
  assert (negb (m_event_base s)) ;;
  assert (negb (m_dns_base s)) ;;
  assert (negb (m_request_event s)) ;;
  assert (negb (m_shutdown_event s)) ;;
  modify (set_outgoing_conn_limit outgoing_limit) ;;
  modify (set_event_base true) ;;
  modify (set_events true true true) ;;
  let unlimited :=
    {| nMaxReadRate := EV_RATE_LIMIT_MAX; nMaxBurstRead := EV_RATE_LIMIT_MAX;
       nMaxWriteRate := EV_RATE_LIMIT_MAX; nMaxBurstWrite := EV_RATE_LIMIT_MAX |} in
  modify (set_outgoing_rate (Some unlimited) true) ;;
  modify (set_incoming_rate (Some unlimited) true) ;;
  callback m_interface.OnStartup ;;
  emit request_event_active.

Definition ShutdownInt : M unit :=
  s ← get;
  if m_shutdown s then skip
  else
    let disconnecting := m_connected s in
    modify (set_connected ∅) ;;
    modify (set_binds ∅) ;;
    modify (set_shutdown true) ;;
    for_each (λ e : Z * ConnectionBase,
        count_down (IsOutgoing e.2) ;;
        callback (m_interface.OnDisconnected e.1 false))
      (entries disconnecting) ;;
    s ← get;
    for_each (λ e : Z * ConnectionBase,
        (if IsOutgoing e.2
         then callback (m_interface.OnConnectionFailure
                          (GetBaseConnection e.2) (GetBaseConnection e.2) false)
         else skip) ;;
        modify (λ s, set_connecting (delete e.1 (m_connecting s)) s))
      (entries (m_connecting s)) ;;
    modify (set_dns_resolves ∅) ;;
    modify (set_events false false false) ;;
    modify (set_outgoing_rate None false) ;;
    modify (set_incoming_rate None false) ;;
    s ← get;
    assert (is_empty (m_connecting s)) ;;
    assert (is_empty (m_connected s)) ;;
    assert (is_empty (m_dns_resolves s)) ;;
    assert (m_outgoing_conn_count s =? 0) ;;
    assert (m_incoming_conn_count s =? 0) ;;
    emit event_base_loopbreak.

Definition OnResolveComplete (id : ConnID) (conn : CConnection)
    (resolved : list CConnection) : M unit :=
  callback (m_interface.OnDnsResponse conn resolved) ;;
  modify (λ s, set_dns_resolves (delete id (m_dns_resolves s)) s).

Definition OnResolveFailure (id : ConnID) (conn : CConnection) (error : Z)
    (retry : bool) : M unit :=
  s ← get;
  let retry := retry && negb (m_shutdown s) in
  callback (m_interface.OnDnsFailure conn retry) ;;
  match m_dns_resolves s !! id with
  | None => assert false
  | Some _ =>
      (if retry then emit (ObjectCall id obj.RetryResolve)
       else modify (λ s, set_dns_resolves (delete id (m_dns_resolves s)) s)) ;;
      request_active
  end.

Definition OnWriteBufferReady (id : ConnID) (bufsize : Z) : M unit :=
  callback (m_interface.OnWriteBufferReady id bufsize).

Definition OnDisconnected (id : ConnID) (reconnect : bool) : M unit :=
  s ← get;
  let reconnect := reconnect && negb (m_shutdown s) in
  match m_connected s !! id with
  | None => assert false
  | Some moved =>
      modify (λ s, set_connected (delete id (m_connected s)) s) ;;
      count_down (IsOutgoing moved) ;;
      callback (m_interface.OnDisconnected id reconnect) ;;
      if reconnect then
        newId ← next_id;
        modify (λ s, set_connecting (emplace_hint newId moved (m_connecting s)) s) ;;
        emit (ObjectCall newId (obj.Retry newId))
      else request_active
  end.

Definition OnIncomingConnection (bind : CConnection) (sock address socklen : Z)
    : M unit :=
  id ← next_id;
  modify (λ s, set_connecting
                 (emplace_hint id (CIncomingConn bind sock address socklen)
                    (m_connecting s)) s) ;;
  emit (ObjectCall id obj.Connect).

Definition OnListenFailure (id : ConnID) (bind : CConnection) : M unit :=
  callback (m_interface.OnBindFailure bind) ;;
  modify (λ s, set_binds (delete id (m_binds s)) s).

Definition OnConnectionFailure (id : ConnID) (type : ConnectionFailureType)
    (error : Z) (failed : CConnection) (retry : bool) : M unit :=
  s ← get;
  match m_connecting s !! id with
  | None => assert false
  | Some ptr =>
      modify (λ s, set_connecting (delete id (m_connecting s)) s) ;;
      let retry := retry && negb (m_shutdown s) in
      (if has_flag type PROXY_FAILURE
       then callback (m_interface.OnProxyFailure failed retry)
       else if has_flag type RESOLVE_FAILURE
       then callback (m_interface.OnDnsFailure failed retry)
       else callback (m_interface.OnConnectionFailure failed failed retry)) ;;
      s ← get;
      if retry && negb (m_shutdown s) then
        newId ← next_id;
        modify (λ s, set_connecting (emplace_hint newId ptr (m_connecting s)) s) ;;
        emit (ObjectCall newId (obj.Retry newId))
      else request_active
  end.

(** [accept] is what the embedder's [OnIncomingConnection] returns. *)
Definition OnIncomingConnected (id : ConnID) (conn resolved_conn : CConnection)
    (accept : bool) : M unit :=
  s ← get;
  match m_connecting s !! id with
  | None => assert false
  | Some moved =>
      modify (λ s, set_connecting (delete id (m_connecting s)) s) ;;
      callback (m_interface.OnIncomingConnection id conn resolved_conn) ;;
      if accept then
        emit (ObjectCall id (obj.SetRateLimitGroup incoming_rate_limit)) ;;
        modify (λ s, set_connected (emplace_hint id moved (m_connected s)) s) ;;
        modify (λ s, set_incoming_conn_count (m_incoming_conn_count s + 1) s)
      else skip
  end.

Definition OnOutgoingConnected (id : ConnID) (conn resolved_conn : CConnection)
    : M unit :=
  s ← get;
  match m_connecting s !! id with
  | None => assert false
  | Some moved =>
      emit (ObjectCall id (obj.SetRateLimitGroup outgoing_rate_limit)) ;;
      modify (λ s, set_connecting (delete id (m_connecting s)) s) ;;
      modify (λ s, set_connected (emplace_hint id moved (m_connected s)) s) ;;
      callback (m_interface.OnOutgoingConnection id conn resolved_conn) ;;
      callback (m_interface.OnReadyForFirstSend id) ;;
      modify (λ s, set_outgoing_conn_count (m_outgoing_conn_count s + 1) s)
  end.

(** [keep_open] is what the embedder's [OnReceiveMessages] returns. *)
Definition OnReceiveMessages (id : ConnID) (msgs : list (list Z)) (totalsize : Z)
    (keep_open : bool) : M bool :=
  callback (m_interface.OnReceiveMessages id msgs totalsize) ;;
  mret keep_open.

Definition OnWriteBufferFull (id : ConnID) (bufsize : Z) : M unit :=
  callback (m_interface.OnWriteBufferFull id bufsize).

(** [bound] is what [listener->Bind()] returns. *)
Definition Bind (conn : CConnection) (bound : bool) : M bool :=
  id ← next_id;
  (if bound then
     modify (λ s, set_binds
                    (emplace_hint id {| listen_conn := conn; listen_enabled := false |}
                       (m_binds s)) s) ;;
     emit (ObjectCall id obj.Enable) ;;
     modify (λ s, set_binds
                    (alter (λ l, {| listen_conn := listen_conn l; listen_enabled := true |})
                       id (m_binds s)) s)
   else skip) ;;
  mret bound.

Definition StartConnection (conn : CConnection) : M unit :=
  id ← next_id;
  if IsDNS conn && ResolveMode_eqb (doResolve (GetOptions conn)) RESOLVE_ONLY then
    if proxy_IsSet (GetProxy conn) then
      skip (* TODO *)
    else
      modify (λ s, set_dns_resolves
                     (emplace_hint id {| resolve_conn := conn |} (m_dns_resolves s)) s) ;;
      emit (ObjectCall id obj.Resolve)
  else
    let ptr :=
      if proxy_IsSet (GetProxy conn) then CProxyConn conn
      else if IsDNS conn then CDNSConn (CDNSConnection.new conn)
      else CDirectConnection conn in
    modify (λ s, set_connecting (emplace_hint id ptr (m_connecting s)) s) ;;
    emit (ObjectCall id obj.Connect).

(** [conns] is the list the embedder's [OnNeedOutgoingConnections] returns. *)
Definition RequestOutgoingInt (conns : list CConnection) : M unit :=
  s ← get;
  let need :=
    to_size_t (Z.min g_max_simultaneous_connecting
                 (m_outgoing_conn_limit s - m_outgoing_conn_count s
                  - to_int (Z.of_nat (size (m_connecting s))))) in
  if need >? 0 then
    callback (m_interface.OnNeedOutgoingConnections need) ;;
    let n := Z.min (Z.of_nat (length conns)) need in
    for_each (λ c, if IsSet c then StartConnection c else skip)
      (take (Z.to_nat n) conns)
  else skip.

Definition with_connected (id : ConnID) (m : obj.method) : M bool :=
  s ← get;
  match m_connected s !! id with
  | Some _ => emit (ObjectCall id m) ;; mret true
  | None => mret false
  end.

Definition CloseConnection (id : ConnID) (immediately : bool) : M unit :=
  with_connected id (if immediately then obj.Disconnect else obj.DisconnectWhenFinished) ;;
  skip.

Definition PauseRecv (id : ConnID) : M unit :=
  with_connected id obj.PauseRecv ;; skip.

Definition UnpauseRecv (id : ConnID) : M unit :=
  with_connected id obj.UnpauseRecv ;; skip.

(** [written] is what the connection's [Write] returns. *)
Definition Send (id : ConnID) (data : list Z) (written : bool) : M bool :=
  found ← with_connected id (obj.Write data);
  mret (if found : bool then written else false).

Definition SetRateLimit (id : ConnID) (limit : CRateLimit) : M unit :=
  with_connected id (obj.SetRateLimit limit) ;; skip.

(** [created] is whether [ev_token_bucket_cfg_new] returns a configuration
    for [limit]; nothing checks it.  The library is handed the group as the
    handler has it, [handle] telling whether there is one, and [temp_cfg];
    what it answers is dropped, and the swap puts [temp_cfg] into the
    handler's field whatever it is. *)
Definition SetIncomingRateLimit (limit : CRateLimit) (created : bool) : M unit :=
  let temp_cfg := if created then Some limit else None in
  s ← get;
  emit (rate_limit_group_set_cfg incoming_rate_limit (m_incoming_rate_limit s) temp_cfg) ;;
  modify (λ s, set_incoming_rate temp_cfg (m_incoming_rate_limit s) s).

Definition SetOutgoingRateLimit (limit : CRateLimit) (created : bool) : M unit :=
  let temp_cfg := if created then Some limit else None in
  s ← get;
  emit (rate_limit_group_set_cfg outgoing_rate_limit (m_outgoing_rate_limit s) temp_cfg) ;;
  modify (λ s, set_outgoing_rate temp_cfg (m_outgoing_rate_limit s) s).

Definition Shutdown : M unit := emit shutdown_event_active.

End Members.

End CConnectionHandlerInt.

(** ** The reactor: what drives the handler *)

Import CConnectionHandlerInt.

Section Reactor.
Context {W : ConnIDWidth}.

(** What the base classes report to a DNS connection object. *)
Inductive DNSEvent :=
| DConnect (bev_created : bool)
| DResolveFailure (error : Z)
| DResolveSuccess (bev_created : bool) (response : list CDNSConnection.addrinfo)
| DConnectSuccess
| DConnectFailure (event : Z).

Definition dns_member (e : DNSEvent) : CDNSConnection.t → option (CDNSConnection.t * CDNSConnection.Out) :=
  match e with
  | DConnect b => CDNSConnection.Connect b
  | DResolveFailure error => CDNSConnection.OnResolveFailure error
  | DResolveSuccess b response => CDNSConnection.OnResolveSuccess b response
  | DConnectSuccess => CDNSConnection.OnConnectSuccess
  | DConnectFailure event => CDNSConnection.OnConnectFailure event
  end.

(** Modelled from the spec: [ConnectionBase::OnConnectionFailure] and
    [ConnectionBase::OnOutgoingConnected] are not in the sources; they hand
    their arguments, with the object's id and destination, to the handler's
    member function of the same name. *)
Definition hand_over (id : ConnID) (conn : CConnection) (o : CDNSConnection.Out) : M unit :=
  match o with
  | CDNSConnection.OnConnectionFailure type error resolved retry =>
      OnConnectionFailure id type error resolved retry
  | CDNSConnection.OnOutgoingConnected resolved =>
      OnOutgoingConnected id conn resolved
  | CDNSConnection.Resolve _ _ _ | CDNSConnection.BareConnect _ _ => skip
  end.

(** A member function of the DNS connection stored under [id] in
    [m_connecting] runs on the object in place, then hands over.  The handler
    records its own calls of [Connect] and [Retry] as actions; what they do to
    a DNS connection object is the event [DConnect]. *)
Definition on_dns (id : ConnID) (e : DNSEvent) : M unit :=
  s ← get;
  match m_connecting s !! id with
  | Some (CDNSConn d) =>
      match dns_member e d with
      | Some (d', o) =>
          modify (λ s, set_connecting (<[id := CDNSConn d']> (m_connecting s)) s) ;;
          hand_over id (CDNSConnection.m_connection d) o
      | None => assert false
      end
  | _ => assert false
  end.

(** [OnOutgoingConnected] is reached from the connect success of an outgoing
    variant (dnsconn.cpp, [OnConnectSuccess]) and [OnIncomingConnected] from
    the incoming variant: the object under [id] has the matching direction. *)
Definition direction_is (id : ConnID) (outgoing : bool) : M unit :=
  s ← get;
  match m_connecting s !! id with
  | Some c => assert (eqb (IsOutgoing c) outgoing)
  | None => skip
  end.

(** One entry into the handler: a command of the embedder or a report from a
    listener, a connection object or a timer.  Values returned by the
    embedder or by an object are part of the event. *)
Inductive Event :=
| EvStart (outgoing_limit : Z)
| EvShutdown
| EvShutdownInt
| EvRequestOutgoingInt (conns : list CConnection)
| EvOnResolveComplete (id : ConnID) (conn : CConnection) (resolved : list CConnection)
| EvOnResolveFailure (id : ConnID) (conn : CConnection) (error : Z) (retry : bool)
| EvOnWriteBufferReady (id : ConnID) (bufsize : Z)
| EvOnWriteBufferFull (id : ConnID) (bufsize : Z)
| EvOnReceiveMessages (id : ConnID) (msgs : list (list Z)) (totalsize : Z) (keep_open : bool)
| EvOnDisconnected (id : ConnID) (reconnect : bool)
| EvOnIncomingConnection (bind : CConnection) (sock address socklen : Z)
| EvOnListenFailure (id : ConnID) (bind : CConnection)
| EvOnConnectionFailure (id : ConnID) (type : ConnectionFailureType) (error : Z)
    (failed : CConnection) (retry : bool)
| EvOnIncomingConnected (id : ConnID) (conn resolved_conn : CConnection) (accept : bool)
| EvOnOutgoingConnected (id : ConnID) (conn resolved_conn : CConnection)
| EvBind (conn : CConnection) (bound : bool)
| EvStartConnection (conn : CConnection)
| EvCloseConnection (id : ConnID) (immediately : bool)
| EvPauseRecv (id : ConnID)
| EvUnpauseRecv (id : ConnID)
| EvSend (id : ConnID) (data : list Z) (written : bool)
| EvSetRateLimit (id : ConnID) (limit : CRateLimit)
| EvSetIncomingRateLimit (limit : CRateLimit) (created : bool)
| EvSetOutgoingRateLimit (limit : CRateLimit) (created : bool)
| EvDNS (id : ConnID) (e : DNSEvent).

Definition dispatch (e : Event) : M unit :=
  match e with
  | EvStart limit => Start limit
  | EvShutdown => Shutdown
  | EvShutdownInt => ShutdownInt
  | EvRequestOutgoingInt conns => RequestOutgoingInt conns
  | EvOnResolveComplete id conn resolved => OnResolveComplete id conn resolved
  | EvOnResolveFailure id conn error retry => OnResolveFailure id conn error retry
  | EvOnWriteBufferReady id bufsize => OnWriteBufferReady id bufsize
  | EvOnWriteBufferFull id bufsize => OnWriteBufferFull id bufsize
  | EvOnReceiveMessages id msgs totalsize keep =>
      OnReceiveMessages id msgs totalsize keep ;; skip
  | EvOnDisconnected id reconnect => OnDisconnected id reconnect
  | EvOnIncomingConnection bind sock address socklen =>
      OnIncomingConnection bind sock address socklen
  | EvOnListenFailure id bind => OnListenFailure id bind
  | EvOnConnectionFailure id type error failed retry =>
      OnConnectionFailure id type error failed retry
  | EvOnIncomingConnected id conn resolved accept =>
      direction_is id false ;; OnIncomingConnected id conn resolved accept
  | EvOnOutgoingConnected id conn resolved =>
      direction_is id true ;; OnOutgoingConnected id conn resolved
  | EvBind conn bound => Bind conn bound ;; skip
  | EvStartConnection conn => StartConnection conn
  | EvCloseConnection id immediately => CloseConnection id immediately
  | EvPauseRecv id => PauseRecv id
  | EvUnpauseRecv id => UnpauseRecv id
  | EvSend id data written => Send id data written ;; skip
  | EvSetRateLimit id limit => SetRateLimit id limit
  | EvSetIncomingRateLimit limit created => SetIncomingRateLimit limit created
  | EvSetOutgoingRateLimit limit created => SetOutgoingRateLimit limit created
  | EvDNS id e => on_dns id e
  end.

(** [event_base_loop]: the pending events are dispatched in turn until
    [event_base_loopbreak], which [ShutdownInt] calls once [m_shutdown] is
    set. *)
Fixpoint event_base_loop (pending : list Event) : M unit :=
  match pending with
  | [] => skip
  | e :: rest =>
      dispatch e ;;
      s ← get;
      if m_shutdown s then skip else event_base_loop rest
  end.

(** [CConnectionHandlerInt::PumpEvents]; [pending] is what the reactor has
    ready in this iteration. *)
Definition PumpEvents (block : bool) (pending : list Event) : M bool :=
  s ← get;
  if negb (m_event_base s) then mret false
  else if m_shutdown s then mret false
  else
    event_base_loop pending ;;
    s ← get;
    if m_shutdown s then
      modify (set_event_base false) ;;
      callback m_interface.OnShutdown ;;
      mret false
    else mret true.

Inductive Command :=
| Do (e : Event)
| Pump (block : bool) (pending : list Event).

Definition exec (c : Command) : M unit :=
  match c with
  | Do e => dispatch e
  | Pump block pending => PumpEvents block pending ;; skip
  end.

Definition run (cs : list Command) : M unit := for_each exec cs.

(** ** Reading a trace *)

Definition actions (t : Trace) : list Action := t.*1.

Definition allocated (t : Trace) : list ConnID :=
  omap (λ a, match a with NewConnID id => Some id | _ => None end) (actions t).

Definition requested (t : Trace) : list Z :=
  omap (λ a, match a with
             | Callback (m_interface.OnNeedOutgoingConnections n) => Some n
             | _ => None
             end) (actions t).

(** ** The counts against the map *)

Definition count_if (p : ConnectionBase → bool) (m : gmap Z ConnectionBase) : Z :=
  Z.of_nat (length (filter (λ e : Z * ConnectionBase, p e.2 = true) (map_to_list m))).

Definition outgoing_entries (m : gmap Z ConnectionBase) : Z := count_if IsOutgoing m.
Definition incoming_entries (m : gmap Z ConnectionBase) : Z :=
  count_if (λ c, negb (IsOutgoing c)) m.

Definition counts_match (s : t) : Prop :=
  m_outgoing_conn_count s = outgoing_entries (m_connected s) ∧
  m_incoming_conn_count s = incoming_entries (m_connected s).

Definition all_empty (s : t) : Prop :=
  m_connected s = ∅ ∧ m_connecting s = ∅ ∧ m_binds s = ∅ ∧ m_dns_resolves s = ∅ ∧
  m_outgoing_conn_count s = 0 ∧ m_incoming_conn_count s = 0.

(** ** Sample destinations *)

Definition sample_options (mode : ResolveMode) (retries : Z) : CConnectionOptions :=
  {| doResolve := mode; resolveFamily := ANY; nInitialTimeout := 5; nRetries := retries |}.

Definition direct_peer : CConnection :=
  {| IsSet := true; IsDNS := false; GetHost := "203.0.113.7"; GetPort := 8333;
     GetOptions := sample_options RESOLVE 0; GetProxy := {| proxy_IsSet := false |};
     GetNetConfig := 0; GetSockAddr := Some (1, 16) |}.

Definition dns_peer (mode : ResolveMode) (retries : Z) (proxy : bool) : CConnection :=
  {| IsSet := true; IsDNS := true; GetHost := "example.invalid"; GetPort := 8333;
     GetOptions := sample_options mode retries; GetProxy := {| proxy_IsSet := proxy |};
     GetNetConfig := 0; GetSockAddr := None |}.

Definition listen_any : CConnection :=
  {| IsSet := true; IsDNS := false; GetHost := "0.0.0.0"; GetPort := 8333;
     GetOptions := sample_options NO_RESOLVE 0; GetProxy := {| proxy_IsSet := false |};
     GetNetConfig := 0; GetSockAddr := Some (0, 16) |}.

(** ** The claims as the specification words them *)

(** "need = min(8, outgoing_conn_limit − outgoing_conn_count − |outgoing ∈
    connecting|)", and nothing requested when that is not positive. *)
Definition spec_need (s : t) : Z :=
  Z.min 8 (m_outgoing_conn_limit s - m_outgoing_conn_count s
           - outgoing_entries (m_connecting s)).

Definition refill_as_specified (conns : list CConnection) (s : t) : Prop :=
  ∃ s' tr, RequestOutgoingInt conns s = Some (tt, s', tr) ∧
           requested tr = if 0 <? spec_need s then [spec_need s] else [].

(** "Proxy if proxy set; else ResolveOnly if DNS + RESOLVE_ONLY; else DNS if
    host needs resolution; else Direct". *)
Inductive Variant := Direct | DNS | Proxy | ResolveOnly.

Definition spec_variant (conn : CConnection) : Variant :=
  if proxy_IsSet (GetProxy conn) then Proxy
  else if IsDNS conn && ResolveMode_eqb (doResolve (GetOptions conn)) RESOLVE_ONLY
  then ResolveOnly
  else if IsDNS conn then DNS
  else Direct.

Definition variant_of (c : ConnectionBase) : option Variant :=
  match c with
  | CDirectConnection _ => Some Direct
  | CDNSConn _ => Some DNS
  | CProxyConn _ => Some Proxy
  | CIncomingConn _ _ _ _ => None
  end.

(** The object of each variant as its constructor leaves it. *)
Definition construct (v : Variant) (conn : CConnection) : ConnectionBase :=
  match v with
  | Proxy => CProxyConn conn
  | DNS => CDNSConn (CDNSConnection.new conn)
  | Direct | ResolveOnly => CDirectConnection conn   (* ResolveOnly: not used *)
  end.

(** "inserts into connecting or dns_resolves; calls the variant's connect()":
    after the call the fresh id holds an object of the variant, and the call
    on it is in the trace. *)
Definition started_as (v : Variant) (id : ConnID) (s' : t) (tr : Trace) : Prop :=
  match v with
  | ResolveOnly =>
      is_Some (m_dns_resolves s' !! id) ∧ ObjectCall id obj.Resolve ∈ actions tr
  | _ =>
      (∃ c, m_connecting s' !! id = Some c ∧ variant_of c = Some v) ∧
      ObjectCall id obj.Connect ∈ actions tr
  end.

Definition start_as_specified (conn : CConnection) (s : t) : Prop :=
  ∃ s' tr, StartConnection conn s = Some (tt, s', tr) ∧
           started_as (spec_variant conn) (m_connection_index s) s' tr.

(** "will_retry = (retries_remaining > 0 ∨ retries_remaining == -1) ∧
    ¬shutdown". *)
Definition spec_will_retry (retries_remaining : Z) (shutdown : bool) : bool :=
  ((retries_remaining >? 0) || (retries_remaining =? -1)) && negb shutdown.

(** The flag of the first [OnDnsFailure] callback in a trace. *)
Definition dns_failure_flag (tr : Trace) : option bool :=
  head (omap (λ a, match a with
                   | Callback (m_interface.OnDnsFailure _ retry) => Some retry
                   | _ => None
                   end) (actions tr)).

(** The DNS connection under [id] is looked up in [m_connecting]; its
    resolution then fails. *)
Definition resolve_failure_as_specified (id : ConnID) (error : Z) (s : t) : Prop :=
  ∃ d s' tr,
    m_connecting s !! id = Some (CDNSConn d) ∧
    on_dns id (DResolveFailure error) s = Some (tt, s', tr) ∧
    dns_failure_flag tr
    = Some (spec_will_retry (CDNSConnection.m_retries d) (m_shutdown s)).

(** A handler with one DNS connection, under id 0, whose lookup is under
    way. *)
Definition looking_up (retries : Z) : list Command :=
  [Do (EvStart 8); Do (EvStartConnection (dns_peer RESOLVE retries false));
   Do (EvDNS 0 (DConnect true))].

(** ** Invariants of the handler state *)

(** The ids read from the counter starting at [i], ending with the counter
    at [j]. *)
Fixpoint ids_from (i : Z) (l : list Z) (j : Z) : Prop :=
  match l with
  | [] => j = i
  | x :: l' => x = i ∧ ids_from (to_ConnID (i + 1)) l' j
  end.

(** What must come immediately before an action. *)
Definition needs (a : Action) : option (Action → Prop) :=
  match a with
  | Callback (m_interface.OnReadyForFirstSend id) =>
      Some (λ p, ∃ conn resolved,
                 p = Callback (m_interface.OnOutgoingConnection id conn resolved))
  | ObjectCall id (obj.Retry newId) => Some (λ p, p = NewConnID newId ∧ id = newId)
  | ObjectCall id obj.RetryResolve =>
      Some (λ p, ∃ conn, p = Callback (m_interface.OnDnsFailure conn true))
  | _ => None
  end.

Fixpoint chained (prev : option Action) (l : list Action) : Prop :=
  match l with
  | [] => True
  | a :: l' =>
      match needs a with
      | Some P => ∃ p, prev = Some p ∧ P p
      | None => True
      end ∧ chained (Some a) l'
  end.

(** Actions that neither read the counter nor belong to a chain. *)
Definition quiet_action (a : Action) : bool :=
  match a with
  | NewConnID _
  | Callback (m_interface.OnReadyForFirstSend _)
  | Callback (m_interface.OnOutgoingConnection _ _ _)
  | ObjectCall _ (obj.Retry _)
  | ObjectCall _ obj.RetryResolve => false
  | _ => true
  end.
Definition quiet (tr : Trace) : Prop := forallb quiet_action (actions tr) = true.

Definition announced (id : ConnID) (tr : Trace) : Prop :=
  ∃ conn resolved, Callback (m_interface.OnOutgoingConnection id conn resolved) ∈ actions tr.

(** Every outgoing entry of [m_connected] has been announced. *)
Definition announced_all (tr : Trace) (connected : gmap Z ConnectionBase) : Prop :=
  ∀ id c, connected !! id = Some c → IsOutgoing c = true → announced id tr.

(** The counts agree with [m_connected], the ids in use are below the
    counter, and no id is in both [m_connecting] and [m_connected]. *)
Definition consistent (index outgoing incoming : Z)
    (connected connecting : gmap Z ConnectionBase) : Prop :=
  0 ≤ index ∧
  outgoing = outgoing_entries connected ∧
  incoming = incoming_entries connected ∧
  (∀ id, is_Some (connecting !! id) → id < index) ∧
  (∀ id, is_Some (connected !! id) → id < index) ∧
  (∀ id, is_Some (connecting !! id) → connected !! id = None).

Definition Inv (s : t) : Prop :=
  consistent (m_connection_index s) (m_outgoing_conn_count s) (m_incoming_conn_count s)
    (m_connected s) (m_connecting s).

(** The parts of the state that [Inv] reads are unchanged. *)
Definition same_core (s s' : t) : Prop :=
  m_connection_index s' = m_connection_index s ∧
  m_outgoing_conn_count s' = m_outgoing_conn_count s ∧
  m_incoming_conn_count s' = m_incoming_conn_count s ∧
  m_connected s' = m_connected s ∧
  m_connecting s' = m_connecting s.

Definition frame {A} (m : M A) : Prop :=
  ∀ s r s' tr, m s = Some (r, s', tr) → same_core s s' ∧ quiet tr.

Definition sound {A} (m : M A) : Prop :=
  ∀ s r s' tr, m s = Some (r, s', tr) →
    ids_from (m_connection_index s) (allocated tr) (m_connection_index s') ∧
    chained None (actions tr) ∧
    (∀ t0, announced_all t0 (m_connected s) → announced_all (t0 ++ tr) (m_connected s')) ∧
    (Inv s →
     m_connection_index s + Z.of_nat (length (allocated tr)) < ConnID_modulus →
     Inv s').

(** [m_shutdown] is not set by the computation. *)
Definition keeps_shutdown {A} (m : M A) : Prop :=
  ∀ s r s' tr, m s = Some (r, s', tr) → m_shutdown s' = true → m_shutdown s = true.

(** ** The shutdown sequence, in closed form *)

Definition outgoing_in (l : list (Z * ConnectionBase)) : Z :=
  Z.of_nat (length (filter (λ e : Z * ConnectionBase, IsOutgoing e.2 = true) l)).
Definition incoming_in (l : list (Z * ConnectionBase)) : Z :=
  Z.of_nat (length (filter (λ e : Z * ConnectionBase, negb (IsOutgoing e.2) = true) l)).


(** The state [ShutdownInt] leaves when its assertions hold. *)
Definition after_shutdown (s : t) : t :=
  set_incoming_rate None false
    (set_outgoing_rate None false
       (set_events false false false
          (set_dns_resolves ∅
             (set_connecting ∅
                (set_incoming_conn_count
                   (m_incoming_conn_count s - incoming_entries (m_connected s))
                   (set_outgoing_conn_count
                      (m_outgoing_conn_count s - outgoing_entries (m_connected s))
                      (set_shutdown true (set_binds ∅ (set_connected ∅ s))))))))).


(** ** Further readings of the claims *)




(** A destination for which [StartConnection] takes its unfinished branch:
    a DNS name, RESOLVE_ONLY, through a proxy. *)
Definition unfinished_peer : CConnection := dns_peer RESOLVE_ONLY 0 true.

(** A handler with one accepted socket still in [m_connecting]. *)
Definition accepting : list Command :=
  [Do (EvStart 8); Do (EvOnIncomingConnection listen_any 3 4 16)].

(** One outgoing connection started and established. *)
Definition one_outgoing : list Command :=
  [Do (EvStart 8); Do (EvStartConnection direct_peer);
   Do (EvOnOutgoingConnected 0 direct_peer direct_peer)].

(** The same, then a disconnect with reconnect, which retries under id 1. *)
Definition one_retry : list Command :=
  one_outgoing ++ [Do (EvOnDisconnected 0 true)].






Definition sample_resolved : CDNSConnection.t :=
  {| CDNSConnection.m_connection := dns_peer RESOLVE 2 false;
     CDNSConnection.m_retries := 2;
     CDNSConnection.m_resolved :=
       [ {| CDNSConnection.ai_addr := 1; CDNSConnection.ai_addrlen := 16 |};
         {| CDNSConnection.ai_addr := 2; CDNSConnection.ai_addrlen := 16 |} ];
     CDNSConnection.m_iter := 1%nat;
     CDNSConnection.m_request := false;
     CDNSConnection.m_bev := true |}.

Definition sample_limit : CRateLimit :=
  {| nMaxReadRate := 1024; nMaxBurstRead := 2048; nMaxWriteRate := 1024;
     nMaxBurstWrite := 2048 |}.

(** Two outgoing connections established. *)
Definition two_outgoing : list Command :=
  [Do (EvStart 8); Do (EvStartConnection direct_peer); Do (EvStartConnection direct_peer);
   Do (EvOnOutgoingConnected 0 direct_peer direct_peer);
   Do (EvOnOutgoingConnected 1 direct_peer direct_peer)].


(** The flag of the first [OnConnectionFailure] callback in a trace. *)
Definition connection_failure_flag (tr : Trace) : option bool :=
  head (omap (λ a, match a with
                   | Callback (m_interface.OnConnectionFailure _ _ retry) => Some retry
                   | _ => None
                   end) (actions tr)).

(** * Further definitions *)

(** ** Sequences of reports to a DNS connection *)

(** The object holds neither a socket nor addresses: it is as the constructor
    or [Cancel] leaves it, or waits for the answer to a lookup. *)
Definition idle (c : CDNSConnection.t) : Prop :=
  CDNSConnection.m_bev c = false ∧ CDNSConnection.m_resolved c = [] ∧
  CDNSConnection.m_iter c = 0%nat.

(** [k] lookups in a row that fail: [Connect] starts each one and
    [OnResolveFailure] ends it.  The result holds the flags handed to
    [OnConnectionFailure], oldest first. *)
Fixpoint failed_lookups (k : nat) (error : Z) (c : CDNSConnection.t)
    : option (CDNSConnection.t * list bool) :=
  match k with
  | O => Some (c, [])
  | S k' =>
      match CDNSConnection.Connect true c with
      | Some (c1, CDNSConnection.Resolve _ _ _) =>
          match CDNSConnection.OnResolveFailure error c1 with
          | Some (c2, CDNSConnection.OnConnectionFailure _ _ _ retry) =>
              match failed_lookups k' error c2 with
              | Some (c3, flags) => Some (c3, retry :: flags)
              | None => None
              end
          | _ => None
          end
      | _ => None
      end
  end.

(** The connect attempt number [j], counted from 0, after a lookup that
    answered [response]: every earlier attempt ended in [OnConnectFailure]
    and was followed by [Connect]. *)
Fixpoint nth_attempt (response : list CDNSConnection.addrinfo) (event : Z) (j : nat)
    (c : CDNSConnection.t) : option (CDNSConnection.t * CDNSConnection.Out) :=
  match j with
  | O => CDNSConnection.OnResolveSuccess true response c
  | S j' =>
      match nth_attempt response event j' c with
      | Some (c1, _) =>
          match CDNSConnection.OnConnectFailure event c1 with
          | Some (c2, _) => CDNSConnection.Connect true c2
          | None => None
          end
      | None => None
      end
  end.

(** The member functions of a DNS connection that are entered from outside:
    the reports of the base classes, and [Cancel]. *)
Inductive DNSStep :=
| Report (e : DNSEvent)
| DCancel.

Fixpoint dns_run (steps : list DNSStep) (c : CDNSConnection.t) : option CDNSConnection.t :=
  match steps with
  | [] => Some c
  | Report e :: rest =>
      match dns_member e c with
      | Some (c', _) => dns_run rest c'
      | None => None
      end
  | DCancel :: rest => dns_run rest (CDNSConnection.Cancel c)
  end.

(** The cursor is within the address list, a lookup is under way only while
    there is neither a socket nor an address, and a socket exists only while
    the cursor is at an address. *)
Definition well_formed (c : CDNSConnection.t) : Prop :=
  (CDNSConnection.m_iter c ≤ length (CDNSConnection.m_resolved c))%nat ∧
  (CDNSConnection.m_request c = true →
   CDNSConnection.m_bev c = false ∧ CDNSConnection.m_resolved c = []) ∧
  (CDNSConnection.m_bev c = true →
   (CDNSConnection.m_iter c < length (CDNSConnection.m_resolved c))%nat).

Definition sample_addresses : list CDNSConnection.addrinfo :=
  [ {| CDNSConnection.ai_addr := 1; CDNSConnection.ai_addrlen := 16 |};
    {| CDNSConnection.ai_addr := 2; CDNSConnection.ai_addrlen := 16 |};
    {| CDNSConnection.ai_addr := 3; CDNSConnection.ai_addrlen := 28 |} ].

(** The retry counter is within the budget [nRetries] of the destination: for
    a negative budget it stays at the budget, otherwise between 0 and the
    budget. *)
Definition within_budget (conn : CConnection) (c : CDNSConnection.t) : Prop :=
  CDNSConnection.m_connection c = conn ∧
  let n := nRetries (GetOptions conn) in
  if n <? 0 then CDNSConnection.m_retries c = n
  else 0 ≤ CDNSConnection.m_retries c ≤ n.

(** ** Reading more of a trace *)

Definition callbacks (tr : Trace) : list m_interface.callback :=
  omap (λ a, match a with Callback c => Some c | _ => None end) (actions tr).

(** The flag "will retry" (for [OnDisconnected]: "reconnect") of a callback
    that has one. *)
Definition retry_flag (c : m_interface.callback) : option bool :=
  match c with
  | m_interface.OnDnsFailure _ retry
  | m_interface.OnConnectionFailure _ _ retry
  | m_interface.OnProxyFailure _ retry => Some retry
  | m_interface.OnDisconnected _ reconnect => Some reconnect
  | _ => None
  end.

(** The callback [OnConnectionFailure] chooses by the kind of failure:
    [type & PROXY] is tested first, then [type & RESOLVE]. *)
Definition failure_callback (type : ConnectionFailureType) (failed : CConnection)
    (retry : bool) : m_interface.callback :=
  if has_flag type PROXY_FAILURE then m_interface.OnProxyFailure failed retry
  else if has_flag type RESOLVE_FAILURE then m_interface.OnDnsFailure failed retry
  else m_interface.OnConnectionFailure failed failed retry.

(** A handler that has been started, with one listener bound under id 0. *)
Definition listening : list Command := [Do (EvStart 8); Do (EvBind listen_any true)].

(** One lookup-only request started, under id 0. *)
Definition resolving_only : list Command :=
  [Do (EvStart 8); Do (EvStartConnection (dns_peer RESOLVE_ONLY 1 false))].

(** Nothing is left of a run: the maps are empty, the counts are 0, and the
    event base and the handles that [Start] creates are freed. *)
Definition stopped (s : t) : Prop :=
  all_empty s ∧ m_event_base s = false ∧ m_dns_base s = false ∧
  m_request_event s = false ∧ m_shutdown_event s = false.

(** What [ShutdownInt] reports for the entries of [m_connected] and of
    [m_connecting], in iteration order. *)
Definition shutdown_reports (connected connecting : gmap Z ConnectionBase) : list Action :=
  ((λ e : Z * ConnectionBase, Callback (m_interface.OnDisconnected e.1 false))
     <$> entries connected)
  ++ ((λ e : Z * ConnectionBase,
         Callback (m_interface.OnConnectionFailure
                     (GetBaseConnection e.2) (GetBaseConnection e.2) false))
        <$> filter (λ e : Z * ConnectionBase, IsOutgoing e.2 = true) (entries connecting)).

(** A handler with two connections established and a third being set up. *)
Definition three_peers : list Command :=
  two_outgoing ++ [Do (EvStartConnection (dns_peer RESOLVE 1 false))].


(** ** Properties of every call in a trace *)

(** Every call the computation makes satisfies [P], judged with the handler
    state at the moment of the call. *)
Definition each {A} (P : Action * t → Prop) (m : M A) : Prop :=
  ∀ s r s' tr, m s = Some (r, s', tr) → Forall P tr.

(** What the maps hold for the id a callback is about, at the moment of the
    callback: a disconnected id is no longer in [m_connected]; an outgoing
    connection that is announced or ready is in [m_connected] and no longer
    in [m_connecting]; an incoming connection offered to the embedder is no
    longer in [m_connecting]. *)
Definition callback_sees (x : Action * t) : Prop :=
  match x.1 with
  | Callback (m_interface.OnDisconnected id _) => m_connected x.2 !! id = None
  | Callback (m_interface.OnOutgoingConnection id _ _)
  | Callback (m_interface.OnReadyForFirstSend id) =>
      is_Some (m_connected x.2 !! id) ∧ m_connecting x.2 !! id = None
  | Callback (m_interface.OnIncomingConnection id _ _) => m_connecting x.2 !! id = None
  | _ => True
  end.

(** A retry is announced to the embedder, and asked of an object, only while
    [m_shutdown] is clear. *)
Definition retry_while_running (x : Action * t) : Prop :=
  match x.1 with
  | Callback c => retry_flag c = Some true → m_shutdown x.2 = false
  | ObjectCall _ (obj.Retry _) | ObjectCall _ obj.RetryResolve => m_shutdown x.2 = false
  | _ => True
  end.

(** A member function of an object is called while the object is in the map
    it belongs to: a connection being set up in [m_connecting], a lookup-only
    request in [m_dns_resolves], a listener in [m_binds], an established
    connection in [m_connected].  (The rate limit group of an accepted
    incoming connection is set while the object is held in a local
    variable, between the two maps.) *)
Definition call_on_live (x : Action * t) : Prop :=
  match x.1 with
  | ObjectCall id obj.Connect | ObjectCall id (obj.Retry _)
  | ObjectCall id (obj.SetRateLimitGroup outgoing_rate_limit) =>
      is_Some (m_connecting x.2 !! id)
  | ObjectCall id obj.Resolve | ObjectCall id obj.RetryResolve =>
      is_Some (m_dns_resolves x.2 !! id)
  | ObjectCall id obj.Enable => is_Some (m_binds x.2 !! id)
  | ObjectCall id (obj.SetRateLimitGroup incoming_rate_limit) => True
  | ObjectCall id _ => is_Some (m_connected x.2 !! id)
  | _ => True
  end.

Definition observed (x : Action * t) : Prop :=
  callback_sees x ∧ retry_while_running x ∧ call_on_live x.

(** A run that ends in a shutdown while one connection waits for its retry
    and another is established. *)
Definition busy_then_shutdown : list Command :=
  two_outgoing ++ [Do (EvOnDisconnected 0 true); Do (EvShutdown); Pump true [EvShutdownInt]].

(** ** One id, one entity *)

(** Every id in use is at least 0 and below the counter; no id names both a listener and a
    lookup-only request, and none of these names a connection. *)
Definition apart (s : t) : Prop :=
  0 ≤ m_connection_index s ∧
  (∀ id, id ∈ dom (m_binds s) ∪ dom (m_dns_resolves s)
            ∪ dom (m_connecting s) ∪ dom (m_connected s) →
         0 ≤ id < m_connection_index s) ∧
  dom (m_binds s) ## dom (m_dns_resolves s) ∧
  dom (m_binds s) ∪ dom (m_dns_resolves s) ## dom (m_connecting s) ∪ dom (m_connected s).

Definition keeps_apart {A} (m : M A) : Prop :=
  ∀ s r s' tr, m s = Some (r, s', tr) →
    m_connection_index s + Z.of_nat (length (allocated tr)) < ConnID_modulus →
    apart s → apart s'.

Definition held {V} (m : gmap Z V) (id : ConnID) : nat :=
  match m !! id with Some _ => 1 | None => 0 end.

(** In how many of the four maps [id] is a key. *)
Definition holders (s : t) (id : ConnID) : nat :=
  held (m_binds s) id + held (m_dns_resolves s) id
  + held (m_connecting s) id + held (m_connected s) id.

(** A listener, a lookup-only request, a connection being set up and an
    established one. *)
Definition one_of_each : list Command :=
  [Do (EvStart 8); Do (EvBind listen_any true);
   Do (EvStartConnection (dns_peer RESOLVE_ONLY 1 false));
   Do (EvStartConnection direct_peer); Do (EvStartConnection direct_peer);
   Do (EvOnOutgoingConnected 3 direct_peer direct_peer)].

(** ** Settings: the outgoing limit and the two rate limits *)

Definition rate_cfg (group : RateGroup) (s : t) : option CRateLimit :=
  match group with
  | incoming_rate_limit => m_incoming_rate_cfg s
  | outgoing_rate_limit => m_outgoing_rate_cfg s
  end.

(** Whether the handler has the rate limit group. *)
Definition rate_group (group : RateGroup) (s : t) : bool :=
  match group with
  | incoming_rate_limit => m_incoming_rate_limit s
  | outgoing_rate_limit => m_outgoing_rate_limit s
  end.

Definition rate_setting (group : RateGroup) (s : t) : bool * option CRateLimit :=
  (rate_group group s, rate_cfg group s).


(** The entries into the handler that assign the rate limit of a group:
    [Start] and [ShutdownInt] assign both, each setter its own. *)
Definition sets_rate (group : RateGroup) (e : Event) : bool :=
  match e, group with
  | EvStart _, _ | EvShutdownInt, _ => true
  | EvSetIncomingRateLimit _ _, incoming_rate_limit => true
  | EvSetOutgoingRateLimit _ _, outgoing_rate_limit => true
  | _, _ => false
  end.

(** [Start] alone assigns [m_outgoing_conn_limit]. *)
Definition sets_limit (e : Event) : bool :=
  match e with EvStart _ => true | _ => false end.

Definition events_of (c : Command) : list Event :=
  match c with
  | Do e => [e]
  | Pump _ pending => pending
  end.

Definition settings (s : t) :
    Z * (bool * option CRateLimit) * (bool * option CRateLimit) :=
  (m_outgoing_conn_limit s, rate_setting incoming_rate_limit s,
   rate_setting outgoing_rate_limit s).

(** The computation leaves [f] of the state as it was. *)
Definition unchanged {X A} (f : t → X) (m : M A) : Prop :=
  ∀ s r s' tr, m s = Some (r, s', tr) → f s' = f s.

End Reactor.

(** * Properties *)

Ltac unfold_m :=
  unfold request_active, count_down, next_id, callback, skip in *;
  unfold mbind, M_bind, mret, M_ret, get, modify, assert, emit in *.

Ltac red_state :=
  cbn [m_connection_index m_outgoing_conn_count m_incoming_conn_count
       m_outgoing_conn_limit m_shutdown m_connected m_connecting m_dns_resolves
       m_binds m_event_base m_dns_base m_request_event m_shutdown_event
       m_outgoing_rate_cfg m_incoming_rate_cfg m_outgoing_rate_limit
       m_incoming_rate_limit
       set_connection_index set_outgoing_conn_count set_incoming_conn_count
       set_outgoing_conn_limit set_shutdown set_connected set_connecting
       set_dns_resolves set_binds set_event_base set_events set_outgoing_rate
       set_incoming_rate negb andb orb fst snd app] in *.

Ltac open_state :=
  cbv [m_connection_index m_outgoing_conn_count m_incoming_conn_count
       m_outgoing_conn_limit m_shutdown m_connected m_connecting m_dns_resolves
       m_binds m_event_base m_dns_base m_request_event m_shutdown_event
       m_outgoing_rate_cfg m_incoming_rate_cfg m_outgoing_rate_limit
       m_incoming_rate_limit
       set_connection_index set_outgoing_conn_count set_incoming_conn_count
       set_outgoing_conn_limit set_shutdown set_connected set_connecting
       set_dns_resolves set_binds set_event_base set_events set_outgoing_rate
       set_incoming_rate].

Section Properties.
Context {W : ConnIDWidth}.


(** ** Sequencing *)

Lemma bind_Some {A B} (m : M A) (k : A → M B) s r s' tr :
  (m ≫= k) s = Some (r, s', tr) ↔
  ∃ x s1 t1 t2, m s = Some (x, s1, t1) ∧ k x s1 = Some (r, s', t2) ∧ tr = t1 ++ t2.
Proof.
  unfold mbind, M_bind. split.
  - destruct (m s) as [[[x s1] t1]|] eqn:Hm; [|done].
    destruct (k x s1) as [[[y s2] t2]|] eqn:Hk; [|done].
    intros H. simplify_eq. by eexists _, _, _, _.
  - intros (x & s1 & t1 & t2 & -> & -> & ->). done.
Qed.

Lemma bind_get {B} (k : t → M B) s : (get ≫= k) s = k s s.
Proof. unfold mbind, M_bind, get. by destruct (k s s) as [[[y s2] t2]|]. Qed.

Lemma bind_modify {B} (f : t → t) (k : unit → M B) s : (modify f ≫= k) s = k tt (f s).
Proof. unfold mbind, M_bind, modify. by destruct (k tt (f s)) as [[[y s2] t2]|]. Qed.

Lemma bind_eq {A B} (m : M A) (k : A → M B) s x s1 t1 :
  m s = Some (x, s1, t1) →
  (m ≫= k) s = match k x s1 with
               | Some (y, s2, t2) => Some (y, s2, t1 ++ t2)
               | None => None
               end.
Proof. unfold mbind, M_bind. by intros ->. Qed.

Lemma actions_app t1 t2 : actions (t1 ++ t2) = actions t1 ++ actions t2.
Proof. unfold actions. apply fmap_app. Qed.

Lemma requested_app t1 t2 : requested (t1 ++ t2) = requested t1 ++ requested t2.
Proof. unfold requested. by rewrite actions_app, omap_app. Qed.

Lemma allocated_app t1 t2 : allocated (t1 ++ t2) = allocated t1 ++ allocated t2.
Proof. unfold allocated. by rewrite actions_app, omap_app. Qed.

(** ** The id counter *)

Lemma ids_from_app i l1 j l2 k :
  ids_from i l1 j → ids_from j l2 k → ids_from i (l1 ++ l2) k.
Proof.
  revert i. induction l1 as [|x l1 IH]; intros i; cbn.
  - intros ->. done.
  - intros [-> H1] H2. split; [done|]. by apply IH.
Qed.


Lemma ids_from_end i l j :
  0 ≤ i → i + Z.of_nat (length l) < ConnID_modulus →
  ids_from i l j → j = i + Z.of_nat (length l).
Proof.
  revert i. induction l as [|x l IH]; intros i Hi Hlt; cbn.
  - intros ->. lia.
  - intros [-> Hl].
    assert (to_ConnID (i + 1) = i + 1) as Hw.
    { unfold to_ConnID. apply Z.mod_small. cbn [length] in Hlt. lia. }
    rewrite Hw in Hl. rewrite (IH (i + 1)); [|lia|cbn [length] in Hlt; lia|done].
    cbn [length]. lia.
Qed.

(** ** Chains *)

Lemma chained_weaken p l : chained None l → chained p l.
Proof.
  destruct l as [|a l]; cbn; [done|].
  intros [Ha Hl]. split; [|done].
  destruct (needs a); [|done]. by destruct Ha as (? & ? & _).
Qed.

Lemma chained_app p l1 l2 : chained p l1 → chained None l2 → chained p (l1 ++ l2).
Proof.
  revert p. induction l1 as [|a l1 IH]; intros p; cbn.
  - intros _. apply chained_weaken.
  - intros [Ha Hl] H2. split; [done|]. by apply IH.
Qed.

Lemma chained_split p l t1 a t2 P :
  chained p l → l = t1 ++ a :: t2 → needs a = Some P →
  ∃ q, last (option_list p ++ t1) = Some q ∧ P q.
Proof.
  revert p t1. induction l as [|b l IH]; intros p t1 Hc Heq Hn.
  - by destruct t1.
  - destruct t1 as [|b' t1]; cbn in Heq; simplify_eq.
    + cbn in Hc. rewrite Hn in Hc. destruct Hc as [(q & -> & HP) _].
      exists q. done.
    + cbn in Hc. destruct Hc as [_ Hc].
      destruct (IH (Some b') t1 Hc eq_refl Hn) as (q & Hq & HP).
      exists q. split; [|done].
      change (option_list (Some b') ++ t1) with (b' :: t1) in Hq.
      by rewrite last_app, Hq.
Qed.

Lemma quiet_app t1 t2 : quiet t1 → quiet t2 → quiet (t1 ++ t2).
Proof.
  unfold quiet. rewrite actions_app, forallb_app. intros -> ->. done.
Qed.

Lemma quiet_allocated tr : quiet tr → allocated tr = [].
Proof.
  unfold quiet, allocated. induction (actions tr) as [|a l IH]; cbn; [done|].
  intros [Ha Hl]%andb_true_iff. rewrite (IH Hl). by destruct a.
Qed.

Lemma quiet_chained tr p : quiet tr → chained p (actions tr).
Proof.
  unfold quiet. revert p. induction (actions tr) as [|a l IH]; intros p; cbn; [done|].
  intros [Ha Hl]%andb_true_iff. split; [|by apply IH].
  destruct a as [[]|? []| | | | |]; done.
Qed.

(** ** The DNS connection *)

Lemma OnResolveFailure_eq (error : Z) (d : CDNSConnection.t) :
  CDNSConnection.m_bev d = false →
  CDNSConnection.m_resolved d = [] →
  CDNSConnection.m_iter d = 0%nat →
  let retries := CDNSConnection.m_retries d in
  CDNSConnection.OnResolveFailure error d
  = Some (CDNSConnection.with_retries (CDNSConnection.with_request d false)
            (if retries >? 0 then retries - 1 else retries),
          CDNSConnection.OnConnectionFailure RESOLVE_FAILURE error
            (CDNSConnection.m_connection d) (negb (retries =? 0))).
Proof.
  destruct d as [conn r l i rq bv]; simpl. intros -> -> ->.
  unfold CDNSConnection.OnResolveFailure, CDNSConnection.at_end, CDNSConnection.empty.
  simpl. unfold int_to_bool, bool_to_int.
  destruct (Z.gtb_spec r 0) as [Hpos|Hnp].
  - replace (r =? 0) with false by (symmetry; apply Z.eqb_neq; lia). done.
  - destruct (r =? 0); done.
Qed.

Lemma OnConnectFailure_eq (event : Z) (c : CDNSConnection.t) :
  CDNSConnection.m_request c = false →
  (CDNSConnection.m_iter c < length (CDNSConnection.m_resolved c))%nat →
  ∃ a c',
    CDNSConnection.m_resolved c !! CDNSConnection.m_iter c = Some a ∧
    CDNSConnection.OnConnectFailure event c
    = Some (c', CDNSConnection.OnConnectionFailure CONNECT event
                  (resolved_connection (GetOptions (CDNSConnection.m_connection c))
                     (GetNetConfig (CDNSConnection.m_connection c))
                     (CDNSConnection.ai_addr a) (CDNSConnection.ai_addrlen a))
                  (bool_decide (S (CDNSConnection.m_iter c)
                                < length (CDNSConnection.m_resolved c))%nat
                   || bool_decide (CDNSConnection.m_retries c ≠ 0))) ∧
    CDNSConnection.m_iter c' = S (CDNSConnection.m_iter c) ∧
    CDNSConnection.m_retries c' = CDNSConnection.m_retries c ∧
    CDNSConnection.m_resolved c' = CDNSConnection.m_resolved c.
Proof.
  intros Hreq Hlt.
  destruct (lookup_lt_is_Some_2 _ _ Hlt) as [a Ha].
  destruct c as [conn r l i rq bv]; simpl in *. subst rq.
  assert (negb (S i =? length l)%nat = bool_decide (S i < length l)%nat) as Hmore.
  { destruct (Nat.eqb_spec (S i) (length l)); simpl.
    - rewrite bool_decide_eq_false_2; [done|lia].
    - rewrite bool_decide_eq_true_2; [done|lia]. }
  assert (negb (r =? 0) = bool_decide (r ≠ 0)) as Hleft.
  { destruct (Z.eqb_spec r 0); simpl.
    - rewrite bool_decide_eq_false_2; [done|]. intros H; apply H; done.
    - rewrite bool_decide_eq_true_2; done. }
  exists a. eexists. split; [done|].
  unfold CDNSConnection.OnConnectFailure, CDNSConnection.ConnectionFailure,
    CDNSConnection.at_end, CDNSConnection.empty.
  cbn [CDNSConnection.m_request CDNSConnection.m_bev CDNSConnection.m_iter
       CDNSConnection.m_resolved CDNSConnection.m_retries CDNSConnection.m_connection
       CDNSConnection.with_bev CDNSConnection.with_resolved negb andb].
  assert ((i =? length l)%nat = false) as -> by (apply Nat.eqb_neq; lia).
  destruct l as [|a0 l']; [simpl in Hlt; lia|].
  cbn [negb andb]. rewrite Ha, Hmore, Hleft. done.
Qed.

(** ** Counting the entries of a map *)

Lemma count_if_empty p : count_if p ∅ = 0.
Proof. unfold count_if. by rewrite map_to_list_empty. Qed.

Lemma count_if_insert p (m : gmap Z ConnectionBase) id c :
  m !! id = None →
  count_if p (<[id := c]> m) = count_if p m + (if p c then 1 else 0).
Proof.
  intros Hid. unfold count_if.
  rewrite (map_to_list_insert m id c Hid), filter_cons. cbn [snd].
  destruct (decide (p c = true)) as [->|Hn]; cbn [length].
  - lia.
  - destruct (p c); [done|]. lia.
Qed.

Lemma count_if_delete p (m : gmap Z ConnectionBase) id c :
  m !! id = Some c →
  count_if p (delete id m) = count_if p m - (if p c then 1 else 0).
Proof.
  intros Hid.
  rewrite <- (insert_delete_id m id c Hid) at 2.
  rewrite count_if_insert by apply lookup_delete_eq. lia.
Qed.

Lemma emplace_hint_None {V} id (v : V) (m : gmap Z V) :
  m !! id = None → emplace_hint id v m = <[id := v]> m.
Proof. unfold emplace_hint. by intros ->. Qed.

Lemma lookup_emplace_hint_Some {V} id (v : V) (m : gmap Z V) k x :
  emplace_hint id v m !! k = Some x →
  m !! k = Some x ∨ (k = id ∧ x = v ∧ m !! id = None).
Proof.
  unfold emplace_hint. destruct (m !! id) eqn:Hid; [by left|].
  destruct (decide (id = k)) as [->|Hne].
  - rewrite lookup_insert_eq. intros [= <-]. by right.
  - rewrite lookup_insert_ne by done. by left.
Qed.

(** ** Preservation of [consistent] *)

Lemma to_ConnID_succ i : 0 ≤ i → i + 1 < ConnID_modulus → to_ConnID (i + 1) = i + 1.
Proof. intros. unfold to_ConnID. apply Z.mod_small. lia. Qed.

Lemma consistent_next_id i o n cd cg :
  consistent i o n cd cg → i + 1 < ConnID_modulus →
  consistent (to_ConnID (i + 1)) o n cd cg.
Proof.
  intros (Hi & Ho & Hn & Hcg & Hcd & Hdis) Hlt. rewrite to_ConnID_succ by done.
  repeat split; try done; try lia.
  - intros id H. specialize (Hcg id H). lia.
  - intros id H. specialize (Hcd id H). lia.
Qed.

Lemma consistent_emplace_connecting i o n cd cg c :
  consistent i o n cd cg → i + 1 < ConnID_modulus →
  consistent (to_ConnID (i + 1)) o n cd (emplace_hint i c cg).
Proof.
  intros (Hi & Ho & Hn & Hcg & Hcd & Hdis) Hlt. rewrite to_ConnID_succ by done.
  repeat split; try done; try lia.
  - intros id [x Hx]. destruct (lookup_emplace_hint_Some _ _ _ _ _ Hx) as [H|(-> & _)].
    + specialize (Hcg id (mk_is_Some _ _ H)). lia.
    + lia.
  - intros id H. specialize (Hcd id H). lia.
  - intros id [x Hx]. destruct (lookup_emplace_hint_Some _ _ _ _ _ Hx) as [H|(-> & _)].
    + apply Hdis. by eexists.
    + destruct (cd !! i) eqn:E; [|done].
      specialize (Hcd i (mk_is_Some _ _ E)). lia.
Qed.

Lemma consistent_delete_connecting i o n cd cg id :
  consistent i o n cd cg → consistent i o n cd (delete id cg).
Proof.
  intros (Hi & Ho & Hn & Hcg & Hcd & Hdis).
  repeat split; try done.
  - intros k [x Hx]. apply Hcg. apply lookup_delete_Some in Hx as [_ Hx]. by eexists.
  - intros k [x Hx]. apply Hdis. apply lookup_delete_Some in Hx as [_ Hx]. by eexists.
Qed.

Lemma consistent_store_connecting i o n cd cg id c :
  is_Some (cg !! id) →
  consistent i o n cd cg → consistent i o n cd (<[id := c]> cg).
Proof.
  intros Hid (Hi & Ho & Hn & Hcg & Hcd & Hdis).
  repeat split; try done.
  - intros k [x Hx]. destruct (decide (id = k)) as [<-|Hne]; [by apply Hcg|].
    rewrite lookup_insert_ne in Hx by done. apply Hcg. by eexists.
  - intros k [x Hx]. destruct (decide (id = k)) as [<-|Hne]; [by apply Hdis|].
    rewrite lookup_insert_ne in Hx by done. apply Hdis. by eexists.
Qed.

Lemma consistent_disconnect i o n cd cg id c :
  cd !! id = Some c →
  consistent i o n cd cg →
  consistent i (if IsOutgoing c then o - 1 else o) (if IsOutgoing c then n else n - 1)
    (delete id cd) cg.
Proof.
  intros Hid (Hi & Ho & Hn & Hcg & Hcd & Hdis).
  repeat split; try done.
  - unfold outgoing_entries. rewrite (count_if_delete _ _ _ _ Hid).
    unfold outgoing_entries in Ho. destruct (IsOutgoing c); lia.
  - unfold incoming_entries. rewrite (count_if_delete _ _ _ _ Hid).
    unfold incoming_entries in Hn. destruct (IsOutgoing c); cbn; lia.
  - intros k [x Hx]. apply Hcd. apply lookup_delete_Some in Hx as [_ Hx]. by eexists.
  - intros k Hk. specialize (Hdis k Hk). by rewrite lookup_delete_None; right.
Qed.

Lemma consistent_connected i o n cd cg id c :
  cg !! id = Some c →
  consistent i o n cd cg →
  consistent i (if IsOutgoing c then o + 1 else o) (if IsOutgoing c then n else n + 1)
    (emplace_hint id c cd) (delete id cg).
Proof.
  intros Hid (Hi & Ho & Hn & Hcg & Hcd & Hdis).
  assert (cd !! id = None) as Hfresh by (apply Hdis; by eexists).
  rewrite (emplace_hint_None _ _ _ Hfresh).
  repeat split; try done.
  - unfold outgoing_entries. rewrite count_if_insert by done.
    unfold outgoing_entries in Ho. destruct (IsOutgoing c); lia.
  - unfold incoming_entries. rewrite count_if_insert by done.
    unfold incoming_entries in Hn. destruct (IsOutgoing c); cbn; lia.
  - intros k [x Hx]. apply Hcg. apply lookup_delete_Some in Hx as [_ Hx]. by eexists.
  - intros k [x Hx]. destruct (decide (id = k)) as [<-|Hne].
    + apply Hcg. by eexists.
    + rewrite lookup_insert_ne in Hx by done. apply Hcd. by eexists.
  - intros k [x Hx]. apply lookup_delete_Some in Hx as [Hne Hx].
    rewrite lookup_insert_ne by done. apply Hdis. by eexists.
Qed.

Lemma consistent_empty i : 0 ≤ i → consistent i 0 0 ∅ ∅.
Proof.
  intros Hi. unfold consistent, outgoing_entries, incoming_entries.
  rewrite !count_if_empty.
  repeat split; try done; intros id [x Hx]; by rewrite lookup_empty in Hx.
Qed.

(** ** Preservation of [announced_all] *)

Lemma announced_app_l id t0 tr : announced id t0 → announced id (t0 ++ tr).
Proof.
  intros (conn & r & H). exists conn, r. rewrite actions_app. apply elem_of_app. by left.
Qed.

Lemma announced_all_subset t0 tr (cd cd' : gmap Z ConnectionBase) :
  (∀ id c, cd' !! id = Some c → cd !! id = Some c) →
  announced_all t0 cd → announced_all (t0 ++ tr) cd'.
Proof.
  intros Hsub H id c Hid Hout. apply announced_app_l. eapply H; [by apply Hsub|done].
Qed.

Lemma announced_all_emplace t0 tr (cd : gmap Z ConnectionBase) id c :
  (IsOutgoing c = true → announced id tr) →
  announced_all t0 cd → announced_all (t0 ++ tr) (emplace_hint id c cd).
Proof.
  intros Hnew H k x Hk Hout.
  destruct (lookup_emplace_hint_Some _ _ _ _ _ Hk) as [Hold|(-> & -> & _)].
  - apply announced_app_l. by eapply H.
  - destruct (Hnew Hout) as (conn & r & Hin). exists conn, r.
    rewrite actions_app. apply elem_of_app. by right.
Qed.

(** ** Composition of sound computations *)

Lemma frame_sound {A} (m : M A) : frame m → sound m.
Proof.
  intros Hm s r s' tr Hrun.
  destruct (Hm s r s' tr Hrun) as [(Hi & Ho & Hn & Hcd & Hcg) Hq].
  rewrite (quiet_allocated tr Hq), Hi, Hcd.
  split; [done|]. split; [by apply quiet_chained|]. split.
  - intros t0. by apply announced_all_subset.
  - unfold Inv. by rewrite Hi, Ho, Hn, Hcd, Hcg.
Qed.

Lemma sound_bind {A B} (m : M A) (k : A → M B) :
  sound m → (∀ x, sound (k x)) → sound (m ≫= k).
Proof.
  intros Hm Hk s r s' tr (x & s1 & t1 & t2 & H1 & H2 & ->)%bind_Some.
  destruct (Hm _ _ _ _ H1) as (Hid1 & Hch1 & Han1 & Hinv1).
  destruct (Hk x _ _ _ _ H2) as (Hid2 & Hch2 & Han2 & Hinv2).
  rewrite allocated_app, actions_app.
  split; [by eapply ids_from_app|]. split; [by apply chained_app|]. split.
  - intros t0 H0. rewrite app_assoc. by apply Han2, Han1.
  - intros Hinv Hlt. rewrite length_app, Nat2Z.inj_add in Hlt.
    assert (Inv s1) as Hs1 by (apply Hinv1; [done|lia]).
    apply Hinv2; [done|].
    destruct Hinv as (Hi & _).
    assert (m_connection_index s + Z.of_nat (length (allocated t1)) < ConnID_modulus)
      as Hlt1 by lia.
    rewrite (ids_from_end _ _ _ Hi Hlt1 Hid1). lia.
Qed.

Lemma sound_mret {A} (x : A) : sound (mret x : M A).
Proof. apply frame_sound. intros s r s' tr [= <- <- <-]. done. Qed.

Lemma sound_for_each {A} (body : A → M unit) (l : list A) :
  (∀ x, sound (body x)) → sound (for_each body l).
Proof.
  intros Hbody. induction l as [|x l IH]; cbn [for_each].
  - apply sound_mret.
  - apply sound_bind; [apply Hbody|]. intros _. apply IH.
Qed.


(** ** Starting connections never fails *)

Lemma StartConnection_total conn s :
  ∃ s' tr, StartConnection conn s = Some (tt, s', tr) ∧
           requested tr = [] ∧ allocated tr = [m_connection_index s].
Proof.
  unfold StartConnection. unfold_m.
  destruct (IsDNS conn && _), (proxy_IsSet _); cbn; eexists _, _; done.
Qed.

Lemma start_each_total (conns : list CConnection) s :
  ∃ s' tr,
    for_each (λ c, if IsSet c then StartConnection c else skip) conns s = Some (tt, s', tr) ∧
    requested tr = [] ∧ (length (allocated tr) ≤ length conns)%nat.
Proof.
  revert s. induction conns as [|c conns IH]; intros s.
  - cbn. eexists _, _. split; [done|]. split; [done|]. cbn. lia.
  - cbn [for_each].
    assert (∃ s1 t1, (if IsSet c then StartConnection c else skip) s = Some (tt, s1, t1) ∧
                     requested t1 = [] ∧ (length (allocated t1) ≤ 1)%nat) as (s1 & t1 & H1 & Hr1 & Ha1).
    { destruct (IsSet c).
      - destruct (StartConnection_total c s) as (s1 & t1 & E1 & E2 & E3).
        exists s1, t1. rewrite E3. split; [done|]. split; [done|]. cbn. lia.
      - eexists _, _. split; [done|]. split; [done|]. cbn. lia. }
    destruct (IH s1) as (s2 & t2 & H2 & Hr2 & Ha2).
    exists s2, (t1 ++ t2). split.
    + apply bind_Some. eexists _, _, _, _. done.
    + rewrite requested_app, allocated_app, Hr1, Hr2, length_app. split; [done|]. cbn. lia.
Qed.

(** ** The member functions that leave the core of the state alone *)

Ltac unfold_in f H :=
  lazymatch f with
  | ?g _ => unfold_in g H
  | _ => unfold f in H
  end.

Ltac open_run H :=
  unfold_m; red_state; repeat (case_match; simplify_eq; red_state); simplify_eq.

Ltac prove_frame f :=
  let H := fresh "Hrun" in
  intros ? ? ? ? H; unfold_in f H; try unfold with_connected in H;
  open_run H; (split; [by repeat split|done]).

Lemma frame_Start limit : frame (Start limit).
Proof. prove_frame Start. Qed.

Lemma frame_Shutdown : frame Shutdown.
Proof. prove_frame Shutdown. Qed.

Lemma frame_OnResolveComplete id conn resolved : frame (OnResolveComplete id conn resolved).
Proof. prove_frame OnResolveComplete. Qed.

Lemma frame_OnWriteBufferReady id bufsize : frame (OnWriteBufferReady id bufsize).
Proof. prove_frame OnWriteBufferReady. Qed.

Lemma frame_OnWriteBufferFull id bufsize : frame (OnWriteBufferFull id bufsize).
Proof. prove_frame OnWriteBufferFull. Qed.

Lemma frame_OnReceiveMessages id msgs totalsize keep :
  frame (OnReceiveMessages id msgs totalsize keep).
Proof. prove_frame OnReceiveMessages. Qed.

Lemma frame_OnListenFailure id bind : frame (OnListenFailure id bind).
Proof. prove_frame OnListenFailure. Qed.

Lemma frame_CloseConnection id immediately : frame (CloseConnection id immediately).
Proof. destruct immediately; prove_frame CloseConnection. Qed.

Lemma frame_PauseRecv id : frame (PauseRecv id).
Proof. prove_frame PauseRecv. Qed.

Lemma frame_UnpauseRecv id : frame (UnpauseRecv id).
Proof. prove_frame UnpauseRecv. Qed.

Lemma frame_Send id data written : frame (Send id data written).
Proof. prove_frame Send. Qed.

Lemma frame_SetRateLimit id limit : frame (SetRateLimit id limit).
Proof. prove_frame SetRateLimit. Qed.

Lemma frame_SetIncomingRateLimit limit created :
  frame (SetIncomingRateLimit limit created).
Proof. prove_frame SetIncomingRateLimit. Qed.

Lemma frame_SetOutgoingRateLimit limit created :
  frame (SetOutgoingRateLimit limit created).
Proof. prove_frame SetOutgoingRateLimit. Qed.

Lemma frame_skip : frame skip.
Proof. prove_frame skip. Qed.

(** ** The member functions that allocate ids or move connections *)

Ltac first_three :=
  split; [by cbn|]; split; [cbn; by eauto 10|]; split;
  [intros t0; red_state;
   first [by apply announced_all_subset
         | apply announced_all_subset; intros ? ? [_ ?]%lookup_delete_Some; done
         | idtac]
  |].

Lemma sound_StartConnection conn : sound (StartConnection conn).
Proof.
  intros s r s' tr Hrun. unfold StartConnection in Hrun. open_run Hrun.
  all: first_three.
  all: unfold Inv; red_state; cbn; intros Hinv Hlt.
  all: first [by apply consistent_emplace_connecting; [|lia]
             | by apply consistent_next_id; [|lia]].
Qed.

Lemma sound_OnIncomingConnection bind sock address socklen :
  sound (OnIncomingConnection bind sock address socklen).
Proof.
  intros s r s' tr Hrun. unfold OnIncomingConnection in Hrun. open_run Hrun.
  first_three. unfold Inv; red_state; cbn; intros Hinv Hlt.
  by apply consistent_emplace_connecting; [|lia].
Qed.

Lemma sound_Bind conn bound : sound (Bind conn bound).
Proof.
  intros s r s' tr Hrun. unfold Bind in Hrun. open_run Hrun.
  all: first_three.
  all: unfold Inv; red_state; cbn; intros Hinv Hlt.
  all: by apply consistent_next_id; [|lia].
Qed.

Lemma sound_OnResolveFailure id conn error retry :
  sound (OnResolveFailure id conn error retry).
Proof.
  intros s r s' tr Hrun. unfold OnResolveFailure in Hrun. open_run Hrun.
  all: first_three.
  all: unfold Inv; red_state; cbn; intros Hinv Hlt; done.
Qed.

Lemma sound_OnDisconnected id reconnect : sound (OnDisconnected id reconnect).
Proof.
  intros s r s' tr Hrun. unfold OnDisconnected in Hrun. open_run Hrun.
  all: first_three.
  all: unfold Inv; red_state; cbn; intros Hinv Hlt.
  all: match goal with
       | H : m_connected _ !! _ = Some ?c, E : IsOutgoing ?c = _, I : consistent _ _ _ _ _ |- _ =>
           pose proof (consistent_disconnect _ _ _ _ _ _ _ H I) as Hd; rewrite E in Hd
       end.
  all: first [done | by apply consistent_emplace_connecting; [|lia]].
Qed.

Lemma sound_OnConnectionFailure id type error failed retry :
  sound (OnConnectionFailure id type error failed retry).
Proof.
  intros s r s' tr Hrun. unfold OnConnectionFailure in Hrun. open_run Hrun.
  all: first_three.
  all: unfold Inv; red_state; cbn; intros Hinv Hlt.
  all: pose proof (consistent_delete_connecting _ _ _ _ _ id Hinv) as Hd.
  all: first [done | by apply consistent_emplace_connecting; [|lia]].
Qed.

Lemma sound_incoming_connected id conn resolved accept :
  sound (direction_is id false ;; OnIncomingConnected id conn resolved accept).
Proof.
  intros s r s' tr Hrun. unfold direction_is, OnIncomingConnected in Hrun. open_run Hrun.
  all: first_three.
  - apply announced_all_emplace. intros Hout.
    match goal with H : eqb (IsOutgoing _) false = true |- _ =>
      rewrite Hout in H; discriminate end.
  - unfold Inv; red_state; cbn; intros Hinv _.
    match goal with
    | H : m_connecting _ !! _ = Some ?c, E : eqb (IsOutgoing ?c) false = true |- _ =>
        pose proof (consistent_connected _ _ _ _ _ _ _ H Hinv) as Hd;
        destruct (IsOutgoing c); [discriminate|done]
    end.
  - unfold Inv; red_state; cbn; intros Hinv _.
    by apply consistent_delete_connecting.
Qed.

Lemma sound_outgoing_connected id conn resolved :
  sound (direction_is id true ;; OnOutgoingConnected id conn resolved).
Proof.
  intros s r s' tr Hrun. unfold direction_is, OnOutgoingConnected in Hrun. open_run Hrun.
  first_three.
  - apply announced_all_emplace. intros _. exists conn, resolved.
    cbn. set_solver.
  - unfold Inv; red_state; cbn; intros Hinv _.
    match goal with
    | H : m_connecting _ !! _ = Some ?c, E : eqb (IsOutgoing ?c) true = true |- _ =>
        pose proof (consistent_connected _ _ _ _ _ _ _ H Hinv) as Hd;
        destruct (IsOutgoing c); [done|discriminate]
    end.
Qed.

Lemma direction_of_dns id d (s : t) :
  m_connecting s !! id = Some (CDNSConn d) → direction_is id true s = Some (tt, s, []).
Proof. intros H. unfold direction_is. unfold_m. by rewrite H. Qed.

Lemma sound_on_dns id e : sound (on_dns id e).
Proof.
  intros s r s' tr Hrun. unfold on_dns in Hrun.
  rewrite bind_get in Hrun.
  destruct (m_connecting s !! id) as [[| d | |]|] eqn:Hid; try done.
  destruct (dns_member e d) as [[d' o]|] eqn:He; [|done].
  rewrite bind_modify in Hrun.
  set (s1 := set_connecting (<[id:=CDNSConn d']> (m_connecting s)) s) in *.
  assert (ids_from (m_connection_index s1) (allocated tr) (m_connection_index s') ∧
          chained None (actions tr) ∧
          (∀ t0, announced_all t0 (m_connected s1) → announced_all (t0 ++ tr) (m_connected s')) ∧
          (Inv s1 → m_connection_index s1 + Z.of_nat (length (allocated tr)) < ConnID_modulus →
           Inv s')) as (H1 & H2 & H3 & H4).
  { destruct o; cbn [hand_over] in Hrun.
    - by eapply (frame_sound _ frame_skip).
    - by eapply (frame_sound _ frame_skip).
    - by eapply sound_OnConnectionFailure.
    - apply (sound_outgoing_connected id (CDNSConnection.m_connection d) resolved s1 r).
      apply bind_Some. eexists tt, s1, [], _. split; [|done].
      apply (direction_of_dns id d'). unfold s1. red_state. apply lookup_insert_eq. }
  split; [done|]. split; [done|]. split; [done|].
  intros Hinv Hlt. apply H4; [|done].
  unfold Inv, s1. red_state. apply consistent_store_connecting; [by eexists|done].
Qed.

(** ** The shutdown sequence *)

Lemma outgoing_in_cons id c l :
  outgoing_in ((id, c) :: l) = outgoing_in l + (if IsOutgoing c then 1 else 0).
Proof.
  unfold outgoing_in. rewrite filter_cons. cbn [snd].
  destruct (IsOutgoing c); case_decide; try done; cbn [length]; lia.
Qed.

Lemma incoming_in_cons id c l :
  incoming_in ((id, c) :: l) = incoming_in l + (if IsOutgoing c then 0 else 1).
Proof.
  unfold incoming_in. rewrite filter_cons. cbn [snd].
  destruct (IsOutgoing c); case_decide; try done; cbn [length]; lia.
Qed.

Lemma entries_Permutation {V} (m : gmap Z V) : entries m ≡ₚ map_to_list m.
Proof. unfold entries. apply merge_sort_Permutation. Qed.

Lemma outgoing_in_entries m : outgoing_in (entries m) = outgoing_entries m.
Proof.
  unfold outgoing_in, outgoing_entries, count_if. by rewrite entries_Permutation.
Qed.

Lemma incoming_in_entries m : incoming_in (entries m) = incoming_entries m.
Proof.
  unfold incoming_in, incoming_entries, count_if. by rewrite entries_Permutation.
Qed.

Lemma disconnect_all (l : list (Z * ConnectionBase)) s :
  ∃ tr,
    for_each (λ e : Z * ConnectionBase,
        count_down (IsOutgoing e.2) ;;
        callback (m_interface.OnDisconnected e.1 false)) l s
    = Some (tt,
            set_incoming_conn_count (m_incoming_conn_count s - incoming_in l)
              (set_outgoing_conn_count (m_outgoing_conn_count s - outgoing_in l) s),
            tr) ∧ quiet tr.
Proof.
  revert s. induction l as [|[id c] l IH]; intros s.
  - exists []. split; [|done]. cbn. unfold skip, mret, M_ret.
    unfold outgoing_in, incoming_in. cbn. rewrite !Z.sub_0_r. destruct s; by open_state.
  - cbn [for_each].
    set (s1 := if IsOutgoing c
               then set_outgoing_conn_count (m_outgoing_conn_count s - 1) s
               else set_incoming_conn_count (m_incoming_conn_count s - 1) s).
    destruct (IH s1) as (tr & Hrun & Hq).
    exists ((Callback (m_interface.OnDisconnected id false), s1) :: tr).
    split; [|by apply (quiet_app [_])].
    assert ((count_down (IsOutgoing (id, c).2) ;;
             callback (m_interface.OnDisconnected (id, c).1 false)) s
            = Some (tt, s1, [(Callback (m_interface.OnDisconnected id false), s1)])) as Hb.
    { unfold count_down, callback, emit, modify, mbind, M_bind. cbn [fst snd]. subst s1.
      by destruct (IsOutgoing c). }
    rewrite (bind_eq _ _ _ _ _ _ Hb), Hrun. cbn [app]. do 3 f_equal.
    rewrite outgoing_in_cons, incoming_in_cons. subst s1.
    clear IH Hrun Hb. destruct (IsOutgoing c), s; open_state; f_equal; lia.
Qed.

Lemma fail_all (l : list (Z * ConnectionBase)) s :
  ∃ tr,
    for_each (λ e : Z * ConnectionBase,
        (if IsOutgoing e.2
         then callback (m_interface.OnConnectionFailure
                          (GetBaseConnection e.2) (GetBaseConnection e.2) false)
         else skip) ;;
        modify (λ s, set_connecting (delete e.1 (m_connecting s)) s)) l s
    = Some (tt, set_connecting (foldl (λ m e, delete e.1 m) (m_connecting s) l) s, tr)
    ∧ quiet tr.
Proof.
  revert s. induction l as [|[id c] l IH]; intros s.
  - exists []. split; [|done]. cbn. unfold skip, mret, M_ret. destruct s; by open_state.
  - cbn [for_each foldl fst snd].
    set (s1 := set_connecting (delete id (m_connecting s)) s).
    destruct (IH s1) as (tr & Hrun & Hq).
    exists ((if IsOutgoing c
             then [(Callback (m_interface.OnConnectionFailure
                                (GetBaseConnection c) (GetBaseConnection c) false), s)]
             else []) ++ tr).
    split; [|apply quiet_app; [by destruct (IsOutgoing c)|done]].
    assert (((if IsOutgoing (id, c).2
              then callback (m_interface.OnConnectionFailure
                               (GetBaseConnection (id, c).2) (GetBaseConnection (id, c).2) false)
              else skip) ;;
             modify (λ s, set_connecting (delete (id, c).1 (m_connecting s)) s)) s
            = Some (tt, s1,
                    if IsOutgoing c
                    then [(Callback (m_interface.OnConnectionFailure
                                       (GetBaseConnection c) (GetBaseConnection c) false), s)]
                    else [])) as Hb.
    { unfold callback, emit, modify, skip, mret, M_ret, mbind, M_bind. cbn [fst snd].
      subst s1. by destruct (IsOutgoing c). }
    rewrite (bind_eq _ _ _ _ _ _ Hb), Hrun. do 3 f_equal; subst s1; destruct s; by open_state.
Qed.

Lemma delete_all_lookup {V} (l : list (Z * V)) (m : gmap Z V) k :
  foldl (λ m e, delete e.1 m) m l !! k = if decide (k ∈ l.*1) then None else m !! k.
Proof.
  revert m. induction l as [|[id v] l IH]; intros m; cbn [foldl fmap list_fmap fst].
  - rewrite decide_False; [done|]. apply not_elem_of_nil.
  - rewrite IH. destruct (decide (k ∈ l.*1)) as [Hin|Hnin].
    + rewrite decide_True; [done|]. by apply elem_of_cons; right.
    + destruct (decide (k = id)) as [->|Hne].
      * rewrite decide_True; [|by apply elem_of_cons; left]. apply lookup_delete_eq.
      * rewrite decide_False; [by apply lookup_delete_ne|].
        intros [?|?]%elem_of_cons; done.
Qed.

Lemma delete_all_entries {V} (m : gmap Z V) :
  foldl (λ m e, delete e.1 m) m (entries m) = ∅.
Proof.
  apply map_empty. intros k. rewrite delete_all_lookup.
  destruct (decide (k ∈ (entries m).*1)) as [|Hnin]; [done|].
  destruct (m !! k) as [v|] eqn:Hk; [|done]. exfalso. apply Hnin.
  apply list_elem_of_fmap. exists (k, v). split; [done|].
  rewrite entries_Permutation. by apply elem_of_map_to_list.
Qed.

Lemma ShutdownInt_eq s :
  m_shutdown s = false →
  ∃ tr, quiet tr ∧
    ShutdownInt s
    = if (m_outgoing_conn_count s - outgoing_entries (m_connected s) =? 0)
         && (m_incoming_conn_count s - incoming_entries (m_connected s) =? 0)
      then Some (tt, after_shutdown s, tr ++ [(event_base_loopbreak, after_shutdown s)])
      else None.
Proof.
  intros Hs. unfold ShutdownInt. rewrite bind_get, Hs. rewrite !bind_modify.
  set (s0 := set_shutdown true (set_binds ∅ (set_connected ∅ s))).
  destruct (disconnect_all (entries (m_connected s)) s0) as (t1 & H1 & Hq1).
  rewrite outgoing_in_entries, incoming_in_entries in H1. red_state.
  set (s1 := set_incoming_conn_count _ _) in H1.
  destruct (fail_all (entries (m_connecting s1)) s1) as (t2 & H2 & Hq2).
  rewrite delete_all_entries in H2.
  exists (t1 ++ t2). split; [by apply quiet_app|].
  unfold mbind at 1, M_bind at 1. rewrite H1. rewrite bind_get.
  unfold mbind at 1, M_bind at 1. rewrite H2. rewrite !bind_modify, bind_get.
  unfold after_shutdown. fold s0. subst s1. red_state.
  unfold assert, emit, mbind, M_bind, is_empty. red_state.
  rewrite !map_size_empty. cbn [bool_decide decide_rel].
  rewrite !bool_decide_eq_true_2 by done.
  destruct (_ =? 0); [|done]. destruct (_ =? 0); [|done].
  cbn. by rewrite <- app_assoc.
Qed.

Lemma ShutdownInt_Some s r s' tr :
  m_shutdown s = false →
  ShutdownInt s = Some (r, s', tr) →
  s' = after_shutdown s ∧
  m_outgoing_conn_count s' = 0 ∧ m_incoming_conn_count s' = 0 ∧
  ∃ tr0, quiet tr0 ∧ tr = tr0 ++ [(event_base_loopbreak, s')].
Proof.
  intros Hs Hrun. destruct (ShutdownInt_eq s Hs) as (tr0 & Hq & Heq).
  rewrite Heq in Hrun.
  destruct (m_outgoing_conn_count s - outgoing_entries (m_connected s) =? 0) eqn:Ho;
    [|done].
  destruct (m_incoming_conn_count s - incoming_entries (m_connected s) =? 0) eqn:Hi;
    [|done].
  cbn [andb] in Hrun. inversion Hrun; subst; clear Hrun.
  split; [done|]. unfold after_shutdown. red_state.
  split; [lia|]. split; [lia|]. by exists tr0.
Qed.

Lemma after_shutdown_all_empty s :
  m_outgoing_conn_count (after_shutdown s) = 0 →
  m_incoming_conn_count (after_shutdown s) = 0 →
  all_empty (after_shutdown s).
Proof. unfold after_shutdown, all_empty. red_state. done. Qed.

Lemma sound_ShutdownInt : sound ShutdownInt.
Proof.
  intros s r s' tr Hrun.
  destruct (m_shutdown s) eqn:Hs.
  - apply (frame_sound _ frame_skip s r).
    unfold ShutdownInt in Hrun. by rewrite bind_get, Hs in Hrun.
  - destruct (ShutdownInt_Some _ _ _ _ Hs Hrun) as (-> & Ho & Hi & tr0 & Hq & ->).
    assert (quiet (tr0 ++ [(event_base_loopbreak, after_shutdown s)])) as Hq'
      by (by apply quiet_app).
    rewrite (quiet_allocated _ Hq').
    split; [done|]. split; [by apply quiet_chained|]. split.
    + intros t0 _ id c Hid. unfold after_shutdown in Hid. red_state.
      by rewrite lookup_empty in Hid.
    + intros (Hidx & _) _. unfold Inv. rewrite Ho, Hi. unfold after_shutdown. red_state.
      by apply consistent_empty.
Qed.

Lemma sound_RequestOutgoingInt conns : sound (RequestOutgoingInt conns).
Proof.
  unfold RequestOutgoingInt. intros s r s' tr Hrun. rewrite bind_get in Hrun.
  match type of Hrun with (if ?b then _ else _) _ = _ => destruct b end.
  - eapply (sound_bind (callback _) (λ _, for_each _ _)); [| |exact Hrun].
    + apply frame_sound. prove_frame callback.
    + intros _. apply sound_for_each. intros c. destruct (IsSet c).
      * apply sound_StartConnection.
      * apply frame_sound, frame_skip.
  - by apply (frame_sound _ frame_skip s r).
Qed.

Lemma sound_then_skip {A} (m : M A) : sound m → sound (m ;; skip).
Proof. intros Hm. apply sound_bind; [done|]. intros _. apply frame_sound, frame_skip. Qed.

Ltac known_sound :=
  first [ apply sound_ShutdownInt
        | apply sound_RequestOutgoingInt
        | apply sound_OnDisconnected
        | apply sound_OnResolveFailure
        | apply sound_OnIncomingConnection
        | apply sound_OnConnectionFailure
        | apply sound_incoming_connected
        | apply sound_outgoing_connected
        | apply sound_Bind
        | apply sound_StartConnection
        | apply sound_on_dns
        | apply frame_sound;
          first [ apply frame_Start | apply frame_Shutdown | apply frame_OnResolveComplete
                | apply frame_OnWriteBufferReady
                | apply frame_OnWriteBufferFull | apply frame_OnReceiveMessages
                | apply frame_OnListenFailure | apply frame_CloseConnection
                | apply frame_PauseRecv | apply frame_UnpauseRecv | apply frame_Send
                | apply frame_SetRateLimit | apply frame_SetIncomingRateLimit
                | apply frame_SetOutgoingRateLimit ] ].

Lemma sound_dispatch e : sound (dispatch e).
Proof.
  destruct e; cbn [dispatch]; first [known_sound | apply sound_then_skip; known_sound].
Qed.

Lemma sound_get_then {A} (k : t → M A) : (∀ s, sound (k s)) → sound (get ≫= k).
Proof. intros Hk s r s' tr Hrun. rewrite bind_get in Hrun. by eapply Hk. Qed.

Lemma sound_event_base_loop pending : sound (event_base_loop pending).
Proof.
  induction pending as [|e rest IH]; cbn [event_base_loop].
  - apply frame_sound, frame_skip.
  - apply sound_bind; [apply sound_dispatch|]. intros _.
    apply sound_get_then. intros s. destruct (m_shutdown s); [|done].
    apply frame_sound, frame_skip.
Qed.

Lemma sound_PumpEvents block pending : sound (PumpEvents block pending).
Proof.
  unfold PumpEvents. apply sound_get_then. intros s.
  destruct (negb (m_event_base s)); [apply sound_mret|].
  destruct (m_shutdown s); [apply sound_mret|].
  apply sound_bind; [apply sound_event_base_loop|]. intros _.
  apply sound_get_then. intros s1. destruct (m_shutdown s1); [|apply sound_mret].
  apply frame_sound. prove_frame skip.
Qed.

Lemma sound_exec c : sound (exec c).
Proof.
  destruct c; cbn [exec]; [apply sound_dispatch|].
  apply sound_then_skip, sound_PumpEvents.
Qed.

Lemma sound_run cs : sound (run cs).
Proof. apply sound_for_each, sound_exec. Qed.

Lemma Inv_new : Inv new.
Proof. unfold Inv, new. red_state. by apply consistent_empty. Qed.

Lemma run_Inv cs s tr :
  run cs new = Some (tt, s, tr) →
  Z.of_nat (length (allocated tr)) < ConnID_modulus →
  Inv s.
Proof.
  intros Hrun Hlt. destruct (sound_run cs _ _ _ _ Hrun) as (_ & _ & _ & H).
  apply H; [apply Inv_new|done].
Qed.

(** ** Only [ShutdownInt] sets [m_shutdown] *)

Ltac prove_keeps f :=
  let H := fresh "Hrun" in
  intros ? ? ? ? H ?; unfold_in f H; try unfold with_connected, direction_is in H;
  open_run H; done.

Lemma keeps_bind {A B} (m : M A) (k : A → M B) :
  keeps_shutdown m → (∀ x, keeps_shutdown (k x)) → keeps_shutdown (m ≫= k).
Proof.
  intros Hm Hk s r s' tr (x & s1 & t1 & t2 & H1 & H2 & ->)%bind_Some Hs.
  eapply Hm; [done|]. by eapply Hk.
Qed.

Lemma keeps_skip : keeps_shutdown skip.
Proof. prove_keeps skip. Qed.

Lemma keeps_for_each {A} (body : A → M unit) l :
  (∀ x, keeps_shutdown (body x)) → keeps_shutdown (for_each body l).
Proof.
  intros Hb. induction l as [|x l IH]; cbn [for_each]; [apply keeps_skip|].
  apply keeps_bind; [apply Hb|]. intros _. apply IH.
Qed.

Lemma keeps_StartConnection conn : keeps_shutdown (StartConnection conn).
Proof. prove_keeps StartConnection. Qed.

Lemma keeps_RequestOutgoingInt conns : keeps_shutdown (RequestOutgoingInt conns).
Proof.
  unfold RequestOutgoingInt. intros s r s' tr Hrun. rewrite bind_get in Hrun.
  match type of Hrun with (if ?b then _ else _) _ = _ => destruct b end.
  - eapply (keeps_bind (callback _) (λ _, for_each _ _)); [| |exact Hrun].
    + prove_keeps callback.
    + intros _. apply keeps_for_each. intros c. destruct (IsSet c).
      * apply keeps_StartConnection.
      * apply keeps_skip.
  - by apply (keeps_skip s r s' tr).
Qed.

Lemma keeps_OnConnectionFailure id type error failed retry :
  keeps_shutdown (OnConnectionFailure id type error failed retry).
Proof. prove_keeps OnConnectionFailure. Qed.

Lemma keeps_OnOutgoingConnected id conn resolved :
  keeps_shutdown (OnOutgoingConnected id conn resolved).
Proof. prove_keeps OnOutgoingConnected. Qed.

Lemma keeps_on_dns id e : keeps_shutdown (on_dns id e).
Proof.
  intros s r s' tr Hrun Hs. unfold on_dns in Hrun. rewrite bind_get in Hrun.
  destruct (m_connecting s !! id) as [[| d | |]|]; try done.
  destruct (dns_member e d) as [[d' o]|]; [|done].
  rewrite bind_modify in Hrun.
  destruct o; cbn [hand_over] in Hrun.
  - by apply (keeps_skip _ _ _ _ Hrun).
  - by apply (keeps_skip _ _ _ _ Hrun).
  - by apply (keeps_OnConnectionFailure _ _ _ _ _ _ _ _ _ Hrun).
  - by apply (keeps_OnOutgoingConnected _ _ _ _ _ _ _ Hrun).
Qed.

Lemma keeps_dispatch e : e ≠ EvShutdownInt → keeps_shutdown (dispatch e).
Proof.
  destruct e; intros He; try done; cbn [dispatch];
    first [ apply keeps_RequestOutgoingInt | apply keeps_on_dns | idtac ].
  all: first [ prove_keeps Start | prove_keeps Shutdown | prove_keeps OnResolveComplete
             | prove_keeps OnResolveFailure | prove_keeps OnWriteBufferReady
             | prove_keeps OnWriteBufferFull | prove_keeps OnReceiveMessages
             | prove_keeps OnDisconnected | prove_keeps OnIncomingConnection
             | prove_keeps OnListenFailure | prove_keeps OnConnectionFailure
             | prove_keeps OnIncomingConnected | prove_keeps OnOutgoingConnected
             | prove_keeps Bind | prove_keeps StartConnection
             | destruct immediately; prove_keeps CloseConnection
             | prove_keeps PauseRecv | prove_keeps UnpauseRecv | prove_keeps Send
             | prove_keeps SetRateLimit | prove_keeps SetIncomingRateLimit
             | prove_keeps SetOutgoingRateLimit ].
Qed.

Lemma dispatch_shutdown e s r s' tr :
  dispatch e s = Some (r, s', tr) →
  m_shutdown s = false → m_shutdown s' = true → all_empty s'.
Proof.
  intros Hrun Hs Hs'.
  assert (e = EvShutdownInt ∨ e ≠ EvShutdownInt) as [->|Hne]
    by (destruct e; first [by left | by right]).
  - cbn [dispatch] in Hrun.
    destruct (ShutdownInt_Some _ _ _ _ Hs Hrun) as (-> & Ho & Hi & _).
    by apply after_shutdown_all_empty.
  - rewrite (keeps_dispatch e Hne _ _ _ _ Hrun Hs') in Hs. done.
Qed.

Lemma event_base_loop_shutdown pending s r s' tr :
  event_base_loop pending s = Some (r, s', tr) →
  m_shutdown s = false → m_shutdown s' = true → all_empty s'.
Proof.
  revert s tr. induction pending as [|e rest IH]; intros s tr Hrun Hs Hs'.
  - cbn in Hrun. unfold skip, mret, M_ret in Hrun. simplify_eq. congruence.
  - cbn [event_base_loop] in Hrun.
    apply bind_Some in Hrun as ([] & s1 & t1 & t2 & H1 & H2 & ->).
    rewrite bind_get in H2. destruct (m_shutdown s1) eqn:Hs1.
    + unfold skip, mret, M_ret in H2. simplify_eq. by eapply dispatch_shutdown.
    + by eapply IH.
Qed.

(** ** Runs *)

Lemma run_app cs1 cs2 s s1 t1 :
  run cs1 s = Some (tt, s1, t1) →
  run (cs1 ++ cs2) s = match run cs2 s1 with
                       | Some (r, s2, t2) => Some (r, s2, t1 ++ t2)
                       | None => None
                       end.
Proof.
  unfold run. revert s t1. induction cs1 as [|c cs1 IH]; intros s t1 Hrun.
  - cbn in Hrun. unfold skip, mret, M_ret in Hrun. simplify_eq.
    cbn [app for_each]. by destruct (for_each exec cs2 s1) as [[[r s2] t2]|].
  - cbn [app for_each] in *.
    apply bind_Some in Hrun as ([] & s0 & t0 & t0' & Hc & Hrest & ->).
    rewrite (bind_eq _ _ _ _ _ _ Hc), (IH _ _ Hrest).
    destruct (for_each exec cs2 s1) as [[[r s2] t2]|]; [|done].
    by rewrite app_assoc.
Qed.




(** ** The claims *)

(** The two claims that speak of every callback and of every retry of a
    run, C4 and C6, are proved further down, with what holds at every call. *)

(** C1 (amended).  A refill cycle asks the embedder for
    [min(8, limit - count - |m_connecting|)] connections, where every entry of
    [m_connecting] counts, incoming ones included; it asks for nothing when
    that number is zero, and starts no more connections than it asked for.
    (The difference is taken non-negative here.) *)
Theorem refill_requests_min_of_8_and_free_slots (conns : list CConnection) (s : t) :
  let d := m_outgoing_conn_limit s - m_outgoing_conn_count s
           - Z.of_nat (size (m_connecting s)) in
  0 ≤ d →
  Z.of_nat (size (m_connecting s)) < 2 ^ 31 →
  ∃ s' tr,
    RequestOutgoingInt conns s = Some (tt, s', tr) ∧
    requested tr = (if 0 <? d then [Z.min 8 d] else []) ∧
    Z.of_nat (length (allocated tr)) ≤ Z.min 8 d ∧
    (d = 0 → s' = s ∧ tr = []).
Proof.
  intros d Hd Hsize.
  unfold RequestOutgoingInt.
  assert (to_int (Z.of_nat (size (m_connecting s))) = Z.of_nat (size (m_connecting s))) as Hint.
  { unfold to_int, uint_modulus, uint_bits.
    rewrite Z.mod_small by lia.
    destruct (Z.ltb_spec (Z.of_nat (size (m_connecting s))) (2 ^ 32 / 2)) as [|Hge]; [done|].
    change (2 ^ 32 / 2) with (2 ^ 31) in Hge. lia. }
  assert (to_size_t (Z.min 8 d) = Z.min 8 d) as Hneed.
  { unfold to_size_t, size_t_modulus. apply Z.mod_small. lia. }
  rewrite bind_get.
  rewrite Hint. fold d. unfold g_max_simultaneous_connecting. rewrite Hneed.
  destruct (Z.ltb_spec 0 d) as [Hpos|Hzero].
  - assert ((Z.min 8 d >? 0) = true) as -> by lia.
    destruct (start_each_total (take (Z.to_nat (Z.min (Z.of_nat (length conns)) (Z.min 8 d))) conns) s)
      as (s' & tr & Hrun & Hreq & Hall).
    exists s', ([(Callback (m_interface.OnNeedOutgoingConnections (Z.min 8 d)), s)] ++ tr).
    split.
    { unfold callback, emit. unfold mbind, M_bind. cbn beta iota. rewrite Hrun. done. }
    rewrite requested_app, allocated_app, Hreq. split; [done|]. split; [|lia].
    cbn. rewrite length_take in Hall. lia.
  - assert (d = 0) as Hd0 by lia.
    assert ((Z.min 8 d >? 0) = false) as -> by lia.
    eexists _, _. split; [done|]. split; [done|]. split; [cbn; lia|]. done.
Qed.

(** What [StartConnection] does, case by case. *)
Lemma StartConnection_cases (conn : CConnection) (s : t) :
  let id := m_connection_index s in
  let s0 := set_connection_index (to_ConnID (id + 1)) s in
  ∃ s' tr,
    StartConnection conn s = Some (tt, s', tr) ∧
    if IsDNS conn && ResolveMode_eqb (doResolve (GetOptions conn)) RESOLVE_ONLY
       && proxy_IsSet (GetProxy conn)
    then s' = s0 ∧ actions tr = [NewConnID id]
    else
      match spec_variant conn with
      | ResolveOnly =>
          s' = set_dns_resolves
                 (emplace_hint id {| resolve_conn := conn |} (m_dns_resolves s)) s0 ∧
          actions tr = [NewConnID id; ObjectCall id obj.Resolve]
      | v =>
          s' = set_connecting (emplace_hint id (construct v conn) (m_connecting s)) s0 ∧
          actions tr = [NewConnID id; ObjectCall id obj.Connect]
      end.
Proof.
  intros id s0. unfold StartConnection, spec_variant. unfold_m.
  destruct (IsDNS conn), (ResolveMode_eqb (doResolve (GetOptions conn)) RESOLVE_ONLY),
    (proxy_IsSet (GetProxy conn)); cbn; eexists _, _; (split; [done|]); split; done.
Qed.

(** C2 (amended).  Unless the destination is a DNS name with RESOLVE_ONLY
    and a proxy set, [StartConnection] takes a fresh id, makes the variant the
    specification names (Proxy if a proxy is set, else ResolveOnly for a DNS
    name with RESOLVE_ONLY, else DNS for a DNS name, else Direct), inserts it
    under the id into [m_dns_resolves] (ResolveOnly) or [m_connecting] (the
    others), and calls its [Resolve] or [Connect]. *)
Theorem start_connection_selects_variant (conn : CConnection) (s : t) :
  IsDNS conn && ResolveMode_eqb (doResolve (GetOptions conn)) RESOLVE_ONLY
  && proxy_IsSet (GetProxy conn) = false →
  let id := m_connection_index s in
  let s0 := set_connection_index (to_ConnID (id + 1)) s in
  ∃ s' tr,
    StartConnection conn s = Some (tt, s', tr) ∧
    match spec_variant conn with
    | ResolveOnly =>
        s' = set_dns_resolves
               (emplace_hint id {| resolve_conn := conn |} (m_dns_resolves s)) s0 ∧
        actions tr = [NewConnID id; ObjectCall id obj.Resolve]
    | v =>
        s' = set_connecting (emplace_hint id (construct v conn) (m_connecting s)) s0 ∧
        actions tr = [NewConnID id; ObjectCall id obj.Connect]
    end.
Proof.
  intros Hfinished id s0.
  destruct (StartConnection_cases conn s) as (s' & tr & Hrun & Hcase).
  rewrite Hfinished in Hcase. by exists s', tr.
Qed.

(** C3 (amended).  When the resolution of a DNS connection fails, the flag
    delivered to the embedder with [OnDnsFailure] is true exactly when
    [m_retries] is not zero (positive, or negative: any negative value means
    retry for ever) and the handler is not shutting down; [m_retries] is
    decremented exactly when it was greater than zero, and the object that is
    retried carries the new value. *)
Theorem resolve_failure_will_retry (s : t) (id : ConnID) (d : CDNSConnection.t) (error : Z) :
  m_connecting s !! id = Some (CDNSConn d) →
  CDNSConnection.m_bev d = false →
  CDNSConnection.m_resolved d = [] →
  CDNSConnection.m_iter d = 0%nat →
  let retries := CDNSConnection.m_retries d in
  let will_retry := negb (retries =? 0) && negb (m_shutdown s) in
  let d' := CDNSConnection.with_retries (CDNSConnection.with_request d false)
              (if retries >? 0 then retries - 1 else retries) in
  CDNSConnection.OnResolveFailure error d
  = Some (d', CDNSConnection.OnConnectionFailure RESOLVE_FAILURE error
                (CDNSConnection.m_connection d) (negb (retries =? 0))) ∧
  ∃ s' tr,
    on_dns id (DResolveFailure error) s = Some (tt, s', tr) ∧
    dns_failure_flag tr = Some will_retry ∧
    (will_retry = true → m_connecting s !! m_connection_index s = None →
     m_connecting s' !! m_connection_index s = Some (CDNSConn d')).
Proof.
  intros Hid Hbev Hres Hit retries will_retry d'.
  pose proof (OnResolveFailure_eq error d Hbev Hres Hit) as Heq. cbv zeta in Heq.
  split; [exact Heq|].
  unfold on_dns. unfold_m. rewrite Hid. cbn [dns_member]. rewrite Heq.
  unfold hand_over, OnConnectionFailure. unfold_m.
  cbn [m_connecting set_connecting m_shutdown m_request_event m_connection_index].
  rewrite lookup_insert_eq.
  change (has_flag RESOLVE_FAILURE PROXY_FAILURE) with false.
  change (has_flag RESOLVE_FAILURE RESOLVE_FAILURE) with true.
  subst will_retry. fold retries. fold d'.
  red_state. destruct (retries =? 0), (m_shutdown s); red_state;
    try (destruct (m_request_event s); eexists _, _; (split; [done|]); split; done).
  eexists _, _. split; [done|]. split; [done|].
  intros _ Hfresh. red_state. unfold emplace_hint.
  rewrite delete_insert_eq.
  assert (m_connection_index s ≠ id) as Hne by (intros E; rewrite E, Hid in Hfresh; done).
  rewrite lookup_delete_ne by done. rewrite Hfresh. apply lookup_insert_eq.
Qed.

(** C5.  When the shutdown sequence runs to its end, [m_connected],
    [m_connecting], [m_binds] and [m_dns_resolves] are empty and both counts
    are zero; whenever [PumpEvents] ends with the handler shut down, its last
    action is the [OnShutdown] callback, delivered in such a state; and the
    sequence does run to its end, every assertion holding, whenever the
    counts agree with [m_connected]. *)
Theorem shutdown_leaves_nothing (s : t) :
  m_shutdown s = false →
  (∀ r s' tr, ShutdownInt s = Some (r, s', tr) → all_empty s' ∧ m_shutdown s' = true) ∧
  (∀ block pending r s' tr,
     PumpEvents block pending s = Some (r, s', tr) →
     m_shutdown s' = true →
     r = false ∧ all_empty s' ∧ last tr = Some (Callback m_interface.OnShutdown, s')) ∧
  (counts_match s → ∃ s' tr, ShutdownInt s = Some (tt, s', tr)).
Proof.
  intros Hs. split; [|split].
  - intros r s' tr Hrun.
    destruct (ShutdownInt_Some _ _ _ _ Hs Hrun) as (-> & Ho & Hi & _).
    split; [by apply after_shutdown_all_empty|]. unfold after_shutdown. by red_state.
  - intros block pending r s' tr' Hpump Hs'.
    unfold PumpEvents in Hpump. rewrite bind_get in Hpump.
    destruct (negb (m_event_base s)).
    { unfold mret, M_ret in Hpump. simplify_eq. congruence. }
    rewrite Hs in Hpump.
    apply bind_Some in Hpump as ([] & s1 & t1 & t2 & Hloop & Hrest & ->).
    rewrite bind_get in Hrest. destruct (m_shutdown s1) eqn:Hs1.
    + pose proof (event_base_loop_shutdown _ _ _ _ _ Hloop Hs Hs1) as Hempty.
      rewrite bind_modify in Hrest. unfold callback, emit, mbind, M_bind, mret, M_ret in Hrest.
      simplify_eq. split; [done|]. split.
      * unfold all_empty in *. by red_state.
      * by rewrite last_snoc.
    + unfold mret, M_ret in Hrest. simplify_eq. congruence.
  - intros [Ho Hi].
    destruct (ShutdownInt_eq s Hs) as (tr0 & _ & Heq).
    rewrite Ho, Hi, !Z.sub_diag in Heq. cbn in Heq. by eexists _, _.
Qed.

(** C7.  When a connect attempt to one resolved address of a DNS connection
    fails, the cursor moves to the next address, the retry flag handed over
    with the failure is true exactly when another address is left or
    [m_retries] is not zero, and [m_retries] itself is unchanged. *)
Theorem dns_connect_failure_advances_cursor (event : Z) (c : CDNSConnection.t) :
  CDNSConnection.m_request c = false →
  (CDNSConnection.m_iter c < length (CDNSConnection.m_resolved c))%nat →
  ∃ a c',
    CDNSConnection.m_resolved c !! CDNSConnection.m_iter c = Some a ∧
    CDNSConnection.OnConnectFailure event c
    = Some (c', CDNSConnection.OnConnectionFailure CONNECT event
                  (resolved_connection (GetOptions (CDNSConnection.m_connection c))
                     (GetNetConfig (CDNSConnection.m_connection c))
                     (CDNSConnection.ai_addr a) (CDNSConnection.ai_addrlen a))
                  (bool_decide (S (CDNSConnection.m_iter c)
                                < length (CDNSConnection.m_resolved c))%nat
                   || bool_decide (CDNSConnection.m_retries c ≠ 0))) ∧
    CDNSConnection.m_iter c' = S (CDNSConnection.m_iter c) ∧
    CDNSConnection.m_retries c' = CDNSConnection.m_retries c ∧
    CDNSConnection.m_resolved c' = CDNSConnection.m_resolved c.
Proof. apply OnConnectFailure_eq. Qed.

(** What the handler makes of that flag: the embedder gets it masked with
    [!m_shutdown]. *)
Lemma dns_connect_failure_delivered (s : t) (id : ConnID) (d : CDNSConnection.t) (event : Z) :
  m_connecting s !! id = Some (CDNSConn d) →
  CDNSConnection.m_request d = false →
  (CDNSConnection.m_iter d < length (CDNSConnection.m_resolved d))%nat →
  ∃ s' tr,
    on_dns id (DConnectFailure event) s = Some (tt, s', tr) ∧
    connection_failure_flag tr
    = Some ((bool_decide (S (CDNSConnection.m_iter d)
                          < length (CDNSConnection.m_resolved d))%nat
             || bool_decide (CDNSConnection.m_retries d ≠ 0))
            && negb (m_shutdown s)).
Proof.
  intros Hid Hreq Hlt.
  destruct (OnConnectFailure_eq event d Hreq Hlt) as (a & d' & _ & Heq & _).
  unfold on_dns. unfold_m. rewrite Hid. cbn [dns_member]. rewrite Heq.
  unfold hand_over, OnConnectionFailure. unfold_m.
  cbn [m_connecting set_connecting m_shutdown m_request_event m_connection_index].
  rewrite lookup_insert_eq.
  change (has_flag CONNECT PROXY_FAILURE) with false.
  change (has_flag CONNECT RESOLVE_FAILURE) with false.
  red_state.
  destruct (bool_decide _ || bool_decide _), (m_shutdown s); red_state;
    try (destruct (m_request_event s)); eexists _, _; (split; [done|]); done.
Qed.

(** C8.  In every run of the handler, each outgoing entry of [m_connected]
    has had its [OnOutgoingConnection(id)] callback, and every
    [OnReadyForFirstSend(id)] comes immediately after the
    [OnOutgoingConnection] of the same id.  And the callback is delivered:
    whenever a connection that is in [m_connecting] reports that it is
    connected, in whatever state of the handler, [OnOutgoingConnected]
    delivers [OnOutgoingConnection(id)] and then [OnReadyForFirstSend(id)],
    these two callbacks and no other, and leaves the id in [m_connected]
    and no longer in [m_connecting], with the outgoing count one higher; and
    whenever the run goes on with such a report, these two callbacks are
    what it adds to those delivered so far. *)
Theorem outgoing_connection_precedes_first_send (cs : list Command) (s : t) (tr : Trace) :
  run cs new = Some (tt, s, tr) →
  (∀ id c, m_connected s !! id = Some c → IsOutgoing c = true → announced id tr) ∧
  (∀ t1 id t2,
     actions tr = t1 ++ Callback (m_interface.OnReadyForFirstSend id) :: t2 →
     ∃ t0 conn resolved,
       t1 = t0 ++ [Callback (m_interface.OnOutgoingConnection id conn resolved)]) ∧
  (∀ s1 id moved conn resolved,
     m_connecting s1 !! id = Some moved →
     ∃ s2 tr2,
       OnOutgoingConnected id conn resolved s1 = Some (tt, s2, tr2) ∧
       callbacks tr2 = [m_interface.OnOutgoingConnection id conn resolved;
                        m_interface.OnReadyForFirstSend id] ∧
       m_connecting s2 !! id = None ∧
       is_Some (m_connected s2 !! id) ∧
       m_outgoing_conn_count s2 = m_outgoing_conn_count s1 + 1) ∧
  (∀ id conn resolved s2 tr2,
     run (cs ++ [Do (EvOnOutgoingConnected id conn resolved)]) new = Some (tt, s2, tr2) →
     callbacks tr2
     = callbacks tr ++ [m_interface.OnOutgoingConnection id conn resolved;
                        m_interface.OnReadyForFirstSend id] ∧
     is_Some (m_connected s2 !! id) ∧ m_connecting s2 !! id = None).
Proof.
  intros Hrun. destruct (sound_run cs _ _ _ _ Hrun) as (_ & Hch & Han & _).
  assert (∀ s1 id moved conn resolved,
            m_connecting s1 !! id = Some moved →
            ∃ s2 tr2,
              OnOutgoingConnected id conn resolved s1 = Some (tt, s2, tr2) ∧
              callbacks tr2 = [m_interface.OnOutgoingConnection id conn resolved;
                               m_interface.OnReadyForFirstSend id] ∧
              m_connecting s2 !! id = None ∧
              is_Some (m_connected s2 !! id) ∧
              m_outgoing_conn_count s2 = m_outgoing_conn_count s1 + 1) as Hdeliver.
  { intros s1 id moved conn resolved Hid.
    unfold OnOutgoingConnected. unfold_m. rewrite Hid.
    eexists _, _. split; [done|]. split; [done|]. red_state.
    split; [apply lookup_delete_eq|]. split; [|done].
    unfold emplace_hint. destruct (m_connected s1 !! id) eqn:Hc; [by rewrite Hc|].
    rewrite lookup_insert_eq. done. }
  split; [|split; [|split; [done|]]].
  - apply (Han []). intros id c Hid. unfold new in Hid. red_state.
    by rewrite lookup_empty in Hid.
  - intros t1 id t2 Hsplit.
    destruct (chained_split None _ _ _ _ _ Hch Hsplit eq_refl)
      as (q & Hlast & conn & resolved & Hq).
    subst q. change (option_list None ++ t1) with t1 in Hlast.
    apply last_Some in Hlast as [t0 Ht0]. subst t1.
    by exists t0, conn, resolved.
  - intros id conn resolved s2 tr2 Hnext.
    rewrite (run_app _ _ _ _ _ Hrun) in Hnext.
    destruct (run [Do (EvOnOutgoingConnected id conn resolved)] s)
      as [[[[] s3] t3]|] eqn:Hlast; [|done].
    simplify_eq.
    unfold run in Hlast. cbn [for_each exec dispatch] in Hlast.
    apply bind_Some in Hlast as ([] & s4 & t4 & t5 & H4 & H5 & ->).
    unfold skip, mret, M_ret in H5. simplify_eq. rewrite app_nil_r.
    apply bind_Some in H4 as ([] & s5 & t5 & t6 & Hdir & Hconn & ->).
    assert (s5 = s ∧ t5 = []) as [-> ->].
    { unfold direction_is in Hdir. open_run Hdir; done. }
    destruct (m_connecting s !! id) as [moved|] eqn:Hid.
    2:{ unfold OnOutgoingConnected in Hconn. rewrite bind_get, Hid in Hconn. done. }
    destruct (Hdeliver s id moved conn resolved Hid) as (s2' & tr2' & E & Hcb & Hcg & Hcd & _).
    rewrite E in Hconn. simplify_eq. cbn [app].
    unfold callbacks in *. rewrite actions_app, omap_app, Hcb. done.
Qed.

(** C9.  When the embedder's [OnIncomingConnection] returns false, the
    connection leaves [m_connecting] and is dropped: [m_connected] and
    [m_incoming_conn_count] are as before, and so is every other field of
    the handler. *)
Theorem declined_incoming_is_dropped (s : t) (id : ConnID) (conn resolved : CConnection)
    (moved : ConnectionBase) :
  m_connecting s !! id = Some moved →
  let s' := set_connecting (delete id (m_connecting s)) s in
  OnIncomingConnected id conn resolved false s
  = Some (tt, s', [(Callback (m_interface.OnIncomingConnection id conn resolved), s')]) ∧
  m_connecting s' !! id = None ∧
  m_connected s' = m_connected s ∧
  m_incoming_conn_count s' = m_incoming_conn_count s.
Proof.
  intros Hid s'. split.
  - unfold OnIncomingConnected. unfold_m. rewrite Hid. done.
  - subst s'. red_state. split; [apply lookup_delete_eq|done].
Qed.

(** C10.  For an id that is not in [m_connected], [Send] returns false and
    [CloseConnection], [PauseRecv], [UnpauseRecv] and [SetRateLimit] return;
    none of them fails, calls anything or changes the state. *)
Theorem unknown_id_is_noop (s : t) (id : ConnID) (data : list Z)
    (written immediately : bool) (limit : CRateLimit) :
  m_connected s !! id = None →
  Send id data written s = Some (false, s, []) ∧
  CloseConnection id immediately s = Some (tt, s, []) ∧
  PauseRecv id s = Some (tt, s, []) ∧
  UnpauseRecv id s = Some (tt, s, []) ∧
  SetRateLimit id limit s = Some (tt, s, []).
Proof.
  intros Hid.
  unfold Send, CloseConnection, PauseRecv, UnpauseRecv, SetRateLimit, with_connected.
  unfold_m. rewrite Hid. simpl. done.
Qed.

(** * Further properties *)

(** ** The DNS connection over several reports *)

Lemma failed_lookups_flags (k : nat) (error : Z) (c : CDNSConnection.t) :
  idle c → CDNSConnection.m_request c = false →
  let r := CDNSConnection.m_retries c in
  ∃ c',
    failed_lookups k error c
    = Some (c', (λ i : nat, bool_decide (r < 0 ∨ Z.of_nat i < r)) <$> seq 0 k) ∧
    CDNSConnection.m_retries c' = (if r <? 0 then r else Z.max 0 (r - Z.of_nat k)) ∧
    CDNSConnection.m_connection c' = CDNSConnection.m_connection c ∧
    idle c' ∧ CDNSConnection.m_request c' = false.
Proof.
  revert c. induction k as [|k IH]; intros c (Hbev & Hres & Hiter) Hreq r.
  - exists c. cbn. repeat split; try done. destruct (r <? 0) eqn:?; lia.
  - cbn [failed_lookups].
    unfold CDNSConnection.Connect, CDNSConnection.DoResolve, CDNSConnection.at_end,
      CDNSConnection.empty.
    rewrite Hbev, Hreq, Hres, Hiter. cbn -[CDNSConnection.OnResolveFailure failed_lookups].
    rewrite OnResolveFailure_eq by done.
    cbn [CDNSConnection.with_request CDNSConnection.m_retries].
    fold r.
    set (c2 := CDNSConnection.with_retries _ _).
    destruct (IH c2) as (c' & Hrun & Hret & Hconn & Hidle & Hreq'); [by repeat split|done|].
    exists c'. rewrite Hrun. subst c2.
    cbn [CDNSConnection.with_retries CDNSConnection.with_request CDNSConnection.m_retries
         CDNSConnection.m_connection] in *.
    repeat split; try done; try apply Hidle.
    + f_equal. f_equal. cbn [seq fmap list_fmap].
      assert (negb (r =? 0) = bool_decide (r < 0 ∨ Z.of_nat 0 < r)) as ->.
      { destruct (r =? 0) eqn:?; cbn; symmetry;
          [apply bool_decide_eq_false|apply bool_decide_eq_true]; lia. }
      f_equal.
      rewrite <- seq_shift, <- list_fmap_compose. apply list_fmap_ext.
      intros _ i _. cbn. apply bool_decide_ext.
      destruct (r >? 0) eqn:?; lia.
    + rewrite Hret. repeat case_match; lia.
Qed.

(** X1.  A DNS connection constructed with [nRetries = n] reports "will
    retry" for exactly the first [n] of any run of failed lookups, and for
    every one of them when [n] is negative; the counter ends at
    [max 0 (n - k)], or stays at [n] when negative. *)
Theorem dns_lookup_retry_budget (conn : CConnection) (k : nat) (error : Z) :
  let n := nRetries (GetOptions conn) in
  ∃ c',
    failed_lookups k error (CDNSConnection.new conn)
    = Some (c', (λ i : nat, bool_decide (n < 0 ∨ Z.of_nat i < n)) <$> seq 0 k) ∧
    CDNSConnection.m_retries c' = (if n <? 0 then n else Z.max 0 (n - Z.of_nat k)).
Proof.
  intros n.
  destruct (failed_lookups_flags k error (CDNSConnection.new conn))
    as (c' & Hrun & Hret & _); [done|done|].
  exists c'. split; [exact Hrun|exact Hret].
Qed.

Lemma nth_attempt_cursor (response : list CDNSConnection.addrinfo) (event : Z) (j : nat)
    (c : CDNSConnection.t) (a : CDNSConnection.addrinfo) :
  idle c → response !! j = Some a →
  ∃ c',
    nth_attempt response event j c
    = Some (c', CDNSConnection.BareConnect a
                  (nInitialTimeout (GetOptions (CDNSConnection.m_connection c)))) ∧
    CDNSConnection.m_iter c' = j ∧
    CDNSConnection.m_resolved c' = response ∧
    CDNSConnection.m_bev c' = true ∧
    CDNSConnection.m_request c' = false ∧
    CDNSConnection.m_retries c' = CDNSConnection.m_retries c ∧
    CDNSConnection.m_connection c' = CDNSConnection.m_connection c.
Proof.
  intros (Hbev & Hres & Hiter). revert a.
  induction j as [|j IH]; intros a Ha.
  - cbn [nth_attempt].
    unfold CDNSConnection.OnResolveSuccess, CDNSConnection.ConnectResolved,
      CDNSConnection.at_end, CDNSConnection.empty.
    rewrite Hbev, Hres, Hiter. cbn.
    destruct response as [|a0 rest]; [done|]. cbn in Ha. simplify_eq. cbn.
    rewrite Hbev. cbn.
    eexists. split; [reflexivity|]. by cbn.
  - assert (is_Some (response !! j)) as [b Hb].
    { apply lookup_lt_is_Some. apply lookup_lt_Some in Ha. lia. }
    destruct (IH b Hb) as (c1 & Hrun & Hit & Hrs & Hbv & Hrq & Hrt & Hcn).
    cbn [nth_attempt]. rewrite Hrun.
    destruct (OnConnectFailure_eq event c1) as (b' & c2 & Hb' & Hfail & Hit2 & Hrt2 & Hrs2);
      [done| rewrite Hit, Hrs; apply lookup_lt_Some in Ha; lia |].
    rewrite Hfail.
    assert (CDNSConnection.m_bev c2 = false ∧ CDNSConnection.m_request c2 = false ∧
            CDNSConnection.m_connection c2 = CDNSConnection.m_connection c1)
      as (Hbv2 & Hrq2 & Hcn2).
    { unfold CDNSConnection.OnConnectFailure, CDNSConnection.ConnectionFailure in Hfail.
      repeat case_match; simplify_eq. by cbn. }
    unfold CDNSConnection.Connect, CDNSConnection.ConnectResolved, CDNSConnection.at_end,
      CDNSConnection.empty.
    rewrite Hbv2, Hrq2, Hit2, Hrs2, Hit, Hrs, Ha. cbn [negb andb].
    assert ((S j =? length response)%nat = false) as ->.
    { apply Nat.eqb_neq. apply lookup_lt_Some in Ha. lia. }
    destruct response as [|a0 rest]; [done|]. cbn [negb andb].
    eexists. split; [rewrite Hcn2, Hcn; reflexivity|].
    cbn. repeat split; try done; congruence.
Qed.

(** X2.  After a lookup has answered with a list of addresses, the connect
    attempts go through the list in order: attempt number [j], reached after
    [j] connect failures each followed by [Connect], is a [BareConnect] to
    the address at position [j], with the destination's initial timeout. *)
Theorem dns_addresses_tried_in_order (response : list CDNSConnection.addrinfo) (event : Z)
    (j : nat) (c : CDNSConnection.t) (a : CDNSConnection.addrinfo) :
  idle c → response !! j = Some a →
  ∃ c',
    nth_attempt response event j c
    = Some (c', CDNSConnection.BareConnect a
                  (nInitialTimeout (GetOptions (CDNSConnection.m_connection c)))) ∧
    CDNSConnection.m_iter c' = j ∧
    CDNSConnection.m_retries c' = CDNSConnection.m_retries c.
Proof.
  intros Hidle Ha.
  destruct (nth_attempt_cursor response event j c a Hidle Ha)
    as (c' & Hrun & Hit & _ & _ & _ & Hrt & _).
  by exists c'.
Qed.

(** X3.  What [OnResolveSuccess] does with the answer of a lookup: with an
    empty answer the assertion [m_iter != m_resolved.end()] of
    [ConnectResolved] fails; otherwise the first address is connected to with
    the initial timeout, or, when no socket can be created, the failure of
    that address is reported, with "will retry" when another address or a
    retry is left. *)
Theorem dns_resolve_success_cases (bev_created : bool)
    (response : list CDNSConnection.addrinfo) (c : CDNSConnection.t) :
  idle c →
  CDNSConnection.OnResolveSuccess bev_created response c
  = match response with
    | [] => None
    | a :: rest =>
        let c1 := CDNSConnection.with_resolved (CDNSConnection.with_request c false)
                    response 0%nat in
        if bev_created then
          Some (CDNSConnection.with_bev c1 true,
                CDNSConnection.BareConnect a
                  (nInitialTimeout (GetOptions (CDNSConnection.m_connection c))))
        else
          Some (CDNSConnection.with_resolved c1 response 1%nat,
                CDNSConnection.OnConnectionFailure CONNECT CDNSConnection.BEV_EVENT_ERROR
                  (resolved_connection (GetOptions (CDNSConnection.m_connection c))
                     (GetNetConfig (CDNSConnection.m_connection c))
                     (CDNSConnection.ai_addr a) (CDNSConnection.ai_addrlen a))
                  (bool_decide (rest ≠ []) || bool_decide (CDNSConnection.m_retries c ≠ 0)))
    end.
Proof.
  intros (Hbev & Hres & Hiter).
  unfold CDNSConnection.OnResolveSuccess, CDNSConnection.ConnectResolved,
    CDNSConnection.ConnectionFailure, CDNSConnection.at_end, CDNSConnection.empty.
  rewrite Hbev, Hres, Hiter.
  destruct response as [|a rest]; cbn; rewrite ?Hbev; cbn; [done|].
  destruct bev_created; cbn; rewrite ?Hbev; cbn; [done|].
  do 3 f_equal.
  assert (negb (CDNSConnection.m_retries c =? 0)
          = bool_decide (CDNSConnection.m_retries c ≠ 0)) as ->.
  { destruct (CDNSConnection.m_retries c =? 0) eqn:Hr; cbn; symmetry;
      [apply bool_decide_eq_false|apply bool_decide_eq_true]; lia. }
  f_equal. by destruct rest.
Qed.

(** X4.  A successful connect puts the DNS connection back into the state
    its constructor leaves it in (no addresses, the full retry budget), and
    reports the address the cursor was at; the next [Connect] therefore
    starts a new lookup. *)
Theorem dns_connect_success_resets (c : CDNSConnection.t) (a : CDNSConnection.addrinfo)
    (bev_created : bool) :
  CDNSConnection.m_bev c = true →
  CDNSConnection.m_request c = false →
  CDNSConnection.m_resolved c !! CDNSConnection.m_iter c = Some a →
  let conn := CDNSConnection.m_connection c in
  CDNSConnection.OnConnectSuccess c
  = Some (CDNSConnection.new conn,
          CDNSConnection.OnOutgoingConnected
            (resolved_connection (GetOptions conn) (GetNetConfig conn)
               (CDNSConnection.ai_addr a) (CDNSConnection.ai_addrlen a))) ∧
  ∃ c' hint,
    CDNSConnection.Connect bev_created (CDNSConnection.new conn)
    = Some (c', CDNSConnection.Resolve (GetHost conn) (GetPort conn) hint) ∧
    CDNSConnection.m_retries c' = nRetries (GetOptions conn).
Proof.
  intros Hbev Hreq Ha conn. split.
  - unfold CDNSConnection.OnConnectSuccess, CDNSConnection.at_end, CDNSConnection.empty.
    rewrite Hbev, Hreq, Ha. cbn [negb andb].
    pose proof (lookup_lt_Some _ _ _ Ha) as Hlt.
    assert ((CDNSConnection.m_iter c =? length (CDNSConnection.m_resolved c))%nat = false)
      as -> by (apply Nat.eqb_neq; lia).
    destruct (CDNSConnection.m_resolved c); [cbn in Hlt; lia|]. cbn [negb andb].
    unfold CDNSConnection.new, CDNSConnection.with_bev, CDNSConnection.with_retries,
      CDNSConnection.with_resolved. cbn. by rewrite Hreq.
  - by eexists _, _.
Qed.

(** X5.  When the connect to the last address of the list has failed, the
    list is kept with the cursor at its end: a further [Connect] takes the
    lookup branch and fails the assertion [m_resolved.empty()] of
    [DoResolve].  After [Cancel], [Connect] starts a new lookup. *)
Theorem dns_connect_after_last_address (event : Z) (c c' : CDNSConnection.t)
    (o : CDNSConnection.Out) (bev_created : bool) :
  CDNSConnection.OnConnectFailure event c = Some (c', o) →
  S (CDNSConnection.m_iter c) = length (CDNSConnection.m_resolved c) →
  CDNSConnection.Connect bev_created c' = None ∧
  ∃ c'' hint,
    CDNSConnection.Connect bev_created (CDNSConnection.Cancel c')
    = Some (c'', CDNSConnection.Resolve (GetHost (CDNSConnection.m_connection c))
                   (GetPort (CDNSConnection.m_connection c)) hint).
Proof.
  intros Hfail Hlast.
  unfold CDNSConnection.OnConnectFailure, CDNSConnection.ConnectionFailure in Hfail.
  repeat case_match; simplify_eq. split.
  - unfold CDNSConnection.Connect, CDNSConnection.DoResolve, CDNSConnection.at_end,
      CDNSConnection.empty.
    cbn [CDNSConnection.m_bev CDNSConnection.m_request CDNSConnection.m_resolved
         CDNSConnection.m_iter CDNSConnection.with_resolved CDNSConnection.with_bev].
    rewrite Hlast, Nat.eqb_refl.
    destruct (CDNSConnection.m_resolved c); [done|].
    by destruct (CDNSConnection.m_request c).
  - by eexists _, _.
Qed.

Lemma well_formed_member (e : DNSEvent) (c c' : CDNSConnection.t) (o : CDNSConnection.Out) :
  well_formed c → dns_member e c = Some (c', o) → well_formed c'.
Proof.
  destruct c as [conn r l i rq bv]. unfold well_formed. cbn.
  intros (Hle & Hreq & Hbev) Hrun.
  destruct e; cbn [dns_member] in Hrun;
    unfold CDNSConnection.Connect, CDNSConnection.OnResolveFailure,
      CDNSConnection.OnResolveSuccess, CDNSConnection.OnConnectSuccess,
      CDNSConnection.OnConnectFailure, CDNSConnection.DoResolve,
      CDNSConnection.ConnectResolved, CDNSConnection.ConnectionFailure,
      CDNSConnection.at_end, CDNSConnection.empty in Hrun;
    cbn in Hrun;
    destruct rq, bv; cbn in Hrun; try done;
    repeat (case_match; simplify_eq; cbn in * );
    repeat match goal with
           | H : _ !! _ = Some _ |- _ => apply lookup_lt_Some in H; cbn in H
           | H : _ && _ = true |- _ => apply andb_true_iff in H as [? ?]
           | H : negb _ = true |- _ => apply negb_true_iff in H
           | H : (_ =? _)%nat = true |- _ => apply Nat.eqb_eq in H
           | H : (_ =? _)%nat = false |- _ => apply Nat.eqb_neq in H
           end;
    repeat split; intros; try done; try lia.
Qed.

Lemma well_formed_Cancel (c : CDNSConnection.t) : well_formed (CDNSConnection.Cancel c).
Proof. unfold well_formed. cbn. repeat split; intros; try done; lia. Qed.

(** X6.  Whatever reports and cancellations a DNS connection receives after
    its construction, as long as no assertion fails, the cursor stays within
    the address list, a lookup is under way only while there is neither a
    socket nor an address, and a socket exists only while the cursor is at
    an address. *)
Theorem dns_state_stays_well_formed (conn : CConnection) (steps : list DNSStep)
    (c : CDNSConnection.t) :
  dns_run steps (CDNSConnection.new conn) = Some c → well_formed c.
Proof.
  assert (∀ c0, well_formed c0 → dns_run steps c0 = Some c → well_formed c) as Hgen.
  { induction steps as [|[e|] steps IH]; intros c0 Hwf Hrun; cbn [dns_run] in Hrun.
    - by simplify_eq.
    - destruct (dns_member e c0) as [[c1 o]|] eqn:He; [|done].
      exact (IH c1 (well_formed_member e c0 c1 o Hwf He) Hrun).
    - exact (IH _ (well_formed_Cancel c0) Hrun). }
  apply Hgen. unfold well_formed. cbn. repeat split; intros; try done; lia.
Qed.

Lemma within_budget_member (conn : CConnection) (e : DNSEvent) (c c' : CDNSConnection.t)
    (o : CDNSConnection.Out) :
  within_budget conn c → dns_member e c = Some (c', o) → within_budget conn c'.
Proof.
  destruct c as [conn0 r l i rq bv]. unfold within_budget. cbn.
  intros (-> & Hr) Hrun.
  destruct e; cbn [dns_member] in Hrun;
    unfold CDNSConnection.Connect, CDNSConnection.OnResolveFailure,
      CDNSConnection.OnResolveSuccess, CDNSConnection.OnConnectSuccess,
      CDNSConnection.OnConnectFailure, CDNSConnection.DoResolve,
      CDNSConnection.ConnectResolved, CDNSConnection.ConnectionFailure,
      CDNSConnection.at_end, CDNSConnection.empty in Hrun;
    cbn in Hrun;
    destruct rq, bv; cbn in Hrun; try done;
    repeat (case_match; simplify_eq; cbn in * );
    split; try done; try lia.
Qed.

(** X7.  Whatever reports and cancellations a DNS connection receives after
    its construction, its destination stays the one it was constructed with
    and its retry counter stays within the budget [nRetries] of that
    destination: equal to it when the budget is negative, otherwise between
    0 and the budget. *)
Theorem dns_retries_within_budget (conn : CConnection) (steps : list DNSStep)
    (c : CDNSConnection.t) :
  dns_run steps (CDNSConnection.new conn) = Some c → within_budget conn c.
Proof.
  assert (∀ c0, within_budget conn c0 → dns_run steps c0 = Some c → within_budget conn c)
    as Hgen.
  { induction steps as [|[e|] steps IH]; intros c0 Hwb Hrun; cbn [dns_run] in Hrun.
    - by simplify_eq.
    - destruct (dns_member e c0) as [[c1 o]|] eqn:He; [|done].
      exact (IH c1 (within_budget_member conn e c0 c1 o Hwb He) Hrun).
    - apply (IH (CDNSConnection.Cancel c0)); [|done].
      destruct Hwb as [Hc Hr]. by split. }
  apply Hgen. unfold within_budget. cbn. split; [done|].
  destruct (nRetries (GetOptions conn) <? 0) eqn:Hn; lia.
Qed.

(** ** Reports and commands, one at a time *)

Lemma set_connecting_same s : set_connecting (m_connecting s) s = s.
Proof. by destruct s. Qed.
Lemma set_connected_same s : set_connected (m_connected s) s = s.
Proof. by destruct s. Qed.
Lemma set_dns_resolves_same s : set_dns_resolves (m_dns_resolves s) s = s.
Proof. by destruct s. Qed.
Lemma set_binds_same s : set_binds (m_binds s) s = s.
Proof. by destruct s. Qed.

(** X8.  A report about an id that is in none of the maps: the member
    functions that look the id up with [find] ([OnDisconnected],
    [OnConnectionFailure], [OnIncomingConnected], [OnOutgoingConnected],
    [OnResolveFailure]) fail their assertion, while [OnResolveComplete] and
    [OnListenFailure], which only [erase] it, deliver their callback and
    leave the handler as it was. *)
Theorem report_for_unknown_id (s : t) (id : ConnID) (conn resolved : CConnection)
    (type : ConnectionFailureType) (error : Z) (flag : bool) (answers : list CConnection) :
  m_connected s !! id = None →
  m_connecting s !! id = None →
  m_dns_resolves s !! id = None →
  m_binds s !! id = None →
  OnDisconnected id flag s = None ∧
  OnConnectionFailure id type error conn flag s = None ∧
  OnIncomingConnected id conn resolved flag s = None ∧
  OnOutgoingConnected id conn resolved s = None ∧
  OnResolveFailure id conn error flag s = None ∧
  OnResolveComplete id conn answers s
  = Some (tt, s, [(Callback (m_interface.OnDnsResponse conn answers), s)]) ∧
  OnListenFailure id conn s = Some (tt, s, [(Callback (m_interface.OnBindFailure conn), s)]).
Proof.
  intros Hcd Hcg Hdns Hb.
  unfold OnDisconnected, OnConnectionFailure, OnIncomingConnected, OnOutgoingConnected,
    OnResolveFailure, OnResolveComplete, OnListenFailure.
  unfold_m. rewrite Hcd, Hcg, Hdns.
  repeat split; try done.
  - cbn. by rewrite delete_id, set_dns_resolves_same by done.
  - cbn. by rewrite delete_id, set_binds_same by done.
Qed.

(** X9.  A command for an id that is in [m_connected] makes exactly one call,
    on the object under that id, and leaves the handler state as it was;
    [Send] returns what the object's [Write] returned, and
    [CloseConnection] calls [Disconnect] or [DisconnectWhenFinished] by its
    flag. *)
Theorem command_for_connected_id (s : t) (id : ConnID) (c : ConnectionBase) (data : list Z)
    (written immediately : bool) (limit : CRateLimit) :
  m_connected s !! id = Some c →
  Send id data written s = Some (written, s, [(ObjectCall id (obj.Write data), s)]) ∧
  CloseConnection id immediately s
  = Some (tt, s, [(ObjectCall id (if immediately then obj.Disconnect
                                  else obj.DisconnectWhenFinished), s)]) ∧
  PauseRecv id s = Some (tt, s, [(ObjectCall id obj.PauseRecv, s)]) ∧
  UnpauseRecv id s = Some (tt, s, [(ObjectCall id obj.UnpauseRecv, s)]) ∧
  SetRateLimit id limit s = Some (tt, s, [(ObjectCall id (obj.SetRateLimit limit), s)]).
Proof.
  intros Hid.
  unfold Send, CloseConnection, PauseRecv, UnpauseRecv, SetRateLimit, with_connected.
  unfold_m. by rewrite Hid.
Qed.

(** X10.  [Bind] takes an id from the counter whether or not the listener
    could be bound.  When it could not, nothing else changes and [false] is
    returned; when it could, the listener is stored under that id and
    enabled, and a later [OnListenFailure] for the id reports
    [OnBindFailure] and leaves [m_binds] as it was before the [Bind]. *)
Theorem bind_then_listen_failure (s : t) (conn : CConnection) :
  m_binds s !! m_connection_index s = None →
  let id := m_connection_index s in
  let s0 := set_connection_index (to_ConnID (id + 1)) s in
  Bind conn false s = Some (false, s0, [(NewConnID id, s)]) ∧
  ∃ s1 tr1 s2 tr2,
    Bind conn true s = Some (true, s1, tr1) ∧
    actions tr1 = [NewConnID id; ObjectCall id obj.Enable] ∧
    m_binds s1 = <[id := {| listen_conn := conn; listen_enabled := true |}]> (m_binds s) ∧
    OnListenFailure id conn s1 = Some (tt, s2, tr2) ∧
    actions tr2 = [Callback (m_interface.OnBindFailure conn)] ∧
    s2 = s0.
Proof.
  intros Hfresh id s0. split; [done|].
  unfold Bind, OnListenFailure. unfold_m. red_state.
  eexists _, _, _, _. split; [reflexivity|]. split; [done|]. red_state.
  rewrite (emplace_hint_None _ _ _ Hfresh).
  split; [|split; [reflexivity|split; [done|]]].
  - fold id. rewrite alter_insert_eq. done.
  - fold id. rewrite alter_insert_eq, delete_insert_eq, delete_id by done.
    subst s0. destruct s; by open_state.
Qed.

(** X11.  The life of a lookup-only request.  [StartConnection] of a DNS
    destination with [RESOLVE_ONLY] and no proxy stores the request in
    [m_dns_resolves] under the new id and touches neither [m_connecting] nor
    the counts.  [OnResolveComplete] delivers [OnDnsResponse] and removes the
    request.  [OnResolveFailure] delivers [OnDnsFailure] with
    [retry && !m_shutdown]; with that flag set the request stays and
    [RetryResolve] is called on it, otherwise the request is removed. *)
Theorem resolve_only_lifecycle (s : t) (conn : CConnection) (answers : list CConnection)
    (error : Z) (retry : bool) :
  IsDNS conn = true →
  doResolve (GetOptions conn) = RESOLVE_ONLY →
  proxy_IsSet (GetProxy conn) = false →
  m_dns_resolves s !! m_connection_index s = None →
  let id := m_connection_index s in
  let will_retry := retry && negb (m_shutdown s) in
  ∃ s1 tr1,
    StartConnection conn s = Some (tt, s1, tr1) ∧
    m_dns_resolves s1 = <[id := {| resolve_conn := conn |}]> (m_dns_resolves s) ∧
    m_connecting s1 = m_connecting s ∧
    m_outgoing_conn_count s1 = m_outgoing_conn_count s ∧
    (∃ s2 tr2,
       OnResolveComplete id conn answers s1 = Some (tt, s2, tr2) ∧
       actions tr2 = [Callback (m_interface.OnDnsResponse conn answers)] ∧
       m_dns_resolves s2 = m_dns_resolves s) ∧
    (∃ s2 tr2,
       OnResolveFailure id conn error retry s1 = Some (tt, s2, tr2) ∧
       callbacks tr2 = [m_interface.OnDnsFailure conn will_retry] ∧
       (ObjectCall id obj.RetryResolve ∈ actions tr2 ↔ will_retry = true) ∧
       m_dns_resolves s2 = if will_retry then m_dns_resolves s1 else m_dns_resolves s).
Proof.
  intros Hdns Hmode Hproxy Hfresh id will_retry.
  unfold StartConnection. unfold_m. rewrite Hdns, Hmode, Hproxy. cbn [ResolveMode_eqb andb].
  eexists _, _. split; [reflexivity|]. red_state.
  rewrite (emplace_hint_None _ _ _ Hfresh). fold id.
  split; [done|]. split; [done|]. split; [done|]. split.
  - unfold OnResolveComplete. unfold_m. eexists _, _. split; [reflexivity|].
    split; [done|]. red_state. by rewrite delete_insert_eq, delete_id.
  - unfold OnResolveFailure. unfold_m. red_state. rewrite lookup_insert_eq.
    fold will_retry. destruct will_retry; red_state; destruct (m_request_event s);
      red_state;
      (eexists _, _; split; [reflexivity|]); red_state;
      (split; [done|]); (split; [cbn; set_solver|]); try done;
      by rewrite delete_insert_eq, delete_id.
Qed.

(** X12.  What [OnConnectionFailure] does for an id in [m_connecting].  One
    callback is delivered: [OnProxyFailure] when the failure kind has the
    proxy bit, else [OnDnsFailure] when it has the lookup bit, else
    [OnConnectionFailure]; its flag is [retry && !m_shutdown].  With the
    flag set the same object is put back under the next id and [Retry] is
    called on it; otherwise the object is dropped.  [m_connected] and the
    two counts are not touched. *)
Theorem connection_failure_report (s : t) (id : ConnID) (ptr : ConnectionBase)
    (type : ConnectionFailureType) (error : Z) (failed : CConnection) (retry : bool) :
  m_connecting s !! id = Some ptr →
  let will_retry := retry && negb (m_shutdown s) in
  let newId := m_connection_index s in
  ∃ s' tr,
    OnConnectionFailure id type error failed retry s = Some (tt, s', tr) ∧
    callbacks tr = [failure_callback type failed will_retry] ∧
    allocated tr = (if will_retry then [newId] else []) ∧
    (ObjectCall newId (obj.Retry newId) ∈ actions tr ↔ will_retry = true) ∧
    m_connecting s'
    = (if will_retry then emplace_hint newId ptr (delete id (m_connecting s))
       else delete id (m_connecting s)) ∧
    m_connected s' = m_connected s ∧
    m_outgoing_conn_count s' = m_outgoing_conn_count s ∧
    m_incoming_conn_count s' = m_incoming_conn_count s.
Proof.
  intros Hid will_retry newId.
  unfold OnConnectionFailure, failure_callback. unfold_m. rewrite Hid. red_state.
  fold will_retry.
  destruct (has_flag type PROXY_FAILURE), (has_flag type RESOLVE_FAILURE);
    red_state; fold will_retry;
    destruct (m_shutdown s) eqn:Hs, retry; subst will_retry; red_state;
    try rewrite Hs; red_state;
    try (destruct (m_request_event s)); red_state;
    (eexists _, _; split; [reflexivity|]); red_state;
    repeat split; try done; cbn; set_solver.
Qed.

(** X13.  An outgoing connect that is established and later lost.
    [OnOutgoingConnected] moves the object from [m_connecting] to
    [m_connected] under the same id and counts it; [OnDisconnected] takes it
    out again and restores the count, so [m_connected] and the counts are as
    before the connect.  With [reconnect && !m_shutdown] the same object is
    put back into [m_connecting] under the next id, otherwise it is
    dropped. *)
Theorem connect_then_disconnect (s : t) (id : ConnID) (c : ConnectionBase)
    (conn resolved : CConnection) (reconnect : bool) :
  m_connecting s !! id = Some c →
  m_connected s !! id = None →
  IsOutgoing c = true →
  let again := reconnect && negb (m_shutdown s) in
  let newId := m_connection_index s in
  ∃ s1 tr1 s2 tr2,
    OnOutgoingConnected id conn resolved s = Some (tt, s1, tr1) ∧
    m_connected s1 = <[id := c]> (m_connected s) ∧
    m_connecting s1 = delete id (m_connecting s) ∧
    m_outgoing_conn_count s1 = m_outgoing_conn_count s + 1 ∧
    OnDisconnected id reconnect s1 = Some (tt, s2, tr2) ∧
    callbacks tr2 = [m_interface.OnDisconnected id again] ∧
    m_connected s2 = m_connected s ∧
    m_outgoing_conn_count s2 = m_outgoing_conn_count s ∧
    m_incoming_conn_count s2 = m_incoming_conn_count s ∧
    m_connecting s2
    = (if again then emplace_hint newId c (delete id (m_connecting s))
       else delete id (m_connecting s)).
Proof.
  intros Hcg Hcd Hout again newId.
  unfold OnOutgoingConnected, OnDisconnected. unfold_m. rewrite Hcg. red_state.
  rewrite (emplace_hint_None _ _ _ Hcd).
  destruct again eqn:Hagain; destruct (m_request_event s) eqn:Hreq.
  all: eexists _, _; eexists; eexists; (split; [reflexivity|]); red_state.
  all: split; [done|]; split; [done|]; split; [done|].
  all: rewrite lookup_insert_eq, Hout; red_state; subst again; rewrite Hagain; red_state.
  all: rewrite ?Hreq.
  all: split; [reflexivity|]; red_state.
  all: rewrite delete_insert_eq, delete_id by done.
  all: repeat split; try done; lia.
Qed.

(** X14.  An accepted socket.  [OnIncomingConnection] stores an incoming
    connection object under the next id and calls [Connect] on it; when the
    embedder then accepts it in [OnIncomingConnected], the object is in
    [m_connected] under that same id, the incoming count is one higher,
    [m_connecting] is as it was, and the embedder was asked before the rate
    limit group was set. *)
Theorem accepted_socket_becomes_connected (s : t) (bind conn resolved : CConnection)
    (sock address socklen : Z) :
  m_connecting s !! m_connection_index s = None →
  m_connected s !! m_connection_index s = None →
  let id := m_connection_index s in
  ∃ s1 tr1 s2 tr2,
    OnIncomingConnection bind sock address socklen s = Some (tt, s1, tr1) ∧
    actions tr1 = [NewConnID id; ObjectCall id obj.Connect] ∧
    OnIncomingConnected id conn resolved true s1 = Some (tt, s2, tr2) ∧
    actions tr2 = [Callback (m_interface.OnIncomingConnection id conn resolved);
                   ObjectCall id (obj.SetRateLimitGroup incoming_rate_limit)] ∧
    m_connected s2 = <[id := CIncomingConn bind sock address socklen]> (m_connected s) ∧
    m_connecting s2 = m_connecting s ∧
    m_incoming_conn_count s2 = m_incoming_conn_count s + 1 ∧
    m_outgoing_conn_count s2 = m_outgoing_conn_count s.
Proof.
  intros Hcg Hcd id.
  unfold OnIncomingConnection. unfold_m. red_state.
  eexists _, _. eexists. eexists. split; [reflexivity|]. split; [done|].
  unfold OnIncomingConnected. unfold_m. red_state.
  rewrite (emplace_hint_None _ _ _ Hcg). fold id. rewrite lookup_insert_eq. red_state.
  split; [reflexivity|]. red_state.
  rewrite (emplace_hint_None _ _ _ Hcd), delete_insert_eq, delete_id by done.
  done.
Qed.

(** ** Starting, pumping and stopping *)

(** X15.  [Start] on a handler that is not running delivers [OnStartup] and
    then activates the request event, with the limit stored and
    [m_shutdown] cleared; the id counter is left where it was.  A second
    [Start] without a shutdown in between fails the assertion
    [!m_event_base]. *)
Theorem start_twice_fails (s : t) (limit limit' : Z) (r : unit) (s' : t) (tr : Trace) :
  Start limit s = Some (r, s', tr) →
  actions tr = [Callback m_interface.OnStartup; request_event_active] ∧
  m_outgoing_conn_limit s' = limit ∧
  m_shutdown s' = false ∧
  m_connection_index s' = m_connection_index s ∧
  Start limit' s' = None.
Proof.
  intros Hrun. unfold Start in Hrun. open_run Hrun.
  repeat split; try done.
  unfold Start. unfold_m. red_state. rewrite H0, H1. done.
Qed.

Lemma dispatch_handles e s r s' tr :
  dispatch e s = Some (r, s', tr) →
  m_shutdown s = false → m_shutdown s' = true →
  m_event_base s' = m_event_base s ∧
  m_dns_base s' = false ∧ m_request_event s' = false ∧ m_shutdown_event s' = false ∧
  m_connection_index s' = m_connection_index s.
Proof.
  intros Hrun Hs Hs'.
  assert (e = EvShutdownInt ∨ e ≠ EvShutdownInt) as [->|Hne]
    by (destruct e; first [by left | by right]).
  - cbn [dispatch] in Hrun.
    destruct (ShutdownInt_Some _ _ _ _ Hs Hrun) as (-> & _).
    unfold after_shutdown. red_state. done.
  - rewrite (keeps_dispatch e Hne _ _ _ _ Hrun Hs') in Hs. done.
Qed.

Lemma loop_ends_stopped pending s r s' tr :
  event_base_loop pending s = Some (r, s', tr) →
  m_shutdown s = false → m_shutdown s' = true →
  all_empty s' ∧
  m_dns_base s' = false ∧ m_request_event s' = false ∧ m_shutdown_event s' = false.
Proof.
  intros Hrun Hs Hs'. split; [by eapply event_base_loop_shutdown|].
  revert s tr Hrun Hs. induction pending as [|e rest IH]; intros s tr Hrun Hs.
  - cbn in Hrun. unfold skip, mret, M_ret in Hrun. simplify_eq. congruence.
  - cbn [event_base_loop] in Hrun.
    apply bind_Some in Hrun as ([] & s1 & t1 & t2 & H1 & H2 & ->).
    rewrite bind_get in H2. destruct (m_shutdown s1) eqn:Hs1.
    + unfold skip, mret, M_ret in H2. simplify_eq.
      by destruct (dispatch_handles _ _ _ _ _ H1 Hs Hs1) as (_ & ? & ? & ? & _).
    + by eapply IH.
Qed.

Lemma PumpEvents_cases block pending s r s' tr :
  PumpEvents block pending s = Some (r, s', tr) →
  (r = false ∧ s' = s ∧ tr = [] ∧ (m_event_base s = false ∨ m_shutdown s = true)) ∨
  (m_event_base s = true ∧ m_shutdown s = false ∧
   ∃ s1 t1,
     event_base_loop pending s = Some (tt, s1, t1) ∧
     if m_shutdown s1
     then r = false ∧ s' = set_event_base false s1 ∧
          tr = t1 ++ [(Callback m_interface.OnShutdown, s')]
     else r = true ∧ s' = s1 ∧ tr = t1).
Proof.
  unfold PumpEvents. rewrite bind_get.
  destruct (m_event_base s) eqn:Hb; cbn [negb].
  2:{ intros [= <- <- <-]. left. by repeat split; [..|left]. }
  destruct (m_shutdown s) eqn:Hs.
  { intros [= <- <- <-]. left. by repeat split; [..|right]. }
  intros ([] & s1 & t1 & t2 & H1 & H2 & ->)%bind_Some. right.
  split; [done|]. split; [done|]. exists s1, t1. split; [done|].
  rewrite bind_get in H2. destruct (m_shutdown s1).
  - unfold_m. simplify_eq. done.
  - unfold_m. simplify_eq. by rewrite app_nil_r.
Qed.

(** X16.  Once [PumpEvents] has returned [false] it keeps returning [false]
    without dispatching anything or calling the embedder again: either the
    handler was not running, or it had been shut down, or this call freed
    the event base and delivered [OnShutdown]. *)
Theorem pump_false_is_final (block block' : bool) (pending pending' : list Event)
    (s s' : t) (tr : Trace) :
  PumpEvents block pending s = Some (false, s', tr) →
  PumpEvents block' pending' s' = Some (false, s', []).
Proof.
  intros [(_ & -> & _ & Hwhy)|(_ & _ & s1 & t1 & _ & Hend)]%PumpEvents_cases.
  - unfold PumpEvents. rewrite bind_get.
    destruct Hwhy as [-> | ->]; [done|]. by destruct (m_event_base s).
  - destruct (m_shutdown s1); [|by destruct Hend].
    destruct Hend as (_ & -> & _). unfold PumpEvents. by rewrite bind_get.
Qed.

Lemma loop_keeps_running pending s r s' tr :
  EvShutdownInt ∉ pending →
  event_base_loop pending s = Some (r, s', tr) →
  m_shutdown s = false → m_shutdown s' = false.
Proof.
  revert s tr. induction pending as [|e rest IH]; intros s tr Hnin Hrun Hs.
  - cbn in Hrun. unfold skip, mret, M_ret in Hrun. by simplify_eq.
  - apply not_elem_of_cons in Hnin as [Hne Hnin].
    cbn [event_base_loop] in Hrun.
    apply bind_Some in Hrun as ([] & s1 & t1 & t2 & H1 & H2 & ->).
    rewrite bind_get in H2. destruct (m_shutdown s1) eqn:Hs1.
    + rewrite (keeps_dispatch e (not_eq_sym Hne) _ _ _ _ H1 Hs1) in Hs. done.
    + by eapply IH.
Qed.

(** X17.  Only [ShutdownInt] stops the handler.  When a running handler
    pumps events among which there is no run of [ShutdownInt], whatever else
    they are (a call of [Shutdown], which only activates the shutdown event,
    included), [PumpEvents] returns [true], [m_shutdown] stays clear, and
    the calls made are those of the dispatched events alone: [OnShutdown] is
    not added. *)
Theorem pump_true_unless_shutdown_runs (block : bool) (pending : list Event) (s : t)
    (r : bool) (s' : t) (tr : Trace) :
  m_event_base s = true →
  m_shutdown s = false →
  EvShutdownInt ∉ pending →
  PumpEvents block pending s = Some (r, s', tr) →
  r = true ∧ m_shutdown s' = false ∧
  event_base_loop pending s = Some (tt, s', tr).
Proof.
  intros Hb Hs Hnin [(_ & _ & _ & [?|?])|(_ & _ & s1 & t1 & Hloop & Hend)]%PumpEvents_cases;
    [congruence..|].
  rewrite (loop_keeps_running _ _ _ _ _ Hnin Hloop Hs) in Hend.
  destruct Hend as (-> & -> & ->).
  split; [done|]. split; [|done]. by eapply loop_keeps_running.
Qed.

(** X18.  A handler that was running and has been stopped through
    [PumpEvents] has nothing left (empty maps, counts 0, event base and
    handles freed) and can be started again: [Start] succeeds with any
    limit.  The id counter is reset neither by the shutdown nor by the new
    [Start]: after the pump it stands where the ids read during the pump
    left it, counting on from where it stood before, and the new [Start]
    leaves it there. *)
Theorem restart_after_shutdown (block : bool) (pending : list Event) (s s' : t)
    (tr : Trace) (limit : Z) :
  m_event_base s = true →
  m_shutdown s = false →
  PumpEvents block pending s = Some (false, s', tr) →
  stopped s' ∧
  ids_from (m_connection_index s) (allocated tr) (m_connection_index s') ∧
  ∃ s'' tr',
    Start limit s' = Some (tt, s'', tr') ∧
    m_outgoing_conn_limit s'' = limit ∧
    m_shutdown s'' = false ∧
    m_connection_index s'' = m_connection_index s'.
Proof.
  intros Hb Hs Hpump.
  destruct (sound_PumpEvents _ _ _ _ _ _ Hpump) as (Hids & _).
  apply PumpEvents_cases in Hpump
    as [(_ & _ & _ & [?|?])|(_ & _ & s1 & t1 & Hloop & Hend)]; [congruence..|].
  destruct (m_shutdown s1) eqn:Hs1; [|by destruct Hend].
  destruct Hend as (_ & -> & _).
  destruct (loop_ends_stopped _ _ _ _ _ Hloop Hs Hs1)
    as ((Hcd & Hcg & Hbd & Hdn & Ho & Hi) & Hdb & Hre & Hse).
  split; [by repeat split|]. split; [done|].
  unfold Start. unfold_m. red_state. rewrite Ho, Hi, Hdb, Hre, Hse. cbn.
  eexists _, _. by repeat split.
Qed.

(** ** What [ShutdownInt] reports *)

Lemma entries_keys_sorted {V} (m : gmap Z V) : StronglySorted Z.lt (entries m).*1.
Proof.
  assert (StronglySorted key_le (entries m)) as Hs.
  { unfold entries. apply StronglySorted_merge_sort.
    - intros a b c. unfold key_le. lia.
    - intros a b. unfold key_le. lia. }
  assert (NoDup (entries m).*1) as Hn.
  { rewrite entries_Permutation. apply NoDup_fst_map_to_list. }
  induction Hs as [|a l Hs IH Hall]; cbn [fmap list_fmap]; [constructor|].
  cbn [fmap list_fmap] in Hn. apply NoDup_cons in Hn as [Hnin Hn].
  constructor; [by apply IH|].
  apply Forall_fmap, Forall_forall. intros b Hb.
  rewrite Forall_forall in Hall. specialize (Hall b Hb). unfold key_le in Hall.
  cbn. assert (a.1 ≠ b.1) as Hne; [|lia].
  intros Heq. apply Hnin. rewrite Heq. apply list_elem_of_fmap. by exists b.
Qed.

Lemma disconnect_all_actions (l : list (Z * ConnectionBase)) s r s' tr :
  for_each (λ e : Z * ConnectionBase,
      count_down (IsOutgoing e.2) ;;
      callback (m_interface.OnDisconnected e.1 false)) l s = Some (r, s', tr) →
  actions tr = (λ e : Z * ConnectionBase, Callback (m_interface.OnDisconnected e.1 false)) <$> l.
Proof.
  revert s tr. induction l as [|[id c] l IH]; intros s tr Hrun; cbn [for_each] in Hrun.
  - unfold skip, mret, M_ret in Hrun. by simplify_eq.
  - apply bind_Some in Hrun as ([] & s1 & t1 & t2 & H1 & H2 & ->).
    rewrite actions_app, (IH _ _ H2). cbn [fmap list_fmap]. 
    unfold count_down, callback, emit, modify, mbind, M_bind in H1. cbn [fst snd] in H1.
    destruct (IsOutgoing c); by simplify_eq.
Qed.

Lemma fail_all_actions (l : list (Z * ConnectionBase)) s r s' tr :
  for_each (λ e : Z * ConnectionBase,
      (if IsOutgoing e.2
       then callback (m_interface.OnConnectionFailure
                        (GetBaseConnection e.2) (GetBaseConnection e.2) false)
       else skip) ;;
      modify (λ s, set_connecting (delete e.1 (m_connecting s)) s)) l s = Some (r, s', tr) →
  actions tr
  = (λ e : Z * ConnectionBase,
       Callback (m_interface.OnConnectionFailure
                   (GetBaseConnection e.2) (GetBaseConnection e.2) false))
      <$> filter (λ e : Z * ConnectionBase, IsOutgoing e.2 = true) l.
Proof.
  revert s tr. induction l as [|[id c] l IH]; intros s tr Hrun; cbn [for_each] in Hrun.
  - unfold skip, mret, M_ret in Hrun. by simplify_eq.
  - apply bind_Some in Hrun as ([] & s1 & t1 & t2 & H1 & H2 & ->).
    rewrite actions_app, (IH _ _ H2), filter_cons. cbn [fst snd].
    unfold callback, emit, modify, skip, mret, M_ret, mbind, M_bind in H1. cbn [fst snd] in H1.
    destruct (IsOutgoing c) eqn:Hc; simplify_eq.
    + by rewrite decide_True by done.
    + by rewrite decide_False by done.
Qed.

(** X19.  What [ShutdownInt] reports.  On a handler that is already shut
    down it does nothing.  Otherwise it delivers [OnDisconnected(id, false)]
    for every entry of [m_connected], then [OnConnectionFailure(conn, conn,
    false)] for every outgoing entry of [m_connecting] (nothing for an
    incoming one), each group in increasing order of id, then breaks the
    event loop; it calls nothing else. *)
Theorem shutdown_reports_every_connection (s : t) (r : unit) (s' : t) (tr : Trace) :
  ShutdownInt s = Some (r, s', tr) →
  (if m_shutdown s then s' = s ∧ tr = []
   else actions tr
        = shutdown_reports (m_connected s) (m_connecting s) ++ [event_base_loopbreak]) ∧
  StronglySorted Z.lt (entries (m_connected s)).*1 ∧
  StronglySorted Z.lt (entries (m_connecting s)).*1.
Proof.
  intros Hrun. split; [|split; apply entries_keys_sorted].
  unfold ShutdownInt in Hrun. rewrite bind_get in Hrun.
  destruct (m_shutdown s) eqn:Hs.
  { unfold skip, mret, M_ret in Hrun. by simplify_eq. }
  rewrite !bind_modify in Hrun.
  apply bind_Some in Hrun as ([] & s1 & t1 & t2 & H1 & H2 & ->).
  pose proof (disconnect_all_actions _ _ _ _ _ H1) as Ha1.
  rewrite bind_get in H2.
  apply bind_Some in H2 as ([] & s2 & t3 & t4 & H3 & H4 & ->).
  assert (m_connecting s1 = m_connecting s) as Hcg.
  { destruct (disconnect_all (entries (m_connected s))
                (set_shutdown true (set_binds ∅ (set_connected ∅ s)))) as (t1' & E & _).
    rewrite E in H1. simplify_eq. by red_state. }
  apply fail_all_actions in H3. rewrite Hcg in H3.
  rewrite !bind_modify, bind_get in H4.
  unfold assert, emit, mbind, M_bind in H4.
  repeat (case_match; simplify_eq).
  rewrite !actions_app, Ha1, H3. unfold shutdown_reports. cbn. by rewrite <- app_assoc.
Qed.

(** ** The refill cycle *)





(** ** What holds at every call *)

Lemma each_bind {A B} P (m : M A) (k : A → M B) :
  each P m → (∀ x, each P (k x)) → each P (m ≫= k).
Proof.
  intros Hm Hk s r s' tr (x & s1 & t1 & t2 & H1 & H2 & ->)%bind_Some.
  apply Forall_app. split; [by eapply Hm|by eapply Hk].
Qed.

Lemma each_mret {A} P (x : A) : each P (mret x : M A).
Proof. intros s r s' tr [= <- <- <-]. constructor. Qed.

Lemma each_skip P : each P skip.
Proof. apply each_mret. Qed.

Lemma each_for_each {A} P (body : A → M unit) (l : list A) :
  (∀ x, each P (body x)) → each P (for_each body l).
Proof.
  intros Hb. induction l as [|x l IH]; cbn [for_each]; [apply each_skip|].
  apply each_bind; [apply Hb|]. intros _. apply IH.
Qed.

Lemma each_get_then {A} P (k : t → M A) : (∀ s, each P (k s)) → each P (get ≫= k).
Proof. intros Hk s r s' tr Hrun. rewrite bind_get in Hrun. by eapply Hk. Qed.

Lemma lookup_emplace_hint_same {V} id (v : V) (m : gmap Z V) :
  is_Some (emplace_hint id v m !! id).
Proof.
  unfold emplace_hint. destruct (m !! id) eqn:Hid; [by rewrite Hid|].
  rewrite lookup_insert_eq. by eexists.
Qed.

Ltac observed_goal :=
  red_state;
  repeat match goal with
         | H : _ && _ = true |- _ => apply andb_true_iff in H as [? ?]
         | H : negb _ = true |- _ => apply negb_true_iff in H
         end;
  first [ done
        | apply lookup_delete_eq
        | apply lookup_emplace_hint_same
        | by eexists
        | by intros ?; simplify_eq
        | by intros [= [_ ?%negb_true_iff]%andb_true_iff]
        | by intros _
        | idtac ].

Ltac prove_observed f :=
  let H := fresh "Hrun" in
  intros ? ? ? ? H; unfold_in f H; try unfold with_connected, direction_is in H;
  open_run H;
  repeat first [ apply Forall_nil_2
               | apply Forall_cons_2;
                 [split; [unfold callback_sees
                         |split; [unfold retry_while_running|unfold call_on_live]];
                  cbn [fst snd retry_flag]; try split; observed_goal|] ].

Lemma observed_Start limit : each observed (Start limit).
Proof. prove_observed Start. Qed.
Lemma observed_Shutdown : each observed Shutdown.
Proof. prove_observed Shutdown. Qed.
Lemma observed_OnResolveComplete id conn resolved :
  each observed (OnResolveComplete id conn resolved).
Proof. prove_observed OnResolveComplete. Qed.
Lemma observed_OnResolveFailure id conn error retry :
  each observed (OnResolveFailure id conn error retry).
Proof. prove_observed OnResolveFailure. Qed.
Lemma observed_OnWriteBufferReady id bufsize : each observed (OnWriteBufferReady id bufsize).
Proof. prove_observed OnWriteBufferReady. Qed.
Lemma observed_OnWriteBufferFull id bufsize : each observed (OnWriteBufferFull id bufsize).
Proof. prove_observed OnWriteBufferFull. Qed.
Lemma observed_OnReceiveMessages id msgs totalsize keep :
  each observed (OnReceiveMessages id msgs totalsize keep).
Proof. prove_observed OnReceiveMessages. Qed.
Lemma observed_OnDisconnected id reconnect : each observed (OnDisconnected id reconnect).
Proof. prove_observed OnDisconnected. Qed.
Lemma observed_OnIncomingConnection bind sock address socklen :
  each observed (OnIncomingConnection bind sock address socklen).
Proof. prove_observed OnIncomingConnection. Qed.
Lemma observed_OnListenFailure id bind : each observed (OnListenFailure id bind).
Proof. prove_observed OnListenFailure. Qed.
Lemma observed_OnConnectionFailure id type error failed retry :
  each observed (OnConnectionFailure id type error failed retry).
Proof. prove_observed OnConnectionFailure. Qed.
Lemma observed_OnIncomingConnected id conn resolved accept :
  each observed (OnIncomingConnected id conn resolved accept).
Proof. prove_observed OnIncomingConnected. Qed.
Lemma observed_OnOutgoingConnected id conn resolved :
  each observed (OnOutgoingConnected id conn resolved).
Proof. prove_observed OnOutgoingConnected. Qed.
Lemma observed_direction_is id outgoing : each observed (direction_is id outgoing).
Proof. prove_observed direction_is. Qed.
Lemma observed_Bind conn bound : each observed (Bind conn bound).
Proof. prove_observed Bind. Qed.
Lemma observed_StartConnection conn : each observed (StartConnection conn).
Proof. prove_observed StartConnection. Qed.
Lemma observed_CloseConnection id immediately : each observed (CloseConnection id immediately).
Proof. destruct immediately; prove_observed CloseConnection. Qed.
Lemma observed_PauseRecv id : each observed (PauseRecv id).
Proof. prove_observed PauseRecv. Qed.
Lemma observed_UnpauseRecv id : each observed (UnpauseRecv id).
Proof. prove_observed UnpauseRecv. Qed.
Lemma observed_Send id data written : each observed (Send id data written).
Proof. prove_observed Send. Qed.
Lemma observed_SetRateLimit id limit : each observed (SetRateLimit id limit).
Proof. prove_observed SetRateLimit. Qed.
Lemma observed_SetIncomingRateLimit limit created :
  each observed (SetIncomingRateLimit limit created).
Proof. prove_observed SetIncomingRateLimit. Qed.
Lemma observed_SetOutgoingRateLimit limit created :
  each observed (SetOutgoingRateLimit limit created).
Proof. prove_observed SetOutgoingRateLimit. Qed.

Lemma observed_callback c :
  (∀ s, callback_sees (Callback c, s)) → retry_flag c ≠ Some true →
  each observed (callback c).
Proof.
  intros Hsees Hflag s r s' tr Hrun. unfold callback, emit in Hrun. simplify_eq.
  apply Forall_cons_2; [|apply Forall_nil_2]. split; [apply Hsees|]. split; [|done].
  unfold retry_while_running. cbn [fst snd]. by intros ?.
Qed.

Lemma observed_RequestOutgoingInt conns : each observed (RequestOutgoingInt conns).
Proof.
  unfold RequestOutgoingInt. apply each_get_then. intros s.
  match goal with |- each _ (if ?b then _ else _) => destruct b end; [|apply each_skip].
  apply each_bind; [by apply observed_callback|]. intros _.
  apply each_for_each. intros c. destruct (IsSet c); [apply observed_StartConnection|].
  apply each_skip.
Qed.

Lemma disconnect_all_observed (l : list (Z * ConnectionBase)) s r s' tr :
  m_connected s = ∅ →
  for_each (λ e : Z * ConnectionBase,
      count_down (IsOutgoing e.2) ;;
      callback (m_interface.OnDisconnected e.1 false)) l s = Some (r, s', tr) →
  Forall observed tr.
Proof.
  revert s tr. induction l as [|[id c] l IH]; intros s tr Hcd Hrun; cbn [for_each] in Hrun.
  - unfold skip, mret, M_ret in Hrun. simplify_eq. apply Forall_nil_2.
  - apply bind_Some in Hrun as ([] & s1 & t1 & t2 & H1 & H2 & ->).
    unfold count_down, callback, emit, modify, mbind, M_bind in H1. cbn [fst snd] in H1.
    apply Forall_app. split.
    + destruct (IsOutgoing c); simplify_eq.
      all: apply Forall_cons_2; [|apply Forall_nil_2].
      all: split; [unfold callback_sees|split; [unfold retry_while_running|done]];
        cbn [fst snd retry_flag].
      all: red_state; first [by rewrite Hcd | by intros ?].
    + apply (IH s1); [|done]. destruct (IsOutgoing c); simplify_eq; by red_state.
Qed.

Lemma fail_all_observed (l : list (Z * ConnectionBase)) :
  each observed
    (for_each (λ e : Z * ConnectionBase,
       (if IsOutgoing e.2
        then callback (m_interface.OnConnectionFailure
                         (GetBaseConnection e.2) (GetBaseConnection e.2) false)
        else skip) ;;
       modify (λ s, set_connecting (delete e.1 (m_connecting s)) s)) l).
Proof.
  apply each_for_each. intros [id c]. apply each_bind.
  - destruct (IsOutgoing _); [by apply observed_callback|apply each_skip].
  - intros _ s r s' tr Hrun. unfold modify in Hrun. simplify_eq. apply Forall_nil_2.
Qed.

Lemma observed_ShutdownInt : each observed ShutdownInt.
Proof.
  intros s r s' tr Hrun. unfold ShutdownInt in Hrun. rewrite bind_get in Hrun.
  destruct (m_shutdown s) eqn:Hs.
  { unfold skip, mret, M_ret in Hrun. simplify_eq. apply Forall_nil_2. }
  rewrite !bind_modify in Hrun.
  apply bind_Some in Hrun as ([] & s1 & t1 & t2 & H1 & H2 & ->).
  apply Forall_app. split; [by eapply disconnect_all_observed; [|exact H1]|].
  rewrite bind_get in H2.
  apply bind_Some in H2 as ([] & s2 & t3 & t4 & H3 & H4 & ->).
  apply Forall_app. split; [by eapply fail_all_observed|].
  rewrite !bind_modify, bind_get in H4.
  unfold assert, emit, mbind, M_bind in H4.
  repeat (case_match; simplify_eq).
  apply Forall_cons_2; [|apply Forall_nil_2]. by split.
Qed.

Lemma observed_on_dns id e : each observed (on_dns id e).
Proof.
  intros s r s' tr Hrun. unfold on_dns in Hrun. rewrite bind_get in Hrun.
  destruct (m_connecting s !! id) as [[| d | |]|]; try done.
  destruct (dns_member e d) as [[d' o]|]; [|done].
  rewrite bind_modify in Hrun.
  destruct o; cbn [hand_over] in Hrun.
  - by eapply each_skip.
  - by eapply each_skip.
  - by eapply observed_OnConnectionFailure.
  - by eapply observed_OnOutgoingConnected.
Qed.

Lemma observed_dispatch e : each observed (dispatch e).
Proof.
  destruct e; cbn [dispatch];
    first [ apply observed_Start | apply observed_Shutdown | apply observed_ShutdownInt
          | apply observed_RequestOutgoingInt | apply observed_OnResolveComplete
          | apply observed_OnResolveFailure | apply observed_OnWriteBufferReady
          | apply observed_OnWriteBufferFull | apply observed_OnDisconnected
          | apply observed_OnIncomingConnection | apply observed_OnListenFailure
          | apply observed_OnConnectionFailure | apply observed_StartConnection
          | apply observed_CloseConnection | apply observed_PauseRecv
          | apply observed_UnpauseRecv | apply observed_SetRateLimit
          | apply observed_SetIncomingRateLimit | apply observed_SetOutgoingRateLimit
          | apply observed_on_dns
          | apply each_bind;
            [ first [ apply observed_OnReceiveMessages | apply observed_direction_is
                    | apply observed_Bind | apply observed_Send ]
            | intros _;
              first [ apply each_skip | apply observed_OnIncomingConnected
                    | apply observed_OnOutgoingConnected ] ] ].
Qed.

Lemma observed_event_base_loop pending : each observed (event_base_loop pending).
Proof.
  induction pending as [|e rest IH]; cbn [event_base_loop]; [apply each_skip|].
  apply each_bind; [apply observed_dispatch|]. intros _.
  apply each_get_then. intros s. destruct (m_shutdown s); [apply each_skip|done].
Qed.

Lemma observed_PumpEvents block pending : each observed (PumpEvents block pending).
Proof.
  unfold PumpEvents. apply each_get_then. intros s.
  destruct (negb (m_event_base s)); [apply each_mret|].
  destruct (m_shutdown s); [apply each_mret|].
  apply each_bind; [apply observed_event_base_loop|]. intros _.
  apply each_get_then. intros s1. destruct (m_shutdown s1); [|apply each_mret].
  apply each_bind; [|intros _; apply each_bind; [by apply observed_callback|]].
  - intros s0 r s' tr Hrun. unfold modify in Hrun. simplify_eq. apply Forall_nil_2.
  - intros _. apply each_mret.
Qed.

Lemma observed_run cs : each observed (run cs).
Proof.
  apply each_for_each. intros [e|block pending]; cbn [exec]; [apply observed_dispatch|].
  apply each_bind; [apply observed_PumpEvents|]. intros _. apply each_skip.
Qed.

(** X21.  What the maps hold during a callback, in any run from any state.
    When [OnDisconnected(id, ...)] is delivered, [id] has already left
    [m_connected], also during shutdown, so a [Send] or [CloseConnection]
    for it from inside the callback finds nothing.  When
    [OnOutgoingConnection(id, ...)] or [OnReadyForFirstSend(id)] is
    delivered, [id] is already in [m_connected] and no longer in
    [m_connecting].  When an incoming connection is offered with
    [OnIncomingConnection(id, ...)], [id] has already left
    [m_connecting]. *)
Theorem callbacks_see_maps_updated (cs : list Command) (s0 s : t) (tr : Trace) :
  run cs s0 = Some (tt, s, tr) → Forall callback_sees tr.
Proof.
  intros Hrun. eapply Forall_impl; [by eapply observed_run|]. by intros x [? _].
Qed.

(** X22.  Retries stop with the shutdown, in any run from any state: every
    callback that carries the flag "will retry" or "reconnect" set
    ([OnDisconnected], [OnConnectionFailure], [OnDnsFailure],
    [OnProxyFailure]) is delivered while [m_shutdown] is clear, and so is
    every call of [Retry] or [RetryResolve] on an object. *)
Theorem no_retry_once_shut_down (cs : list Command) (s0 s : t) (tr : Trace) :
  run cs s0 = Some (tt, s, tr) → Forall retry_while_running tr.
Proof.
  intros Hrun. eapply Forall_impl; [by eapply observed_run|]. by intros x (_ & ? & _).
Qed.


(** ** The counts at every callback *)



















(** ** The ids and the retries *)


(** ** One id, one entity *)

Lemma dom_emplace_hint {V} id (v : V) (m : gmap Z V) :
  dom (emplace_hint id v m) = {[id]} ∪ dom m.
Proof.
  unfold emplace_hint. destruct (m !! id) eqn:Hid.
  - apply elem_of_dom_2 in Hid. set_solver.
  - by rewrite dom_insert_L.
Qed.

Lemma keeps_apart_bind {A B} (m : M A) (k : A → M B) :
  sound m → keeps_apart m → (∀ x, keeps_apart (k x)) → keeps_apart (m ≫= k).
Proof.
  intros Hs Hm Hk s r s' tr (x & s1 & t1 & t2 & H1 & H2 & ->)%bind_Some Hlt Hap.
  rewrite allocated_app, length_app, Nat2Z.inj_add in Hlt.
  destruct (Hs _ _ _ _ H1) as (Hid1 & _).
  assert (apart s1) as Hap1 by (eapply Hm; [done|lia|done]).
  eapply Hk; [done| |done].
  destruct Hap as (Hi & _).
  assert (m_connection_index s + Z.of_nat (length (allocated t1)) < ConnID_modulus)
    as Hlt1 by lia.
  rewrite (ids_from_end _ _ _ Hi Hlt1 Hid1). lia.
Qed.

Lemma keeps_apart_mret {A} (x : A) : keeps_apart (mret x : M A).
Proof. by intros s r s' tr [= <- <- <-] _ Hap. Qed.

Lemma keeps_apart_skip : keeps_apart skip.
Proof. apply keeps_apart_mret. Qed.

Lemma keeps_apart_for_each {A} (body : A → M unit) (l : list A) :
  (∀ x, sound (body x)) → (∀ x, keeps_apart (body x)) → keeps_apart (for_each body l).
Proof.
  intros Hs Hb. induction l as [|x l IH]; cbn [for_each]; [apply keeps_apart_skip|].
  apply keeps_apart_bind; [apply Hs|apply Hb|]. intros _. apply IH.
Qed.

Lemma keeps_apart_get_then {A} (k : t → M A) :
  (∀ s, keeps_apart (k s)) → keeps_apart (get ≫= k).
Proof. intros Hk s r s' tr Hrun. rewrite bind_get in Hrun. by eapply Hk. Qed.

Ltac prove_apart f :=
  let Hrun := fresh "Hrun" in
  let Hlt := fresh "Hlt" in
  let Hi := fresh "Hi" in
  let Hb := fresh "Hb" in
  let Hbd := fresh "Hbd" in
  let Hbc := fresh "Hbc" in
  intros ? ? ? ? Hrun Hlt (Hi & Hb & Hbd & Hbc);
  unfold_in f Hrun; try unfold with_connected, direction_is in Hrun;
  open_run Hrun;
  try done;
  cbn in Hlt;
  unfold apart; red_state;
  rewrite ?to_ConnID_succ by lia;
  rewrite ?dom_alter_L, ?dom_emplace_hint, ?dom_insert_L, ?dom_delete_L, ?dom_empty_L;
  repeat match goal with
         | H : _ !! _ = Some _ |- _ => apply elem_of_dom_2 in H
         end;
  (split; [lia|]);
  (split;
   [ let id := fresh "id" in
     let Hid := fresh "Hid" in
     let Hid' := fresh "Hid" in
     intros id Hid;
     match goal with
     | s : t |- _ =>
         first
           [ assert (id ∈ dom (m_binds s) ∪ dom (m_dns_resolves s)
                          ∪ dom (m_connecting s) ∪ dom (m_connected s)) as Hid'
               by (clear Hb Hlt Hi; set_solver);
             specialize (Hb _ Hid'); lia
           | assert (id = m_connection_index s ∨
                     id ∈ dom (m_binds s) ∪ dom (m_dns_resolves s)
                          ∪ dom (m_connecting s) ∪ dom (m_connected s)) as [->|Hid']
               by (clear Hb Hlt Hi; set_solver);
             [lia|specialize (Hb _ Hid'); lia] ]
     end
   | match goal with
     | s : t |- _ =>
         assert (m_connection_index s ∉ dom (m_binds s) ∪ dom (m_dns_resolves s)
                   ∪ dom (m_connecting s) ∪ dom (m_connected s))
           by (let Hin := fresh in intros Hin; specialize (Hb _ Hin); lia);
         clear Hb Hlt Hi; split; set_solver
     end ]).

Lemma apart_Start limit : keeps_apart (Start limit).
Proof. prove_apart Start. Qed.
Lemma apart_Shutdown : keeps_apart Shutdown.
Proof. prove_apart Shutdown. Qed.
Lemma apart_OnResolveComplete id conn resolved :
  keeps_apart (OnResolveComplete id conn resolved).
Proof. prove_apart OnResolveComplete. Qed.
Lemma apart_OnResolveFailure id conn error retry :
  keeps_apart (OnResolveFailure id conn error retry).
Proof. prove_apart OnResolveFailure. Qed.
Lemma apart_OnWriteBufferReady id bufsize : keeps_apart (OnWriteBufferReady id bufsize).
Proof. prove_apart OnWriteBufferReady. Qed.
Lemma apart_OnWriteBufferFull id bufsize : keeps_apart (OnWriteBufferFull id bufsize).
Proof. prove_apart OnWriteBufferFull. Qed.
Lemma apart_OnReceiveMessages id msgs totalsize keep :
  keeps_apart (OnReceiveMessages id msgs totalsize keep).
Proof. prove_apart OnReceiveMessages. Qed.
Lemma apart_OnDisconnected id reconnect : keeps_apart (OnDisconnected id reconnect).
Proof. prove_apart OnDisconnected. Qed.
Lemma apart_OnIncomingConnection bind sock address socklen :
  keeps_apart (OnIncomingConnection bind sock address socklen).
Proof. prove_apart OnIncomingConnection. Qed.
Lemma apart_OnListenFailure id bind : keeps_apart (OnListenFailure id bind).
Proof. prove_apart OnListenFailure. Qed.
Lemma apart_OnConnectionFailure id type error failed retry :
  keeps_apart (OnConnectionFailure id type error failed retry).
Proof. prove_apart OnConnectionFailure. Qed.
Lemma apart_OnIncomingConnected id conn resolved accept :
  keeps_apart (OnIncomingConnected id conn resolved accept).
Proof. prove_apart OnIncomingConnected. Qed.
Lemma apart_OnOutgoingConnected id conn resolved :
  keeps_apart (OnOutgoingConnected id conn resolved).
Proof. prove_apart OnOutgoingConnected. Qed.
Lemma apart_direction_is id outgoing : keeps_apart (direction_is id outgoing).
Proof. prove_apart direction_is. Qed.
Lemma apart_Bind conn bound : keeps_apart (Bind conn bound).
Proof. prove_apart Bind. Qed.
Lemma apart_StartConnection conn : keeps_apart (StartConnection conn).
Proof. prove_apart StartConnection. Qed.
Lemma apart_CloseConnection id immediately : keeps_apart (CloseConnection id immediately).
Proof. destruct immediately; prove_apart CloseConnection. Qed.
Lemma apart_PauseRecv id : keeps_apart (PauseRecv id).
Proof. prove_apart PauseRecv. Qed.
Lemma apart_UnpauseRecv id : keeps_apart (UnpauseRecv id).
Proof. prove_apart UnpauseRecv. Qed.
Lemma apart_Send id data written : keeps_apart (Send id data written).
Proof. prove_apart Send. Qed.
Lemma apart_SetRateLimit id limit : keeps_apart (SetRateLimit id limit).
Proof. prove_apart SetRateLimit. Qed.
Lemma apart_SetIncomingRateLimit limit created :
  keeps_apart (SetIncomingRateLimit limit created).
Proof. prove_apart SetIncomingRateLimit. Qed.
Lemma apart_SetOutgoingRateLimit limit created :
  keeps_apart (SetOutgoingRateLimit limit created).
Proof. prove_apart SetOutgoingRateLimit. Qed.

Lemma apart_RequestOutgoingInt conns : keeps_apart (RequestOutgoingInt conns).
Proof.
  unfold RequestOutgoingInt. apply keeps_apart_get_then. intros s.
  match goal with |- keeps_apart (if ?b then _ else _) => destruct b end;
    [|apply keeps_apart_skip].
  apply keeps_apart_bind.
  - apply frame_sound. prove_frame callback.
  - prove_apart callback.
  - intros _. apply keeps_apart_for_each; intros c; destruct (IsSet c);
      first [ apply sound_StartConnection | apply frame_sound, frame_skip
            | apply apart_StartConnection | apply keeps_apart_skip ].
Qed.

Lemma apart_ShutdownInt : keeps_apart ShutdownInt.
Proof.
  intros s r s' tr Hrun _ Hap. destruct (m_shutdown s) eqn:Hs.
  - unfold ShutdownInt in Hrun. rewrite bind_get, Hs in Hrun.
    unfold skip, mret, M_ret in Hrun. by simplify_eq.
  - destruct (ShutdownInt_Some _ _ _ _ Hs Hrun) as (-> & _).
    destruct Hap as (Hi & _). unfold apart, after_shutdown. red_state.
    rewrite !dom_empty_L. split; [done|]. clear. split; [|set_solver]. set_solver.
Qed.

Lemma apart_on_dns id e : keeps_apart (on_dns id e).
Proof.
  intros s r s' tr Hrun Hlt Hap. unfold on_dns in Hrun. rewrite bind_get in Hrun.
  destruct (m_connecting s !! id) as [[| d | |]|] eqn:Hid; try done.
  destruct (dns_member e d) as [[d' o]|]; [|done].
  rewrite bind_modify in Hrun.
  set (s1 := set_connecting (<[id:=CDNSConn d']> (m_connecting s)) s) in *.
  assert (apart s1) as Hap1.
  { unfold apart, s1 in *. red_state. rewrite dom_insert_L.
    apply elem_of_dom_2 in Hid.
    replace ({[id]} ∪ dom (m_connecting s)) with (dom (m_connecting s))
      by (clear -Hid; set_solver).
    done. }
  destruct o; cbn [hand_over] in Hrun.
  - by eapply keeps_apart_skip.
  - by eapply keeps_apart_skip.
  - by eapply apart_OnConnectionFailure.
  - by eapply apart_OnOutgoingConnected.
Qed.

Lemma frame_direction_is id outgoing : frame (direction_is id outgoing).
Proof. prove_frame direction_is. Qed.

Lemma apart_dispatch e : keeps_apart (dispatch e).
Proof.
  destruct e; cbn [dispatch];
    first [ apply apart_Start | apply apart_Shutdown | apply apart_ShutdownInt
          | apply apart_RequestOutgoingInt | apply apart_OnResolveComplete
          | apply apart_OnResolveFailure | apply apart_OnWriteBufferReady
          | apply apart_OnWriteBufferFull | apply apart_OnDisconnected
          | apply apart_OnIncomingConnection | apply apart_OnListenFailure
          | apply apart_OnConnectionFailure | apply apart_StartConnection
          | apply apart_CloseConnection | apply apart_PauseRecv
          | apply apart_UnpauseRecv | apply apart_SetRateLimit
          | apply apart_SetIncomingRateLimit | apply apart_SetOutgoingRateLimit
          | apply apart_on_dns
          | apply keeps_apart_bind;
            [ first [ apply frame_sound, frame_OnReceiveMessages
                    | apply frame_sound, frame_direction_is
                    | apply sound_Bind
                    | apply frame_sound, frame_Send ]
            | first [ apply apart_OnReceiveMessages | apply apart_direction_is
                    | apply apart_Bind | apply apart_Send ]
            | intros _;
              first [ apply keeps_apart_skip | apply apart_OnIncomingConnected
                    | apply apart_OnOutgoingConnected ] ] ].
Qed.

Lemma apart_event_base_loop pending : keeps_apart (event_base_loop pending).
Proof.
  induction pending as [|e rest IH]; cbn [event_base_loop]; [apply keeps_apart_skip|].
  apply keeps_apart_bind; [apply sound_dispatch|apply apart_dispatch|]. intros _.
  apply keeps_apart_get_then. intros s. destruct (m_shutdown s); [apply keeps_apart_skip|done].
Qed.

Lemma apart_PumpEvents block pending : keeps_apart (PumpEvents block pending).
Proof.
  unfold PumpEvents. apply keeps_apart_get_then. intros s.
  destruct (negb (m_event_base s)); [apply keeps_apart_mret|].
  destruct (m_shutdown s); [apply keeps_apart_mret|].
  apply keeps_apart_bind; [apply sound_event_base_loop|apply apart_event_base_loop|].
  intros _. apply keeps_apart_get_then. intros s1.
  destruct (m_shutdown s1); [|apply keeps_apart_mret].
  prove_apart skip.
Qed.

Lemma apart_run cs : keeps_apart (run cs).
Proof.
  apply keeps_apart_for_each; [apply sound_exec|].
  intros [e|block pending]; cbn [exec]; [apply apart_dispatch|].
  apply keeps_apart_bind; [apply sound_PumpEvents|apply apart_PumpEvents|].
  intros _. apply keeps_apart_skip.
Qed.

Lemma apart_new : apart new.
Proof.
  unfold apart, new. red_state. rewrite !dom_empty_L.
  split; [done|]. split; [|set_solver]. set_solver.
Qed.

(** X24.  One id, one entity.  In a run from a new handler during which the
    id counter has not wrapped, an id is a key of at most one of the four
    maps [m_binds], [m_dns_resolves], [m_connecting] and [m_connected], and
    every id that is a key of one of them is at least 0 and below the
    counter. *)
Theorem id_names_one_entity (cs : list Command) (s : t) (tr : Trace) (id : ConnID) :
  run cs new = Some (tt, s, tr) →
  Z.of_nat (length (allocated tr)) < ConnID_modulus →
  (holders s id ≤ 1)%nat ∧
  ((0 < holders s id)%nat → 0 ≤ id < m_connection_index s).
Proof.
  intros Hrun Hlt.
  pose proof (run_Inv _ _ _ Hrun Hlt) as (_ & _ & _ & _ & _ & Hcc).
  assert (apart s) as (_ & Hb & Hbd & Hbc).
  { eapply apart_run; [exact Hrun|exact Hlt|apply apart_new]. }
  assert (∀ x, x ∈ dom (m_binds s) → x ∈ dom (m_dns_resolves s) → False) as Hx1
    by (clear -Hbd; set_solver).
  assert (∀ x, x ∈ dom (m_binds s) ∪ dom (m_dns_resolves s) →
               x ∈ dom (m_connecting s) ∪ dom (m_connected s) → False) as Hx2
    by (clear -Hbc; set_solver).
  unfold holders, held.
  destruct (m_binds s !! id) eqn:E1, (m_dns_resolves s !! id) eqn:E2,
    (m_connecting s !! id) eqn:E3, (m_connected s !! id) eqn:E4.
  all: try (rewrite (Hcc id) in E4 by (by eexists); discriminate).
  all: try apply elem_of_dom_2 in E1; try apply elem_of_dom_2 in E2.
  all: try apply elem_of_dom_2 in E3; try apply elem_of_dom_2 in E4.
  all: try (exfalso; by apply (Hx1 id)).
  all: try (exfalso; apply (Hx2 id); clear -E1 E2 E3 E4; set_solver).
  all: split; [cbn; lia|]; cbn; intros Hpos; try lia.
  all: apply Hb; clear -E1 E2 E3 E4; set_solver.
Qed.

(** ** Settings stay in force *)

Lemma unchanged_bind {X A B} (f : t → X) (m : M A) (k : A → M B) :
  unchanged f m → (∀ x, unchanged f (k x)) → unchanged f (m ≫= k).
Proof.
  intros Hm Hk s r s' tr (x & s1 & t1 & t2 & H1 & H2 & ->)%bind_Some.
  rewrite (Hk _ _ _ _ _ H2). by eapply Hm.
Qed.

Lemma unchanged_mret {X A} (f : t → X) (x : A) : unchanged f (mret x : M A).
Proof. by intros s r s' tr [= <- <- <-]. Qed.

Lemma unchanged_for_each {X A} (f : t → X) (body : A → M unit) (l : list A) :
  (∀ x, unchanged f (body x)) → unchanged f (for_each body l).
Proof.
  intros Hb. induction l as [|x l IH]; cbn [for_each]; [apply unchanged_mret|].
  apply unchanged_bind; [apply Hb|]. intros _. apply IH.
Qed.

Lemma unchanged_get_then {X A} (f : t → X) (k : t → M A) :
  (∀ s, unchanged f (k s)) → unchanged f (get ≫= k).
Proof. intros Hk s r s' tr Hrun. rewrite bind_get in Hrun. by eapply Hk. Qed.

Ltac prove_unchanged f :=
  let H := fresh "Hrun" in
  intros ? ? ? ? H; unfold_in f H; try unfold with_connected, direction_is in H;
  open_run H; try done; by destruct_and?.

Lemma settings_StartConnection conn : unchanged settings (StartConnection conn).
Proof. prove_unchanged StartConnection. Qed.

Lemma settings_RequestOutgoingInt conns : unchanged settings (RequestOutgoingInt conns).
Proof.
  unfold RequestOutgoingInt. apply unchanged_get_then. intros s.
  match goal with |- unchanged _ (if ?b then _ else _) => destruct b end;
    [|apply unchanged_mret].
  apply unchanged_bind; [prove_unchanged callback|]. intros _.
  apply unchanged_for_each. intros c. destruct (IsSet c); [|apply unchanged_mret].
  apply settings_StartConnection.
Qed.

Lemma settings_OnConnectionFailure id type error failed retry :
  unchanged settings (OnConnectionFailure id type error failed retry).
Proof. prove_unchanged OnConnectionFailure. Qed.

Lemma settings_OnOutgoingConnected id conn resolved :
  unchanged settings (OnOutgoingConnected id conn resolved).
Proof. prove_unchanged OnOutgoingConnected. Qed.

Lemma settings_on_dns id e : unchanged settings (on_dns id e).
Proof.
  intros s r s' tr Hrun. unfold on_dns in Hrun. rewrite bind_get in Hrun.
  destruct (m_connecting s !! id) as [[| d | |]|]; try done.
  destruct (dns_member e d) as [[d' o]|]; [|done].
  rewrite bind_modify in Hrun.
  destruct o; cbn [hand_over] in Hrun.
  - unfold skip, mret, M_ret in Hrun. by simplify_eq.
  - unfold skip, mret, M_ret in Hrun. by simplify_eq.
  - by rewrite (settings_OnConnectionFailure _ _ _ _ _ _ _ _ _ Hrun).
  - by rewrite (settings_OnOutgoingConnected _ _ _ _ _ _ _ Hrun).
Qed.

Lemma dispatch_settings e s r s' tr :
  dispatch e s = Some (r, s', tr) →
  (sets_limit e = false → m_outgoing_conn_limit s' = m_outgoing_conn_limit s) ∧
  (∀ group, sets_rate group e = false → rate_setting group s' = rate_setting group s).
Proof.
  intros Hrun.
  assert (unchanged settings (dispatch e) →
          m_outgoing_conn_limit s' = m_outgoing_conn_limit s ∧
          ∀ group, rate_setting group s' = rate_setting group s) as Hall.
  { intros Hu. specialize (Hu _ _ _ _ Hrun).
    unfold settings, rate_setting, rate_group, rate_cfg in *. simplify_eq.
    split; [done|]. intros []; congruence. }
  destruct e; cbn [dispatch sets_limit sets_rate] in *.
  all: try (destruct Hall as [? ?];
            [first [ apply settings_RequestOutgoingInt | apply settings_on_dns
                   | prove_unchanged OnResolveComplete | prove_unchanged OnResolveFailure
                   | prove_unchanged OnWriteBufferReady | prove_unchanged OnWriteBufferFull
                   | prove_unchanged OnReceiveMessages | prove_unchanged OnDisconnected
                   | prove_unchanged OnIncomingConnection | prove_unchanged OnListenFailure
                   | prove_unchanged OnConnectionFailure
                   | prove_unchanged OnIncomingConnected
                   | prove_unchanged OnOutgoingConnected | prove_unchanged Bind
                   | prove_unchanged StartConnection
                   | destruct immediately; prove_unchanged CloseConnection
                   | prove_unchanged PauseRecv | prove_unchanged UnpauseRecv
                   | prove_unchanged Send | prove_unchanged SetRateLimit
                   | prove_unchanged Shutdown ]
            | by split ]).
  - split; [done|]. by intros [].
  - split; [|by intros []]. intros _.
    destruct (m_shutdown s) eqn:Hs.
    + unfold ShutdownInt in Hrun. rewrite bind_get, Hs in Hrun.
      unfold skip, mret, M_ret in Hrun. by simplify_eq.
    + destruct (ShutdownInt_Some _ _ _ _ Hs Hrun) as (-> & _).
      unfold after_shutdown. by red_state.
  - unfold SetIncomingRateLimit in Hrun. open_run Hrun; (split; [done|]; by intros []).
  - unfold SetOutgoingRateLimit in Hrun. open_run Hrun; (split; [done|]; by intros []).
Qed.

Lemma loop_settings pending s r s' tr :
  event_base_loop pending s = Some (r, s', tr) →
  (Forall (λ e, sets_limit e = false) pending →
   m_outgoing_conn_limit s' = m_outgoing_conn_limit s) ∧
  (∀ group, Forall (λ e, sets_rate group e = false) pending →
            rate_setting group s' = rate_setting group s).
Proof.
  revert s tr. induction pending as [|e rest IH]; intros s tr Hrun.
  - cbn in Hrun. unfold skip, mret, M_ret in Hrun. by simplify_eq.
  - cbn [event_base_loop] in Hrun.
    apply bind_Some in Hrun as ([] & s1 & t1 & t2 & H1 & H2 & ->).
    destruct (dispatch_settings _ _ _ _ _ H1) as [Hl1 Hr1].
    rewrite bind_get in H2. destruct (m_shutdown s1).
    + unfold skip, mret, M_ret in H2. simplify_eq. split.
      * intros [? _]%Forall_cons. by apply Hl1.
      * intros group [? _]%Forall_cons. by apply Hr1.
    + destruct (IH _ _ H2) as [Hl2 Hr2]. split.
      * intros [? ?]%Forall_cons. rewrite Hl2 by done. by apply Hl1.
      * intros group [? ?]%Forall_cons. rewrite Hr2 by done. by apply Hr1.
Qed.

Lemma run_settings cs s s' tr :
  run cs s = Some (tt, s', tr) →
  (Forall (λ e, sets_limit e = false) (cs ≫= events_of) →
   m_outgoing_conn_limit s' = m_outgoing_conn_limit s) ∧
  (∀ group, Forall (λ e, sets_rate group e = false) (cs ≫= events_of) →
            rate_setting group s' = rate_setting group s).
Proof.
  unfold run. revert s tr. induction cs as [|c cs IH]; intros s tr Hrun.
  - cbn in Hrun. unfold skip, mret, M_ret in Hrun. by simplify_eq.
  - cbn [for_each] in Hrun.
    apply bind_Some in Hrun as ([] & s1 & t1 & t2 & H1 & H2 & ->).
    destruct (IH _ _ H2) as [Hl2 Hr2].
    assert ((Forall (λ e, sets_limit e = false) (events_of c) →
             m_outgoing_conn_limit s1 = m_outgoing_conn_limit s) ∧
            (∀ group, Forall (λ e, sets_rate group e = false) (events_of c) →
                      rate_setting group s1 = rate_setting group s)) as [Hl1 Hr1].
    { destruct c as [e|block pending]; cbn [exec events_of] in *.
      - destruct (dispatch_settings _ _ _ _ _ H1) as [Hl Hr]. split.
        + intros [? _]%Forall_cons. by apply Hl.
        + intros group [? _]%Forall_cons. by apply Hr.
      - apply bind_Some in H1 as (b & s0 & t0 & t0' & Hp & Hsk & _).
        unfold skip, mret, M_ret in Hsk. simplify_eq.
        apply PumpEvents_cases in Hp as [(_ & -> & _)|(_ & _ & s2 & t3 & Hloop & Hend)];
          [done|].
        destruct (loop_settings _ _ _ _ _ Hloop) as [Hl Hr].
        destruct (m_shutdown s2).
        + destruct Hend as (_ & -> & _). split.
          * intros HF. red_state. by apply Hl.
          * intros group HF. rewrite <- (Hr group HF). by destruct group.
        + destruct Hend as (_ & -> & _). done. }
    rewrite bind_cons. split.
    + intros [? ?]%Forall_app. rewrite Hl2 by done. by apply Hl1.
    + intros group [? ?]%Forall_app. rewrite Hr2 by done. by apply Hr1.
Qed.


(** X26.  The outgoing limit is what [Start] was given: it stays so through
    any further commands and pumped events, a shutdown included, until the
    next [Start]. *)
Theorem outgoing_limit_is_what_start_set (limit : Z) (cs : list Command) (s s' : t)
    (tr : Trace) :
  run (Do (EvStart limit) :: cs) s = Some (tt, s', tr) →
  Forall (λ e, sets_limit e = false) (cs ≫= events_of) →
  m_outgoing_conn_limit s' = limit.
Proof.
  intros Hrun HF. unfold run in Hrun. cbn [for_each] in Hrun.
  apply bind_Some in Hrun as ([] & s1 & t1 & t2 & H1 & H2 & ->).
  destruct (run_settings _ _ _ _ H2) as [Hl _]. rewrite (Hl HF).
  cbn [exec dispatch] in H1. unfold Start in H1. open_run H1. done.
Qed.

End Properties.

(** * The theorems on concrete inputs, with 64-bit ids *)

Lemma refill_requests_witness :
  ∃ s' tr,
    RequestOutgoingInt [direct_peer] (set_outgoing_conn_limit 3 new) = Some (tt, s', tr) ∧
    requested tr = [3] ∧
    Z.of_nat (length (allocated tr)) ≤ 3 ∧
    (3 = 0 → s' = set_outgoing_conn_limit 3 new ∧ tr = []).
Proof.
  apply (refill_requests_min_of_8_and_free_slots [direct_peer] (set_outgoing_conn_limit 3 new)).
  - vm_compute. discriminate.
  - vm_compute. reflexivity.
Defined.

Lemma refill_counts_incoming_entries :
  ∃ s tr0, run accepting new = Some (tt, s, tr0) ∧ ¬ refill_as_specified [] s.
Proof.
  eexists _, _. split; [vm_compute; reflexivity|].
  intros (s' & tr & Hrun & Hreq).
  vm_compute in Hrun. inversion Hrun; subst; clear Hrun.
  vm_compute in Hreq. discriminate.
Qed.

(** The cast to [size_t] of a negative difference: with limit 0 and one
    connection started by the embedder, the refill asks for [2^64 - 1]. *)
Example refill_with_negative_difference :
  ∃ s tr, run [Do (EvStart 0); Do (EvStartConnection direct_peer);
               Do (EvRequestOutgoingInt [])] new = Some (tt, s, tr) ∧
          requested tr = [18446744073709551615].
Proof. eexists _, _. split; vm_compute; reflexivity. Qed.

Lemma start_connection_witness :
  ∃ s' tr,
    StartConnection (dns_peer RESOLVE 2 false) new = Some (tt, s', tr) ∧
    s' = set_connecting
           (emplace_hint 0 (CDNSConn (CDNSConnection.new (dns_peer RESOLVE 2 false))) ∅)
           (set_connection_index (to_ConnID (0 + 1)) new) ∧
    actions tr = [NewConnID 0; ObjectCall 0 obj.Connect].
Proof.
  apply (start_connection_selects_variant (dns_peer RESOLVE 2 false) new).
  reflexivity.
Defined.

Lemma resolve_only_through_proxy_is_dropped : ¬ start_as_specified unfinished_peer new.
Proof.
  intros (s' & tr & Hrun & Hstarted).
  vm_compute in Hrun. inversion Hrun; subst; clear Hrun.
  destruct Hstarted as [(c & Hc & _) _]. vm_compute in Hc. discriminate.
Qed.

Lemma resolve_failure_witness :
  ∃ s tr0,
    run (looking_up 2) new = Some (tt, s, tr0) ∧
    ∃ s' tr,
      on_dns 0 (DResolveFailure 7) s = Some (tt, s', tr) ∧
      dns_failure_flag tr = Some true.
Proof.
  eexists _, _. split; [vm_compute; reflexivity|].
  match goal with |- ∃ s' tr, on_dns 0 _ ?s = _ ∧ _ =>
    destruct (resolve_failure_will_retry s 0
                (CDNSConnection.with_request
                   (CDNSConnection.new (dns_peer RESOLVE 2 false)) true) 7)
      as (_ & s' & tr & Hrun & Hflag & _)
  end.
  - vm_compute. reflexivity.
  - reflexivity.
  - reflexivity.
  - reflexivity.
  - exists s', tr. split; [exact Hrun|exact Hflag].
Defined.

Lemma negative_retries_other_than_minus_one :
  ∃ s tr0, run (looking_up (-2)) new = Some (tt, s, tr0) ∧
           ¬ resolve_failure_as_specified 0 7 s.
Proof.
  eexists _, _. split; [vm_compute; reflexivity|].
  intros (d & s' & tr & Hd & Hrun & Hflag).
  vm_compute in Hd. inversion Hd; subst d; clear Hd.
  vm_compute in Hrun. inversion Hrun; subst s' tr; clear Hrun.
  vm_compute in Hflag. discriminate.
Qed.






Lemma shutdown_leaves_nothing_witness :
  ∃ s tr0,
    run one_retry new = Some (tt, s, tr0) ∧
    (∀ r s' tr, ShutdownInt s = Some (r, s', tr) → all_empty s' ∧ m_shutdown s' = true) ∧
    (∀ block pending r s' tr,
       PumpEvents block pending s = Some (r, s', tr) →
       m_shutdown s' = true →
       r = false ∧ all_empty s' ∧ last tr = Some (Callback m_interface.OnShutdown, s')) ∧
    (counts_match s → ∃ s' tr, ShutdownInt s = Some (tt, s', tr)).
Proof.
  eexists _, _. split; [vm_compute; reflexivity|].
  apply shutdown_leaves_nothing. vm_compute. reflexivity.
Defined.



Lemma dns_connect_failure_witness :
  ∃ a c',
    CDNSConnection.m_resolved sample_resolved !! 1%nat = Some a ∧
    CDNSConnection.OnConnectFailure 32 sample_resolved
    = Some (c', CDNSConnection.OnConnectionFailure CONNECT 32
                  (resolved_connection (sample_options RESOLVE 2) 0
                     (CDNSConnection.ai_addr a) (CDNSConnection.ai_addrlen a))
                  (bool_decide (2 < 2)%nat || bool_decide (2 ≠ 0))) ∧
    CDNSConnection.m_iter c' = 2%nat ∧
    CDNSConnection.m_retries c' = 2 ∧
    CDNSConnection.m_resolved c' = CDNSConnection.m_resolved sample_resolved.
Proof.
  apply (dns_connect_failure_advances_cursor 32 sample_resolved).
  - reflexivity.
  - vm_compute. lia.
Defined.

Lemma outgoing_connection_witness :
  ∃ s tr,
    run (removelast one_outgoing) new = Some (tt, s, tr) ∧
    is_Some (m_connecting s !! 0) ∧
    callbacks tr = [m_interface.OnStartup] ∧
    (∀ id c, m_connected s !! id = Some c → IsOutgoing c = true → announced id tr) ∧
    (∀ t1 id t2,
       actions tr = t1 ++ Callback (m_interface.OnReadyForFirstSend id) :: t2 →
       ∃ t0 conn resolved,
         t1 = t0 ++ [Callback (m_interface.OnOutgoingConnection id conn resolved)]) ∧
    (∀ s1 id moved conn resolved,
       m_connecting s1 !! id = Some moved →
       ∃ s2 tr2,
         OnOutgoingConnected id conn resolved s1 = Some (tt, s2, tr2) ∧
         callbacks tr2 = [m_interface.OnOutgoingConnection id conn resolved;
                          m_interface.OnReadyForFirstSend id] ∧
         m_connecting s2 !! id = None ∧
         is_Some (m_connected s2 !! id) ∧
         m_outgoing_conn_count s2 = m_outgoing_conn_count s1 + 1) ∧
    (∀ id conn resolved s2 tr2,
       run (removelast one_outgoing ++ [Do (EvOnOutgoingConnected id conn resolved)]) new
       = Some (tt, s2, tr2) →
       callbacks tr2
       = callbacks tr ++ [m_interface.OnOutgoingConnection id conn resolved;
                          m_interface.OnReadyForFirstSend id] ∧
       is_Some (m_connected s2 !! id) ∧ m_connecting s2 !! id = None).
Proof.
  eexists _, _. split; [vm_compute; reflexivity|].
  split; [vm_compute; by eexists|].
  split; [vm_compute; reflexivity|].
  apply (outgoing_connection_precedes_first_send (removelast one_outgoing)).
  vm_compute. reflexivity.
Defined.

(** The whole of that run: its callbacks, and the entry it leaves in
    [m_connected]. *)
Example outgoing_connection_delivered :
  ∃ s tr c,
    run one_outgoing new = Some (tt, s, tr) ∧
    callbacks tr = [m_interface.OnStartup;
                    m_interface.OnOutgoingConnection 0 direct_peer direct_peer;
                    m_interface.OnReadyForFirstSend 0] ∧
    m_connected s !! 0 = Some c ∧ IsOutgoing c = true ∧
    m_connecting s !! 0 = None ∧ m_outgoing_conn_count s = 1.
Proof. eexists _, _, _. do 5 (split; [vm_compute; reflexivity|]). reflexivity. Qed.

Lemma declined_incoming_witness :
  ∃ s tr0,
    run accepting new = Some (tt, s, tr0) ∧
    let s' := set_connecting (delete 0 (m_connecting s)) s in
    OnIncomingConnected 0 listen_any direct_peer false s
    = Some (tt, s', [(Callback (m_interface.OnIncomingConnection 0 listen_any direct_peer), s')]) ∧
    m_connecting s' !! 0 = None ∧
    m_connected s' = m_connected s ∧
    m_incoming_conn_count s' = m_incoming_conn_count s.
Proof.
  eexists _, _. split; [vm_compute; reflexivity|].
  eapply (declined_incoming_is_dropped _ 0 listen_any direct_peer).
  vm_compute. reflexivity.
Defined.

Lemma unknown_id_witness :
  Send 7 [1; 2; 3] true new = Some (false, new, []) ∧
  CloseConnection 7 true new = Some (tt, new, []) ∧
  PauseRecv 7 new = Some (tt, new, []) ∧
  UnpauseRecv 7 new = Some (tt, new, []) ∧
  SetRateLimit 7 sample_limit new = Some (tt, new, []).
Proof.
  apply (unknown_id_is_noop new 7 [1; 2; 3] true true sample_limit).
  reflexivity.
Defined.

Lemma dns_addresses_tried_in_order_witness :
  ∃ c',
    nth_attempt sample_addresses 32 2 (CDNSConnection.new (dns_peer RESOLVE 1 false))
    = Some (c', CDNSConnection.BareConnect
                  {| CDNSConnection.ai_addr := 3; CDNSConnection.ai_addrlen := 28 |} 5) ∧
    CDNSConnection.m_iter c' = 2%nat ∧
    CDNSConnection.m_retries c' = 1.
Proof.
  apply (dns_addresses_tried_in_order sample_addresses 32 2
           (CDNSConnection.new (dns_peer RESOLVE 1 false))).
  - by repeat split.
  - reflexivity.
Defined.

Lemma dns_resolve_success_witness :
  CDNSConnection.OnResolveSuccess true [] (CDNSConnection.new (dns_peer RESOLVE 1 false))
  = None.
Proof.
  apply (dns_resolve_success_cases true [] (CDNSConnection.new (dns_peer RESOLVE 1 false))).
  by repeat split.
Defined.

Lemma dns_connect_success_witness :
  CDNSConnection.OnConnectSuccess sample_resolved
  = Some (CDNSConnection.new (dns_peer RESOLVE 2 false),
          CDNSConnection.OnOutgoingConnected
            (resolved_connection (sample_options RESOLVE 2) 0 2 16)) ∧
  ∃ c' hint,
    CDNSConnection.Connect true (CDNSConnection.new (dns_peer RESOLVE 2 false))
    = Some (c', CDNSConnection.Resolve "example.invalid" 8333 hint) ∧
    CDNSConnection.m_retries c' = 2.
Proof.
  apply (dns_connect_success_resets sample_resolved
           {| CDNSConnection.ai_addr := 2; CDNSConnection.ai_addrlen := 16 |} true);
    reflexivity.
Defined.

Lemma dns_connect_after_last_address_witness :
  CDNSConnection.Connect true
    (CDNSConnection.with_resolved (CDNSConnection.with_bev sample_resolved false)
       (CDNSConnection.m_resolved sample_resolved) 2) = None ∧
  ∃ c'' hint,
    CDNSConnection.Connect true
      (CDNSConnection.Cancel
         (CDNSConnection.with_resolved (CDNSConnection.with_bev sample_resolved false)
            (CDNSConnection.m_resolved sample_resolved) 2))
    = Some (c'', CDNSConnection.Resolve "example.invalid" 8333 hint).
Proof.
  apply (dns_connect_after_last_address 32 sample_resolved _
           (CDNSConnection.OnConnectionFailure CONNECT 32
              (resolved_connection (sample_options RESOLVE 2) 0 2 16) true) true);
    reflexivity.
Defined.

Lemma dns_state_stays_well_formed_witness :
  well_formed
    (CDNSConnection.with_resolved
       (CDNSConnection.with_request (CDNSConnection.new (dns_peer RESOLVE 1 false)) false)
       sample_addresses 1).
Proof.
  apply (dns_state_stays_well_formed (dns_peer RESOLVE 1 false)
           [Report (DConnect true); Report (DResolveSuccess true sample_addresses);
            Report (DConnectFailure 32)]).
  reflexivity.
Defined.

Lemma dns_retries_within_budget_witness :
  within_budget (dns_peer RESOLVE 2 false)
    (CDNSConnection.with_request
       (CDNSConnection.with_retries
          (CDNSConnection.with_request (CDNSConnection.new (dns_peer RESOLVE 2 false)) false)
          1)
       true).
Proof.
  apply (dns_retries_within_budget (dns_peer RESOLVE 2 false)
           [Report (DConnect true); Report (DResolveFailure 7); Report (DConnect true)]).
  reflexivity.
Defined.

Lemma report_for_unknown_id_witness :
  OnDisconnected 7 true new = None ∧
  OnConnectionFailure 7 CONNECT 0 direct_peer true new = None ∧
  OnIncomingConnected 7 direct_peer direct_peer true new = None ∧
  OnOutgoingConnected 7 direct_peer direct_peer new = None ∧
  OnResolveFailure 7 direct_peer 0 true new = None ∧
  OnResolveComplete 7 direct_peer [] new
  = Some (tt, new, [(Callback (m_interface.OnDnsResponse direct_peer []), new)]) ∧
  OnListenFailure 7 direct_peer new
  = Some (tt, new, [(Callback (m_interface.OnBindFailure direct_peer), new)]).
Proof.
  apply (report_for_unknown_id new 7 direct_peer direct_peer CONNECT 0 true []);
    reflexivity.
Defined.

Lemma command_for_connected_id_witness :
  ∃ s tr0,
    run one_outgoing new = Some (tt, s, tr0) ∧
    Send 0 [1; 2] false s = Some (false, s, [(ObjectCall 0 (obj.Write [1; 2]), s)]) ∧
    CloseConnection 0 false s = Some (tt, s, [(ObjectCall 0 obj.DisconnectWhenFinished, s)]) ∧
    PauseRecv 0 s = Some (tt, s, [(ObjectCall 0 obj.PauseRecv, s)]) ∧
    UnpauseRecv 0 s = Some (tt, s, [(ObjectCall 0 obj.UnpauseRecv, s)]) ∧
    SetRateLimit 0 sample_limit s
    = Some (tt, s, [(ObjectCall 0 (obj.SetRateLimit sample_limit), s)]).
Proof.
  eexists _, _. split; [vm_compute; reflexivity|].
  apply (command_for_connected_id _ 0 (CDirectConnection direct_peer) [1; 2] false false
           sample_limit).
  vm_compute. reflexivity.
Defined.

Lemma bind_then_listen_failure_witness :
  Bind listen_any false new
  = Some (false, set_connection_index (to_ConnID (0 + 1)) new, [(NewConnID 0, new)]) ∧
  ∃ s1 tr1 s2 tr2,
    Bind listen_any true new = Some (true, s1, tr1) ∧
    actions tr1 = [NewConnID 0; ObjectCall 0 obj.Enable] ∧
    m_binds s1 = <[0 := {| listen_conn := listen_any; listen_enabled := true |}]> ∅ ∧
    OnListenFailure 0 listen_any s1 = Some (tt, s2, tr2) ∧
    actions tr2 = [Callback (m_interface.OnBindFailure listen_any)] ∧
    s2 = set_connection_index (to_ConnID (0 + 1)) new.
Proof. apply (bind_then_listen_failure new listen_any). reflexivity. Defined.

Lemma resolve_only_lifecycle_witness :
  ∃ s1 tr1,
    StartConnection (dns_peer RESOLVE_ONLY 1 false) new = Some (tt, s1, tr1) ∧
    m_dns_resolves s1 = <[0 := {| resolve_conn := dns_peer RESOLVE_ONLY 1 false |}]> ∅ ∧
    m_connecting s1 = ∅ ∧
    m_outgoing_conn_count s1 = 0 ∧
    (∃ s2 tr2,
       OnResolveComplete 0 (dns_peer RESOLVE_ONLY 1 false) [direct_peer] s1
       = Some (tt, s2, tr2) ∧
       actions tr2
       = [Callback (m_interface.OnDnsResponse (dns_peer RESOLVE_ONLY 1 false) [direct_peer])] ∧
       m_dns_resolves s2 = ∅) ∧
    (∃ s2 tr2,
       OnResolveFailure 0 (dns_peer RESOLVE_ONLY 1 false) 7 true s1 = Some (tt, s2, tr2) ∧
       callbacks tr2 = [m_interface.OnDnsFailure (dns_peer RESOLVE_ONLY 1 false) true] ∧
       (ObjectCall 0 obj.RetryResolve ∈ actions tr2 ↔ true = true) ∧
       m_dns_resolves s2 = m_dns_resolves s1).
Proof.
  apply (resolve_only_lifecycle new (dns_peer RESOLVE_ONLY 1 false) [direct_peer] 7 true);
    reflexivity.
Defined.

Lemma connection_failure_report_witness :
  ∃ s0 tr0,
    run [Do (EvStart 8); Do (EvStartConnection direct_peer)] new = Some (tt, s0, tr0) ∧
    ∃ s' tr,
      OnConnectionFailure 0 (Z.lor PROXY_FAILURE RESOLVE_FAILURE) 0 direct_peer true s0
      = Some (tt, s', tr) ∧
      callbacks tr
      = [failure_callback (Z.lor PROXY_FAILURE RESOLVE_FAILURE) direct_peer
           (true && negb (m_shutdown s0))] ∧
      allocated tr = (if true && negb (m_shutdown s0) then [m_connection_index s0] else []) ∧
      (ObjectCall (m_connection_index s0) (obj.Retry (m_connection_index s0)) ∈ actions tr
       ↔ true && negb (m_shutdown s0) = true) ∧
      m_connecting s'
      = (if true && negb (m_shutdown s0)
         then emplace_hint (m_connection_index s0) (CDirectConnection direct_peer)
                (delete 0 (m_connecting s0))
         else delete 0 (m_connecting s0)) ∧
      m_connected s' = m_connected s0 ∧
      m_outgoing_conn_count s' = m_outgoing_conn_count s0 ∧
      m_incoming_conn_count s' = m_incoming_conn_count s0.
Proof.
  eexists _, _. split; [vm_compute; reflexivity|].
  apply (connection_failure_report _ 0 (CDirectConnection direct_peer)).
  vm_compute. reflexivity.
Defined.

Lemma connect_then_disconnect_witness :
  ∃ s0 tr0,
    run [Do (EvStart 8); Do (EvStartConnection direct_peer)] new = Some (tt, s0, tr0) ∧
    ∃ s1 tr1 s2 tr2,
      OnOutgoingConnected 0 direct_peer direct_peer s0 = Some (tt, s1, tr1) ∧
      m_connected s1 = <[0 := CDirectConnection direct_peer]> (m_connected s0) ∧
      m_connecting s1 = delete 0 (m_connecting s0) ∧
      m_outgoing_conn_count s1 = m_outgoing_conn_count s0 + 1 ∧
      OnDisconnected 0 true s1 = Some (tt, s2, tr2) ∧
      callbacks tr2 = [m_interface.OnDisconnected 0 (true && negb (m_shutdown s0))] ∧
      m_connected s2 = m_connected s0 ∧
      m_outgoing_conn_count s2 = m_outgoing_conn_count s0 ∧
      m_incoming_conn_count s2 = m_incoming_conn_count s0 ∧
      m_connecting s2
      = (if true && negb (m_shutdown s0)
         then emplace_hint (m_connection_index s0) (CDirectConnection direct_peer)
                (delete 0 (m_connecting s0))
         else delete 0 (m_connecting s0)).
Proof.
  eexists _, _. split; [vm_compute; reflexivity|].
  apply (connect_then_disconnect _ 0 (CDirectConnection direct_peer) direct_peer direct_peer
           true).
  - vm_compute. reflexivity.
  - vm_compute. reflexivity.
  - reflexivity.
Defined.

Lemma accepted_socket_witness :
  ∃ s1 tr1 s2 tr2,
    OnIncomingConnection listen_any 3 4 16 new = Some (tt, s1, tr1) ∧
    actions tr1 = [NewConnID 0; ObjectCall 0 obj.Connect] ∧
    OnIncomingConnected 0 listen_any direct_peer true s1 = Some (tt, s2, tr2) ∧
    actions tr2 = [Callback (m_interface.OnIncomingConnection 0 listen_any direct_peer);
                   ObjectCall 0 (obj.SetRateLimitGroup incoming_rate_limit)] ∧
    m_connected s2 = <[0 := CIncomingConn listen_any 3 4 16]> ∅ ∧
    m_connecting s2 = ∅ ∧
    m_incoming_conn_count s2 = 0 + 1 ∧
    m_outgoing_conn_count s2 = 0.
Proof.
  apply (accepted_socket_becomes_connected new listen_any listen_any direct_peer 3 4 16);
    reflexivity.
Defined.

Lemma start_twice_fails_witness :
  ∃ s' tr,
    Start 8 new = Some (tt, s', tr) ∧
    actions tr = [Callback m_interface.OnStartup; request_event_active] ∧
    m_outgoing_conn_limit s' = 8 ∧
    m_shutdown s' = false ∧
    m_connection_index s' = m_connection_index new ∧
    Start 16 s' = None.
Proof.
  eexists _, _. split; [reflexivity|].
  apply (start_twice_fails new 8 16 tt). reflexivity.
Defined.

Lemma pump_false_is_final_witness :
  ∃ s' tr,
    PumpEvents true [EvShutdownInt] (set_event_base true new) = Some (false, s', tr) ∧
    PumpEvents false [EvStart 8] s' = Some (false, s', []).
Proof.
  eexists _, _. split; [vm_compute; reflexivity|].
  eapply (pump_false_is_final true false [EvShutdownInt] [EvStart 8]
            (set_event_base true new)).
  vm_compute. reflexivity.
Defined.

Lemma pump_true_witness :
  ∃ s0 tr0,
    run [Do (EvStart 8)] new = Some (tt, s0, tr0) ∧
    ∃ s' tr,
      PumpEvents true [EvShutdown; EvRequestOutgoingInt [direct_peer]] s0
      = Some (true, s', tr) ∧
      true = true ∧ m_shutdown s' = false ∧
      event_base_loop [EvShutdown; EvRequestOutgoingInt [direct_peer]] s0
      = Some (tt, s', tr).
Proof.
  eexists _, _. split; [vm_compute; reflexivity|].
  eexists _, _. split; [vm_compute; reflexivity|].
  eapply (pump_true_unless_shutdown_runs true).
  - vm_compute. reflexivity.
  - vm_compute. reflexivity.
  - intros Hin. repeat (apply elem_of_cons in Hin as [Hin|Hin]; [discriminate|]).
    by apply elem_of_nil in Hin.
  - vm_compute. reflexivity.
Defined.

Lemma restart_after_shutdown_witness :
  ∃ s0 tr0,
    run one_retry new = Some (tt, s0, tr0) ∧
    ∃ s' tr,
      PumpEvents true [EvStartConnection direct_peer; EvShutdownInt] s0
      = Some (false, s', tr) ∧
      m_connection_index s0 = 2 ∧ allocated tr = [2] ∧ m_connection_index s' = 3 ∧
      stopped s' ∧
      ids_from (m_connection_index s0) (allocated tr) (m_connection_index s') ∧
      ∃ s'' tr',
        Start 4 s' = Some (tt, s'', tr') ∧
        m_outgoing_conn_limit s'' = 4 ∧
        m_shutdown s'' = false ∧
        m_connection_index s'' = m_connection_index s'.
Proof.
  eexists _, _. split; [vm_compute; reflexivity|].
  match goal with
  | |- ∃ s' tr, PumpEvents _ _ ?s0 = _ ∧ _ =>
      eexists _, _; split; [vm_compute; reflexivity|];
      do 3 (split; [vm_compute; reflexivity|]);
      eapply (restart_after_shutdown true [EvStartConnection direct_peer; EvShutdownInt] s0)
  end.
  - vm_compute. reflexivity.
  - vm_compute. reflexivity.
  - vm_compute. reflexivity.
Defined.

Lemma shutdown_reports_witness :
  ∃ s0 tr0,
    run three_peers new = Some (tt, s0, tr0) ∧
    ∃ s' tr,
      ShutdownInt s0 = Some (tt, s', tr) ∧
      (if m_shutdown s0 then s' = s0 ∧ tr = []
       else actions tr
            = shutdown_reports (m_connected s0) (m_connecting s0)
              ++ [event_base_loopbreak]) ∧
      StronglySorted Z.lt (entries (m_connected s0)).*1 ∧
      StronglySorted Z.lt (entries (m_connecting s0)).*1.
Proof.
  eexists _, _. split; [vm_compute; reflexivity|].
  match goal with
  | |- ∃ s' tr, ShutdownInt ?s0 = _ ∧ _ =>
      eexists _, _; split; [vm_compute; reflexivity|];
      eapply (shutdown_reports_every_connection s0 tt)
  end.
  vm_compute. reflexivity.
Defined.


Lemma callbacks_see_maps_updated_witness :
  ∃ s tr, run busy_then_shutdown new = Some (tt, s, tr) ∧ Forall callback_sees tr.
Proof.
  eexists _, _. split; [vm_compute; reflexivity|].
  eapply (callbacks_see_maps_updated busy_then_shutdown new).
  vm_compute. reflexivity.
Defined.

Lemma no_retry_once_shut_down_witness :
  ∃ s tr, run busy_then_shutdown new = Some (tt, s, tr) ∧ Forall retry_while_running tr.
Proof.
  eexists _, _. split; [vm_compute; reflexivity|].
  eapply (no_retry_once_shut_down busy_then_shutdown new).
  vm_compute. reflexivity.
Defined.


Lemma id_names_one_entity_witness :
  ∃ s tr,
    run one_of_each new = Some (tt, s, tr) ∧
    (holders s 3 ≤ 1)%nat ∧ ((0 < holders s 3)%nat → 0 ≤ 3 < m_connection_index s).
Proof.
  eexists _, _. split; [vm_compute; reflexivity|].
  eapply (id_names_one_entity one_of_each).
  - vm_compute. reflexivity.
  - vm_compute. reflexivity.
Defined.


Lemma outgoing_limit_witness :
  ∃ s' tr,
    run (Do (EvStart 8) :: [Do (EvStartConnection direct_peer); Pump true [EvShutdownInt]]) new
    = Some (tt, s', tr) ∧
    m_outgoing_conn_limit s' = 8.
Proof.
  eexists _, _. split; [vm_compute; reflexivity|].
  eapply (outgoing_limit_is_what_start_set 8
            [Do (EvStartConnection direct_peer); Pump true [EvShutdownInt]] new).
  - vm_compute. reflexivity.
  - by repeat constructor.
Defined.
